(* ===== verification/_CoqProject ===== *)
-Q . S2P
Prelude.v
DateFns.v
Items.v
SortByStart.v
LaneAssigner.v
FirstFit.v
Optimality.v
TimelineData.v
PageState.v
Geometry.v
Panels.v
Ruler.v
Controls.v
Page.v
Texts.v
