(* ===== verification/Prelude.v ===== *)
(** * Timeline lane layout: a verified model of rhayann1337/timeline

    The repository is a React page ([src/src/pages/timeline/timeline.jsx])
    that draws dated tasks as bars on a zoomable timeline.  Its parts:

    - the entry point [index.js], which renders [Timeline] once;
    - the lane assigner [assignLanes] (imported from [utils/assign-lanes],
      a module that is not in the repository; its contract is taken from
      the spec, section 4.1): stable sort by start date, then first-fit
      placement of every item into the lowest lane whose last item ends
      strictly before the item starts;
    - the layout builder, the [useMemo] block of [Timeline]
      (timeline.jsx 19-87): the overall start/end dates, the number of days,
      the colour rule of each item by its duration, the flattened list of
      items annotated with their lane index, and [maxLane];
    - the page state of [Timeline] (timeline.jsx 15-17, 89-113): the zoom
      level with its two clamped handlers, the selected item toggled by
      clicks, the chosen view, and the zoom buttons of [TimelineControls];
    - the render of [Timeline] (timeline.jsx 103-177) and its components:
      [TimelineControls], [TimelineVisual] with its ruler, grid and
      [TimelineItem] bars, [LaneInfoPanel] and [TimelineItemDialog];
    - date-fns, the library that reads ([parseISO]) and prints ([format])
      every date.

    Library layout (each file opens with its own summary):
    - [Prelude] (this file): the [result] error type of the development and
      its monad instances, the [timeline_scope] notations, counting over
      lists ([count]) with its permutation and sub-multiset lemmas, the
      [timeline] hint database and the tactics [case_Z] and [eq_syntactic].
    - [DateFns]: the calendar ([civil_from_days], its inverse
      [days_from_civil], [getDay], [getDate], [addDays]), [parseISO] on
      ["YYYY-MM-DD"] with date-fns' [validateDate], and [format] with the
      tokens [yyyy], [MMM], [dd] of the sources' patterns.  These model a
      library the sources only call, so no claim is stated of them alone;
      their lemmas serve the claims on what the page prints: the calendar
      is a bijection between day numbers and valid dates ([days_civil],
      [civil_days], proved for all day numbers by the era/year-of-era
      arithmetic, no enumeration), the long date printed identifies its
      day ([format_long_injective]) and January and February follow
      January 1 without a gap ([days_from_civil_jan_feb]).
    - [Items]: the [Item] record of the data file, dates as day numbers, the
      overlap rule of the spec ([precedes], [covers]) and validity.
    - [SortByStart]: the stable ascending sort by start date (a model of
      the [Array.prototype.sort] call), proved a sorted, stable permutation.
    - [LaneAssigner]: the first-fit placement written twice, once over the
      lanes themselves ([place_ref]) and once over the indexed array of
      last end dates the spec prescribes ([place]); their equivalence; the
      whole [assignLanes] with its [ValidationError]; completeness
      (permutation), non-overlap inside each lane, first-fit choice; the
      [LaneContract] class that states what the assigner promises its
      client, with the instance for [assignLanes].
    - [FirstFit]: the first-fit property of the output (every item is in
      the lowest lane free on its start day), proved on the reference
      placement and carried to [assignLanes].
    - [Optimality]: the depth of a day (number of items covering it), the
      clique number [max_depth], and the theorem that the number of lanes
      equals it and that no partition into non-overlapping lanes is smaller.
    - [TimelineData]: the layout builder of timeline.jsx, the [useMemo]
      block, as [timelineData], parameterised by any assigner meeting
      [LaneContract]: the two [reduce] calls, [totalDays], [colorRules]
      and the [find] of each item's rule, the nested [forEach] that pushes
      the annotated items ([push_lanes]), and [maxLane].  Its theorems are
      stated of what the page renders with [assignLanes]: the rows
      partition the items (C1), rows never hold overlapping items (C2),
      there are exactly as many rows as the largest number of items on one
      day (C3) and no valid drawing has fewer (C7), lane tags point at the
      row holding the item (C4), the ruler spans the items (C5), every item
      is in the lowest free row (C6), rows are sorted (C8), the indexed
      assigner refines the reference one (C9), the layout does not depend
      on the input order beyond ties (C10), the
      output is well formed ([td_wf], C13), the loops equal their direct
      definitions (C14: [concat]/[imap] for the [forEach], list minimum and
      maximum for the [reduce] calls) and the colours (C15).
    - [PageState]: the state of [Timeline] ([zoomLevel], [selectedItem],
      [optionShow]) as a record, the user's clicks as an [Event] type, one
      step function [handle] with the guards of the buttons, the step
      relation [page_step] and the reachable states.  Theorems C16-C20:
      the zoom stays in [0.3, 3] (C16), 13 clicks reach either bound (C17),
      clicks on an enabled zoom button terminate (C18: the relation of such
      clicks is well founded from every reachable state, by the lower
      bound [zoom_in_floor] on the zoom after [n] clicks), a click opens or
      closes the dialog and an item with id 0 is selected without its
      dialog ever opening (C19, a defect of [Boolean(selectedItem)]), and
      the actions keep what they do not own and the toggles undo each
      other: zoom in then out keeps the selection and the view, the same
      item clicked twice and the panel view and back give the state back
      (C20; nothing is claimed of the zoom after in-then-out, which
      binary64 need not restore).  The lemma [zoom_buttons]: each
      button is disabled exactly at its bound.
    - [Geometry]: [TimelineVisual]'s canvas ([baseWidth], [timelineHeight])
      and ruler ([monthPosition], [dayPosition], [gridPosition]) and
      [TimelineItem]'s bar and tooltip ([timelineItem]), with percentages
      turned back into pixels of the canvas.  Theorems C21-C27: bars of one
      lane are disjoint when the earlier item lasts two days or more (C21)
      but a one-day bar overlaps the next day's bar (C22, the two-day
      minimum width); bars are inside the canvas height, those of a lower
      lane 20 pixels above those of a higher one (C23); bars lie on the
      ruler (C24) but the last one overflows the canvas by 32 pixels once
      the days fill it (C25); the ruler is drawn 32 pixels left of the grid
      (C26, and at least 32 pixels when the container stretches the
      canvas past [baseWidth]); ruler labels are inside the canvas (C27).
      The lemma [tooltip_side] gives the tooltip's side by lane.
    - [Panels]: [LaneInfoPanel] ([laneInfoPanel]: header counts, cards,
      lines with the colour found by id) and [TimelineItemDialog]
      ([timelineItemDialog]: lookup of the selected id, duration, shown
      description, close request), with the page's dialog [pageDialog].
      Theorems: the panel's counts and numbering (C28), each line's colour
      is its bar's and its card is its lane (C29, for unique ids), the
      dialog shows the selected item and its duration (C30), the bar's
      tooltip, the panel and the dialog agree on each item (C31), and, for
      any list, what duplicate ids do to both lookups (C35: two items with
      one id share one line colour, and the dialog of the later one shows
      the first).  The lemmas
      [panel_click_shows_item] and [dialog_close]: a click on a line opens
      that item's dialog, and the dialog closes and reopens.
    - [Ruler]: the labels of [TimelineVisual]'s ruler ([monthLabels],
      [dayTick]) and the classes of its grid lines ([gridLine]).  Theorems:
      the month labels are the months of every 30th day, so for every year
      a ruler from January 1 labels January twice and never February
      (C36); the grid lines and day labels by
      zoom (C37, from the lemmas [grid_lines] and [day_labels]).  The lemma
      [week_ticks] counts one week-start tick in every seven days.
    - [Controls]: [TimelineControls] ([timelineControls], its range printed
      with ["MMM dd, yyyy"], rendered by the page in the timeline view as
      [pageControls]).  The lemma [controls_agree]: its item count, dates
      and zoom percentage agree with the lane panel, the ruler and the page
      state.
    - [Page]: the composition.  [timelineVisualView] is the whole of
      [TimelineVisual] (canvas, month labels, day ticks, bars, grid lines),
      its bars one [timelineItemView] per annotated item (selection ring,
      opacity and click); [timelinePage] is the render of [Timeline]: the
      throw of [assignLanes] ([RenderThrows]), the empty-state card, or the
      controls, the visual, the panel and the dialog by the state's view;
      [App] is the first render.  Theorems: the render's cases in every
      reachable state (C11: a throw exactly for invalid items, with no
      fallback; the empty card exactly for no items; one of the visual and
      the panel, never both), the first screen (C12), the selected bar
      against the dialog (C32), and a click on a bar renders the page
      again with that bar selected and its dialog, a second click clearing
      the selection (C33).
    - [Texts]: the dates each view prints ([panelEntryDates], [barDates],
      [tooltipDates], [dialogDates], [monthLabelText], [dayLabelText]).
      Theorem C34: the bar and the panel print the same short dates, the
      tooltip and the dialog the same long dates, and a long date
      identifies its day.

    Numbers.  Zoom levels, widths and percentages are exact rationals
    ([Q]); the code computes them in binary64, whose rounding is not
    modelled (C17's thirteen clicks are exact in [Q]: 1.2^13 > 10).  The
    claims on the zoom are bounds and the guards of the buttons (C16-C18),
    which the rounded values meet as well; no claim rests on an exact
    product or quotient, such as zoom-in then zoom-out giving the zoom back
    (it does in [Q], not always in binary64).  The canvas is drawn at
    [baseWidth] pixels unless its container is wider ([minWidth]); see
    [Geometry].
    Lane counts and indices are [nat], dates [Z].  The only fuel is that
    of [DateFns.decimal], the digits of a number: twenty digits cover every
    safe integer of JS, and the theorems use it on numbers below 10000,
    where four steps suffice ([addLeadingZeros_4]).

    Dates.  [parseISO] of a ["YYYY-MM-DD"] string yields local midnight; at
    day granularity every date is a day number ([Z], 19723 is 2024-01-01),
    [startOfDay] is the identity on it and [differenceInDays a b] is
    [a - b].  The items of the model carry the day numbers [parseISO]
    returns for the strings of the data file.

    Not modelled: JSX markup and the static texts of the page, CSS classes
    other than those the code computes, console logging, React's
    scheduling of state updates and re-renders (each handler is one atomic
    step of the page state), the creation of the React root in [index.js]
    (DOM I/O), the UI primitives ([Card], [Button], [Dialog], [cn], the
    icons: markup only), the other forms [parseISO] accepts (week and
    ordinal dates, times) and the other [format] tokens, and the contents
    of the data file.  The two imported modules that are not in the
    repository, [utils/assign-lanes] and [data/timelineItems], are
    modelled from the spec (section 4.1 and section 6): [LaneAssigner]
    translates the algorithm the spec prescribes and [Items] the item
    shape, and the page-level theorems hold for any assigner meeting
    [LaneContract] and any list of items.  Every loop of the code is a
    [map], [forEach], [find] or [reduce] over a finite array, structural
    recursion in the model; the one unbounded behaviour, a user clicking
    a zoom button again and again, is C18's termination. *)

From stdpp Require Export list sorting.
From Stdlib Require Export ZArith Lia.

Declare Scope timeline_scope.
Delimit Scope timeline_scope with tl.
Open Scope timeline_scope.

(** ** Errors

    The spec's only failure is [ValidationError]; a computation that can
    fail returns a [result]. *)
Inductive error := ValidationError.

Inductive result (A : Type) : Type :=
| Ok (a : A)
| Err (e : error).
Arguments Ok {A} a.
Arguments Err {A} e.

#[export] Instance result_ret : MRet result := λ A a, Ok a.
#[export] Instance result_bind : MBind result :=
  λ A B k m, match m with Ok a => k a | Err e => Err e end.
#[export] Instance result_fmap : FMap result :=
  λ A B f m, match m with Ok a => Ok (f a) | Err e => Err e end.

#[export] Instance error_eq_dec : EqDecision error.
Proof. solve_decision. Defined.

(** [m ?>>= k] in the development's scope: run [k] on the value of [m],
    propagating an error. *)
Notation "m ?>>= k" := (mbind (M:=result) k m) (at level 60, right associativity)
  : timeline_scope.

Lemma result_bind_Ok {A B} (m : result A) (k : A → result B) (b : B) :
  m ?>>= k = Ok b ↔ ∃ a, m = Ok a ∧ k a = Ok b.
Proof.
  destruct m as [a|e]; simpl; split.
  - eauto.
  - intros (a' & [= ->] & ?); done.
  - done.
  - intros (? & ? & ?); done.
Qed.

(** ** Counting the elements of a list that satisfy a decidable predicate *)

Definition count {A} (P : A → Prop) `{∀ x, Decision (P x)} (l : list A) : nat :=
  length (filter P l).

Section Count.
Context {A : Type} (P : A → Prop) `{∀ x, Decision (P x)}.
Implicit Types l : list A.

Lemma count_nil : count P [] = 0.
Proof. done. Qed.

Lemma count_cons x l :
  count P (x :: l) = (if decide (P x) then 1 else 0) + count P l.
Proof. unfold count. rewrite filter_cons. case_decide; done. Qed.

Lemma count_app l1 l2 : count P (l1 ++ l2) = count P l1 + count P l2.
Proof. unfold count. by rewrite filter_app, length_app. Qed.

#[export] Instance count_Permutation : Proper ((≡ₚ) ==> (=)) (count P).
Proof. intros l1 l2 Hl. unfold count. by rewrite Hl. Qed.

Lemma count_submseteq l1 l2 : l1 ⊆+ l2 → count P l1 ≤ count P l2.
Proof.
  intros Hs. apply submseteq_Permutation in Hs as [k Hk].
  rewrite Hk, count_app. lia.
Qed.

Lemma count_le_length l : count P l ≤ length l.
Proof. apply length_filter. Qed.

Lemma count_all l : Forall P l → count P l = length l.
Proof.
  induction 1 as [|x l Hx _ IH]; [done|].
  rewrite count_cons, decide_True by done. simpl. lia.
Qed.

Lemma count_none l : Forall (λ x, ¬ P x) l → count P l = 0.
Proof.
  induction 1 as [|x l Hx _ IH]; [done|].
  rewrite count_cons, decide_False by done. done.
Qed.

Lemma count_concat (ls : list (list A)) :
  count P (concat ls) = sum_list_with (count P) ls.
Proof. induction ls as [|l ls IH]; [done|]. by rewrite concat_cons, count_app, IH. Qed.

(** If every list holds at most one element satisfying [P], the
    concatenation holds at most as many as there are lists. *)
Lemma count_concat_le_length (ls : list (list A)) :
  Forall (λ l, count P l ≤ 1) ls → count P (concat ls) ≤ length ls.
Proof.
  rewrite count_concat. induction 1; simpl; lia.
Qed.

(** An element of a list that satisfies [P] is one of the elements counted. *)
Lemma count_pos x l : x ∈ l → P x → 0 < count P l.
Proof.
  intros Hx HP. unfold count.
  destruct (filter P l) eqn:E; [|simpl; lia].
  assert (x ∈ filter P l) as Hin by (apply list_elem_of_filter; done).
  rewrite E in Hin. by apply elem_of_nil in Hin.
Qed.
End Count.

(** The elements of [count] can be compared through an inclusion of
    predicates. *)
Lemma count_mono {A} (P Q : A → Prop) `{∀ x, Decision (P x)} `{∀ x, Decision (Q x)}
    (l : list A) :
  (∀ x, x ∈ l → P x → Q x) → count P l ≤ count Q l.
Proof.
  induction l as [|x l IH]; intros HPQ; [done|].
  rewrite !count_cons.
  assert (count P l ≤ count Q l) by (apply IH; intros; apply HPQ; [by right|done]).
  repeat case_decide; try lia.
  exfalso. match goal with H : ¬ Q x |- _ => apply H end. apply HPQ; [left|]; done.
Qed.

(** Predicates that agree on a list count the same elements. *)
Lemma count_ext {A} (P Q : A → Prop) `{∀ x, Decision (P x)} `{∀ x, Decision (Q x)}
    (l : list A) :
  (∀ x, x ∈ l → P x ↔ Q x) → count P l = count Q l.
Proof.
  intros HPQ. apply Nat.le_antisymm; apply count_mono; intros x Hx; apply HPQ, Hx.
Qed.

(** ** Integer comparisons of the code

    The code compares dates with [<] and [>]; [case_Z] turns every boolean
    comparison of the goal into the proposition it decides. *)

Ltac case_Z :=
  repeat match goal with
  | |- context [Z.ltb ?a ?b] => destruct (Z.ltb_spec a b)
  | |- context [Z.leb ?a ?b] => destruct (Z.leb_spec a b)
  | |- context [Z.eqb ?a ?b] => destruct (Z.eqb_spec a b)
  | H : context [Z.ltb ?a ?b] |- _ => destruct (Z.ltb_spec a b)
  | H : context [Z.leb ?a ?b] |- _ => destruct (Z.leb_spec a b)
  end.

(** Closes [a = a] for syntactically equal sides only: an equation
    between two printed dates whose sides differ is not tried by
    conversion, which would unfold the calendar on symbolic days. *)
Ltac eq_syntactic := lazymatch goal with |- ?a = ?b => constr_eq a b; reflexivity end.

Create HintDb timeline.
Create Rewrite HintDb timeline_rw.
#[export] Hint Resolve count_le_length count_submseteq : timeline.
#[export] Hint Rewrite @count_app @count_cons : timeline_rw.

(** ** An element of largest key *)

Lemma exists_max_key {A} (f : A → Z) (l : list A) :
  l ≠ [] → ∃ y, y ∈ l ∧ ∀ z, z ∈ l → (f z <= f y)%Z.
Proof.
  induction l as [|x l IH]; intros Hne; [done|].
  destruct l as [|x' l].
  - exists x. split; [left|]. intros z ->%list_elem_of_singleton. lia.
  - destruct IH as (y & Hy & Hmax); [done|].
    destruct (Z.le_gt_cases (f x) (f y)).
    + exists y. split; [by right|]. intros z [->|Hz]%elem_of_cons; [lia|by apply Hmax].
    + exists x. split; [left|]. intros z [->|Hz]%elem_of_cons; [lia|].
      specialize (Hmax z Hz). lia.
Qed.

(** Two distinct elements of a strongly sorted list are related one way
    or the other. *)
Lemma strongly_sorted_related {A} (R : relation A) (l : list A) x y :
  StronglySorted R l → x ∈ l → y ∈ l → x ≠ y → R x y ∨ R y x.
Proof.
  induction 1 as [|z l _ IH Hz]; intros Hx Hy Hne; [by apply elem_of_nil in Hx|].
  apply elem_of_cons in Hx as [->|Hx]; apply elem_of_cons in Hy as [->|Hy].
  - done.
  - left. by eapply Forall_forall in Hz.
  - right. by eapply Forall_forall in Hz.
  - by apply IH.
Qed.

(** ** Lookups by a unique key *)

(** A key that is unique in a list determines the element. *)
Lemma NoDup_fmap_inj {A B} (f : A → B) (l : list A) x y :
  NoDup (f <$> l) → x ∈ l → y ∈ l → f x = f y → x = y.
Proof.
  induction l as [|a l IH]; intros Hnd Hx Hy Hf; [by apply elem_of_nil in Hx|].
  cbn in Hnd. apply NoDup_cons in Hnd as [Ha Hnd].
  apply elem_of_cons in Hx as [->|Hx]; apply elem_of_cons in Hy as [->|Hy];
    [done| | |by apply IH].
  - exfalso. apply Ha. rewrite Hf. by apply list_elem_of_fmap_2.
  - exfalso. apply Ha. rewrite <- Hf. by apply list_elem_of_fmap_2.
Qed.

(** [l.find((i) => key(i) === k)] finds something when an element has the
    key [k], and what it finds has that key. *)
Lemma find_key_some {A} (key : A → Z) (l : list A) x :
  x ∈ l → ∃ y, List.find (λ i, Z.eqb (key i) (key x)) l = Some y ∧ y ∈ l ∧ key y = key x.
Proof.
  intros Hx. destruct (List.find _ l) as [y|] eqn:E.
  - apply find_some in E as [Hy Heq]. apply Z.eqb_eq in Heq. exists y.
    by rewrite list_elem_of_In.
  - apply list_elem_of_In in Hx. eapply find_none in E; [|exact Hx].
    by rewrite Z.eqb_refl in E.
Qed.

(** [l.find((i) => key(i) === k)] finds the element of key [k] when keys
    are unique. *)
Lemma find_unique_key {A} (key : A → Z) (l : list A) x :
  NoDup (key <$> l) → x ∈ l → List.find (λ i, Z.eqb (key i) (key x)) l = Some x.
Proof.
  intros Hnd Hx. destruct (find_key_some key l x Hx) as (y & -> & Hy & Heq). f_equal.
  by apply (NoDup_fmap_inj key l).
Qed.

(** [l.find(f)] returns the first element that satisfies [f], whatever
    follows it. *)
Lemma find_first {A} (f : A → bool) pre x post :
  Forall (λ i, f i = false) pre → f x = true → List.find f (pre ++ x :: post) = Some x.
Proof. induction 1 as [|a pre Ha _ IH]; intros Hx; cbn; [by rewrite Hx|by rewrite Ha, IH]. Qed.

