(* ===== verification/DateFns.v ===== *)
(** * date-fns: the calendar, [parseISO] and [format]

    The sources read and print every date through date-fns, a library the
    repository only calls: [parseISO(item.start)] in timeline.jsx (lines
    24-30, 60-61), lane-info-panel.jsx (lines 45-46) and
    timeline-item-dialog.jsx (lines 12, 26, 30); [format(date, pattern)]
    with the patterns ["MMM dd, yyyy"], ["MMM dd"], ["MMM yyyy"], ["MMM"]
    and ["dd"]; [addDays], [getDay] and [getDate] in timeline-visual.jsx.

    A date is a day number ([Z], 0 is 1970-01-01): at day granularity
    every date the page handles is a local midnight.  [civil_from_days]
    (H. Hinnant's days-to-civil algorithm) gives the proleptic Gregorian
    year, month and day that [getFullYear], [getMonth] + 1 and [getDate]
    read, and [days_from_civil] is its inverse, the day [parseISO] builds
    from the year, month and day it reads ([setUTCFullYear(year, month,
    day)]).

    [parseISO] is modelled on the calendar-date form ["YYYY-MM-DD"] that
    the data file uses: the four-digit year, two-digit month and day are
    read and checked by date-fns' [validateDate] (month 1-12, day within
    the month, February 29 only in leap years); a string of that form that
    fails the check is [Invalid Date].  The other forms [parseISO]
    accepts (week and ordinal dates, times, expanded years) are
    [OtherForm], not modelled.

    [format] is modelled by the tokens of the patterns the sources use:
    [yyyy] is the year of the era ([1 - year] for years up to 0) with
    leading zeros to four digits, [dd] the day with leading zeros to two
    digits ([addLeadingZeros]), [MMM] the English
    month abbreviation; other characters of a pattern are literals. *)

From S2P Require Import Prelude.
From stdpp Require Import strings.
From Stdlib Require Import Ascii.

(** ** The calendar *)

(** Year, month (1-12) and day of month (1-31) of a day number. *)
Definition civil_from_days (n : Z) : Z * Z * Z :=
  let z := (n + 719468)%Z in
  let era := (z / 146097)%Z in
  let doe := (z - era * 146097)%Z in
  let yoe := ((doe - doe / 1460 + doe / 36524 - doe / 146096) / 365)%Z in
  let doy := (doe - (365 * yoe + yoe / 4 - yoe / 100))%Z in
  let mp := ((5 * doy + 2) / 153)%Z in
  let d := (doy - (153 * mp + 2) / 5 + 1)%Z in
  let m := if Z.ltb mp 10 then (mp + 3)%Z else (mp - 9)%Z in
  let y := (yoe + era * 400)%Z in
  (if Z.leb m 2 then (y + 1)%Z else y, m, d).

(** The day number of a year, month (1-12) and day: the era of 400
    years, the year of the era counted from March, the day of that year. *)
Definition days_from_civil (y m d : Z) : Z :=
  let y := if Z.leb m 2 then (y - 1)%Z else y in
  let era := (y / 400)%Z in
  let yoe := (y - era * 400)%Z in
  let mp := if Z.ltb 2 m then (m - 3)%Z else (m + 9)%Z in
  let doy := ((153 * mp + 2) / 5 + d - 1)%Z in
  let doe := (yoe * 365 + yoe / 4 - yoe / 100 + doy)%Z in
  (era * 146097 + doe - 719468)%Z.

(** [Date.prototype.getDay]: 0 is Sunday, 1 is Monday. *)
Definition getDay (n : Z) : Z := ((n + 4) mod 7)%Z.

(** [Date.prototype.getDate]: the day of the month. *)
Definition getDate (n : Z) : Z := snd (civil_from_days n).

(** [addDays] *)
Definition addDays (d : Z) (k : Z) : Z := (d + k)%Z.

(** [isLeapYearIndex] of parseISO:
    [year % 400 === 0 || (year % 4 === 0 && year % 100 !== 0)]. *)
Definition isLeapYearIndex (year : Z) : bool :=
  Z.eqb (year mod 400) 0 || (Z.eqb (year mod 4) 0 && negb (Z.eqb (year mod 100) 0)).

(** [DAYS_IN_MONTH[month] || (isLeapYearIndex(year) ? 29 : 28)], months
    0-11. *)
Definition daysInMonth (year month : Z) : Z :=
  match month with
  | 1%Z => if isLeapYearIndex year then 29 else 28
  | 3%Z | 5%Z | 8%Z | 10%Z => 30
  | _ => 31
  end.

(** [validateDate(year, month, date)]:
    [month >= 0 && month <= 11 && date >= 1 && date <= daysInMonth]. *)
Definition validateDate (year month date : Z) : bool :=
  Z.leb 0 month && Z.leb month 11 && Z.leb 1 date && Z.leb date (daysInMonth year month).

(** ** [parseISO] on ["YYYY-MM-DD"] *)

Inductive ParsedDate :=
| ParsedDay (n : Z)
| InvalidDate
| OtherForm.

(** A decimal digit ([\d] of the patterns). *)
Definition digitValue (c : ascii) : option Z :=
  let k := (Z.of_nat (nat_of_ascii c) - 48)%Z in
  if Z.leb 0 k && Z.leb k 9 then Some k else None.

(** The captures of [YYYY-MM-DD]: year, month (1-based) and day. *)
Definition splitCalendarDate (s : string) : option (Z * Z * Z) :=
  match s with
  | String y1 (String y2 (String y3 (String y4 (String c1
      (String m1 (String m2 (String c2 (String d1 (String d2 EmptyString))))))))) =>
      if Ascii.eqb c1 "-" && Ascii.eqb c2 "-" then
        a ← digitValue y1; b ← digitValue y2; c ← digitValue y3; d ← digitValue y4;
        e ← digitValue m1; f ← digitValue m2; g ← digitValue d1; h ← digitValue d2;
        Some ((1000 * a + 100 * b + 10 * c + d)%Z, (10 * e + f)%Z, (10 * g + h)%Z)
      else None
  | _ => None
  end.

(** [parseISO]: [month = parseDateUnit(captures[2]) - 1], [validateDate],
    then the day of [setUTCFullYear(year, month, day)]; an invalid date is
    [new Date(NaN)]. *)
Definition parseISO (s : string) : ParsedDate :=
  match splitCalendarDate s with
  | None => OtherForm
  | Some (year, month, day) =>
      if validateDate year (month - 1) day then ParsedDay (days_from_civil year month day)
      else InvalidDate
  end.

(** ** [format] *)

Inductive Token :=
| Tok_yyyy
| Tok_MMM
| Tok_dd
| Tok_lit (s : string).

Definition digitChar (k : Z) : ascii := ascii_of_nat (48 + Z.to_nat k).

(** [Math.abs(number).toString()]: the decimal digits, least significant
    first into [acc].  Twenty digits cover every safe integer of JS. *)
Fixpoint decimal (fuel : nat) (k : Z) (acc : string) : string :=
  match fuel with
  | O => acc
  | S fuel =>
      let acc := String (digitChar (k mod 10)) acc in
      if Z.ltb k 10 then acc else decimal fuel (k / 10) acc
  end.

Fixpoint zeros (n : nat) : string :=
  match n with
  | O => EmptyString
  | S n => String "0" (zeros n)
  end.

(** [addLeadingZeros(number, targetLength)]:
    [sign + Math.abs(number).toString().padStart(targetLength, "0")]. *)
Definition addLeadingZeros (number : Z) (targetLength : nat) : string :=
  let output := decimal 20 (Z.abs number) EmptyString in
  (if Z.ltb number 0 then "-" else "") +:+ zeros (targetLength - String.length output) +:+ output.

Definition monthsAbbreviated : list string :=
  ["Jan"; "Feb"; "Mar"; "Apr"; "May"; "Jun"; "Jul"; "Aug"; "Sep"; "Oct"; "Nov"; "Dec"].

Definition formatToken (d : Z) (t : Token) : string :=
  let '(year, month, day) := civil_from_days d in
  match t with
  | Tok_yyyy => addLeadingZeros (if Z.ltb 0 year then year else 1 - year) 4
  | Tok_MMM => default "" (monthsAbbreviated !! Z.to_nat (month - 1))
  | Tok_dd => addLeadingZeros day 2
  | Tok_lit s => s
  end.

Definition format (d : Z) (pattern : list Token) : string :=
  foldr (λ t acc, formatToken d t +:+ acc) "" pattern.

(** The patterns of the sources. *)
Definition fmt_MMM_dd_yyyy : list Token := [Tok_MMM; Tok_lit " "; Tok_dd; Tok_lit ", "; Tok_yyyy].
Definition fmt_MMM_dd : list Token := [Tok_MMM; Tok_lit " "; Tok_dd].
Definition fmt_MMM_yyyy : list Token := [Tok_MMM; Tok_lit " "; Tok_yyyy].
Definition fmt_MMM : list Token := [Tok_MMM].
Definition fmt_dd : list Token := [Tok_dd].

(** The digits of a number below 100 and below 10000, as [addLeadingZeros]
    writes them with the lengths 2 and 4. *)
Definition digits2 (k : Z) : string :=
  String (digitChar (k / 10)) (String (digitChar (k mod 10)) EmptyString).
Definition digits4 (k : Z) : string :=
  String (digitChar (k / 1000)) (String (digitChar (k / 100 mod 10))
    (String (digitChar (k / 10 mod 10)) (String (digitChar (k mod 10)) EmptyString))).


(** ** Arithmetic of the calendar *)

Local Open Scope Z_scope.

(** The quotient and remainder facts [lia] needs about [x / k]. *)
Ltac div_facts x k :=
  pose proof (Z.div_mod x k ltac:(lia)); pose proof (Z.mod_pos_bound x k ltac:(lia)).

(** Closed arithmetic on literals, computed ([Z.add] and [Z.mul] do not
    simplify under stdpp). *)
Ltac eval_Z_lits :=
  repeat match goal with
  | |- context [?op ?a ?b] =>
      lazymatch op with Z.add => idtac | Z.sub => idtac | Z.mul => idtac | Z.div => idtac end;
      lazymatch a with Z0 => idtac | Zpos _ => idtac | Zneg _ => idtac end;
      lazymatch b with Z0 => idtac | Zpos _ => idtac | Zneg _ => idtac end;
      let v := eval vm_compute in (op a b) in change (op a b) with v
  end.

Lemma yoe_range doe : (0 <= doe < 146097)%Z →
  (0 <= (doe - doe / 1460 + doe / 36524 - doe / 146096) / 365 <= 399)%Z.
Proof.
  intros H. div_facts doe 1460. div_facts doe 36524. div_facts doe 146096.
  set (t := (doe - doe / 1460 + doe / 36524 - doe / 146096)%Z). div_facts t 365. lia.
Qed.

(** The day of the March-based year is at most 365, and 365 only in a
    year whose February has 29 days. *)
Lemma doy_range doe yoe : (0 <= doe < 146097)%Z →
  yoe = ((doe - doe / 1460 + doe / 36524 - doe / 146096) / 365)%Z →
  (0 <= doe - (365 * yoe + yoe / 4 - yoe / 100) <= 365)%Z ∧
  (doe - (365 * yoe + yoe / 4 - yoe / 100) = 365 →
   (yoe + 1) mod 4 = 0 ∧ ((yoe + 1) mod 100 ≠ 0 ∨ yoe = 399))%Z.
Proof.
  intros H ->. div_facts doe 1460. div_facts doe 36524. div_facts doe 146096.
  set (t := (doe - doe / 1460 + doe / 36524 - doe / 146096)%Z) in *. div_facts t 365.
  set (yoe := (t / 365)%Z) in *. div_facts yoe 4. div_facts yoe 100.
  div_facts (yoe + 1)%Z 4. div_facts (yoe + 1)%Z 100. lia.
Qed.

Lemma leap_yoe era yoe : (0 <= yoe <= 399)%Z →
  isLeapYearIndex (yoe + era * 400 + 1) = true ↔
  ((yoe + 1) mod 4 = 0 ∧ ((yoe + 1) mod 100 ≠ 0 ∨ yoe = 399))%Z.
Proof.
  intros Hy. unfold isLeapYearIndex.
  rewrite orb_true_iff, andb_true_iff, negb_true_iff, !Z.eqb_eq, Z.eqb_neq.
  div_facts (yoe + era * 400 + 1)%Z 4. div_facts (yoe + era * 400 + 1)%Z 100.
  div_facts (yoe + era * 400 + 1)%Z 400. div_facts (yoe + 1)%Z 4. div_facts (yoe + 1)%Z 100.
  lia.
Qed.

(** The year of the era is determined by the day of the era. *)
Lemma yoe_unique Y D :
  (0 <= Y <= 399)%Z → (0 <= D)%Z →
  (D <= 364 ∨ (D = 365 ∧ (Y + 1) mod 4 = 0 ∧ ((Y + 1) mod 100 ≠ 0 ∨ Y = 399)))%Z →
  let doe := (Y * 365 + Y / 4 - Y / 100 + D)%Z in
  ((doe - doe / 1460 + doe / 36524 - doe / 146096) / 365)%Z = Y.
Proof.
  intros HY HD HL doe.
  div_facts Y 4. div_facts Y 100. div_facts (Y + 1)%Z 4. div_facts (Y + 1)%Z 100.
  subst doe. set (doe := (Y * 365 + Y / 4 - Y / 100 + D)%Z).
  div_facts doe 1460. div_facts doe 36524. div_facts doe 146096.
  set (t := (doe - doe / 1460 + doe / 36524 - doe / 146096)%Z). div_facts t 365.
  lia.
Qed.

(** [civil_from_days] of a day given by its era, year of era and day of
    year. *)
Lemma civil_from_days_decomp era yoe doy :
  (0 <= yoe <= 399)%Z → (0 <= doy)%Z →
  (doy <= 364 ∨ (doy = 365 ∧ (yoe + 1) mod 4 = 0 ∧ ((yoe + 1) mod 100 ≠ 0 ∨ yoe = 399)))%Z →
  civil_from_days (era * 146097 + (yoe * 365 + yoe / 4 - yoe / 100 + doy) - 719468) =
  (let mp := ((5 * doy + 2) / 153)%Z in
   let m := if Z.ltb mp 10 then (mp + 3)%Z else (mp - 9)%Z in
   (if Z.leb m 2 then (yoe + era * 400 + 1)%Z else (yoe + era * 400)%Z, m,
    (doy - (153 * mp + 2) / 5 + 1)%Z)).
Proof.
  intros Hy Hd Hl. pose proof (yoe_unique yoe doy Hy Hd Hl) as Hu. cbv zeta in Hu |- *.
  unfold civil_from_days. cbv zeta.
  set (doe := (yoe * 365 + yoe / 4 - yoe / 100 + doy)%Z) in *.
  assert (0 <= doe < 146097)%Z as Hdoe by (subst doe; div_facts yoe 4; div_facts yoe 100; lia).
  replace (era * 146097 + doe - 719468 + 719468)%Z with (era * 146097 + doe)%Z by lia.
  replace ((era * 146097 + doe) / 146097)%Z with era
    by (div_facts (era * 146097 + doe)%Z 146097; lia).
  replace (era * 146097 + doe - era * 146097)%Z with doe by lia.
  rewrite Hu. replace (doe - (365 * yoe + yoe / 4 - yoe / 100))%Z with doy by (subst doe; lia).
  reflexivity.
Qed.

Lemma mp_roundtrip mp d : (0 <= mp)%Z → (1 <= d)%Z →
  ((153 * mp + 2) / 5 + d - 1 < (153 * (mp + 1) + 2) / 5)%Z →
  ((5 * ((153 * mp + 2) / 5 + d - 1) + 2) / 153)%Z = mp.
Proof.
  intros H0 Hd Hlt. div_facts (153 * mp + 2)%Z 5. div_facts (153 * (mp + 1) + 2)%Z 5.
  set (doy := ((153 * mp + 2) / 5 + d - 1)%Z). div_facts (5 * doy + 2)%Z 153. lia.
Qed.

Lemma validateDate_spec y m d :
  validateDate y m d = true ↔ 0 <= m <= 11 ∧ 1 <= d <= daysInMonth y m.
Proof. unfold validateDate. rewrite !andb_true_iff, !Z.leb_le. tauto. Qed.

(** The twelve months, for the case analyses. *)
Lemma month_cases m : 1 <= m <= 12 →
  m = 1 ∨ m = 2 ∨ m = 3 ∨ m = 4 ∨ m = 5 ∨ m = 6 ∨ m = 7 ∨ m = 8 ∨ m = 9 ∨ m = 10 ∨
  m = 11 ∨ m = 12.
Proof. lia. Qed.

(** [civil_from_days] then [days_from_civil] is the identity. *)
Lemma days_civil n y m d : civil_from_days n = (y, m, d) → days_from_civil y m d = n.
Proof.
  unfold civil_from_days, days_from_civil. cbv zeta.
  set (z := n + 719468). set (era := z / 146097). set (doe := z - era * 146097).
  assert (0 <= doe < 146097) as Hdoe by (subst doe era; div_facts z 146097; lia).
  set (yoe := (doe - doe / 1460 + doe / 36524 - doe / 146096) / 365).
  pose proof (yoe_range doe Hdoe) as Hy. destruct (doy_range doe yoe Hdoe eq_refl) as [Hdoy _].
  set (doy := doe - (365 * yoe + yoe / 4 - yoe / 100)) in *.
  set (mp := (5 * doy + 2) / 153).
  assert (0 <= mp <= 11) as Hmp by (subst mp; div_facts (5 * doy + 2) 153; lia).
  intros Heq. destruct (Z.ltb_spec mp 10) as [Hlt|Hge].
  - assert (Z.leb (mp + 3) 2 = false) as Hf by (apply Z.leb_gt; lia). rewrite Hf in Heq.
    apply pair_equal_spec in Heq as [[<- <-]%pair_equal_spec <-]. rewrite Hf.
    replace (Z.ltb 2 (mp + 3)) with true by (symmetry; apply Z.ltb_lt; lia).
    replace (mp + 3 - 3) with mp by lia.
    replace ((yoe + era * 400) / 400) with era by (div_facts (yoe + era * 400) 400; lia).
    replace (yoe + era * 400 - era * 400) with yoe by lia. subst doy doe z. lia.
  - assert (Z.leb (mp - 9) 2 = true) as Ht by (apply Z.leb_le; lia). rewrite Ht in Heq.
    apply pair_equal_spec in Heq as [[<- <-]%pair_equal_spec <-]. rewrite Ht.
    replace (Z.ltb 2 (mp - 9)) with false by (symmetry; apply Z.ltb_ge; lia).
    replace (mp - 9 + 9) with mp by lia.
    replace (yoe + era * 400 + 1 - 1) with (yoe + era * 400) by lia.
    replace ((yoe + era * 400) / 400) with era by (div_facts (yoe + era * 400) 400; lia).
    replace (yoe + era * 400 - era * 400) with yoe by lia. subst doy doe z. lia.
Qed.

(** [civil_from_days] returns a date [validateDate] accepts. *)
Lemma civil_valid n y m d : civil_from_days n = (y, m, d) → validateDate y (m - 1) d = true.
Proof.
  rewrite validateDate_spec. unfold civil_from_days. cbv zeta.
  set (z := n + 719468). set (era := z / 146097). set (doe := z - era * 146097).
  assert (0 <= doe < 146097) as Hdoe by (subst doe era; div_facts z 146097; lia).
  set (yoe := (doe - doe / 1460 + doe / 36524 - doe / 146096) / 365).
  pose proof (yoe_range doe Hdoe) as Hy.
  destruct (doy_range doe yoe Hdoe eq_refl) as [Hdoy Hleap].
  set (doy := doe - (365 * yoe + yoe / 4 - yoe / 100)) in *.
  set (mp := (5 * doy + 2) / 153).
  assert (153 * mp <= 5 * doy + 2 < 153 * mp + 153) as Hmp
    by (subst mp; div_facts (5 * doy + 2) 153; lia).
  intros Heq. apply pair_equal_spec in Heq as [[<- <-]%pair_equal_spec <-].
  assert (mp = 0 ∨ mp = 1 ∨ mp = 2 ∨ mp = 3 ∨ mp = 4 ∨ mp = 5 ∨ mp = 6 ∨ mp = 7 ∨
          mp = 8 ∨ mp = 9 ∨ mp = 10 ∨ mp = 11) as Hc by lia.
  clearbody mp. destruct_or! Hc; subst mp;
    eval_Z_lits; simpl; try lia.
  destruct (isLeapYearIndex (yoe + era * 400 + 1)) eqn:HL; [lia|].
  split; [lia|]. split; [lia|].
  destruct (Z.eq_dec doy 365) as [E|E]; [|lia].
  exfalso. apply Hleap in E. apply (leap_yoe era yoe) in E; [congruence|lia].
Qed.

(** A date [validateDate] accepts, turned into its day and back. *)
Lemma civil_days y m d : validateDate y (m - 1) d = true →
  civil_from_days (days_from_civil y m d) = (y, m, d).
Proof.
  rewrite validateDate_spec. intros [Hm Hd]. unfold days_from_civil. cbv zeta.
  set (y' := if Z.leb m 2 then y - 1 else y).
  set (mp := if Z.ltb 2 m then m - 3 else m + 9).
  set (era := y' / 400). set (yoe := y' - era * 400).
  assert (0 <= yoe <= 399) as Hy by (subst yoe era; div_facts y' 400; lia).
  assert (y' = yoe + era * 400) as Hy' by (subst yoe; lia).
  clearbody yoe era.
  assert (0 <= mp ∧ (153 * mp + 2) / 5 + d - 1 < (153 * (mp + 1) + 2) / 5 ∧
          ((153 * mp + 2) / 5 + d - 1 <= 364 ∨ (mp = 11 ∧ d = 29 ∧ isLeapYearIndex y = true)))
    as (Hmp0 & Hlt & Hl).
  { subst mp. pose proof (month_cases m ltac:(lia)) as Hc. destruct_or! Hc; subst m;
      revert Hd; simpl; eval_Z_lits; simpl; intros Hd; try lia.
    destruct (isLeapYearIndex y); (split; [lia|split; [lia|]]);
      (destruct (Z.eq_dec d 29) as [->|]; [right; repeat split; first [done|exfalso; lia]|left; lia]). }
  rewrite civil_from_days_decomp; [|lia|div_facts (153 * mp + 2) 5; lia|].
  2:{ destruct Hl as [Hl|(Hmp11 & -> & HL)]; [by left|right]. rewrite Hmp11. eval_Z_lits.
      split; [lia|].
      assert (m <= 2) as Hm2 by (subst mp; destruct (Z.ltb_spec 2 m); lia).
      apply (leap_yoe era yoe); [lia|]. replace (yoe + era * 400 + 1) with y; [done|].
      subst y'. rewrite (proj2 (Z.leb_le m 2) Hm2) in Hy'. lia. }
  cbv zeta. rewrite mp_roundtrip by lia.
  replace ((153 * mp + 2) / 5 + d - 1 - (153 * mp + 2) / 5 + 1) with d by lia.
  subst mp y'. destruct (Z.leb_spec m 2), (Z.ltb_spec 2 m); try lia.
  - replace (Z.ltb (m + 9) 10) with false by (symmetry; apply Z.ltb_ge; lia).
    replace (m + 9 - 9) with m by lia. rewrite (proj2 (Z.leb_le m 2)) by lia.
    f_equal; f_equal; lia.
  - replace (Z.ltb (m - 3) 10) with true by (symmetry; apply Z.ltb_lt; lia).
    replace (m - 3 + 3) with m by lia. rewrite (proj2 (Z.leb_gt m 2)) by lia.
    f_equal; f_equal; lia.
Qed.

(** ** Digits *)

Lemma decimal_lt10 f k acc : 0 <= k < 10 → decimal (S f) k acc = String (digitChar k) acc.
Proof. intros Hk. cbn. rewrite Z.mod_small by lia. by destruct (Z.ltb_spec k 10); [|lia]. Qed.

Lemma decimal_ge10 f k acc : 10 <= k →
  decimal (S f) k acc = decimal f (k / 10) (String (digitChar (k mod 10)) acc).
Proof. intros Hk. cbn. by destruct (Z.ltb_spec k 10); [lia|]. Qed.

Lemma digitChar_0 : digitChar 0 = "0"%char.
Proof. reflexivity. Qed.

Lemma addLeadingZeros_2 k : 0 <= k <= 99 → addLeadingZeros k 2 = digits2 k.
Proof.
  intros Hk. unfold addLeadingZeros, digits2. rewrite Z.abs_eq by lia.
  destruct (Z.ltb_spec k 0); [lia|].
  destruct (Z.ltb_spec k 10).
  - rewrite decimal_lt10 by lia. rewrite Z.div_small, Z.mod_small by lia. done.
  - rewrite decimal_ge10, decimal_lt10 by (div_facts k 10; lia). done.
Qed.

Lemma addLeadingZeros_4 k : 0 <= k <= 9999 → addLeadingZeros k 4 = digits4 k.
Proof.
  intros Hk. unfold addLeadingZeros, digits4. rewrite Z.abs_eq by lia.
  destruct (Z.ltb_spec k 0); [lia|].
  replace (k / 100) with (k / 10 / 10) by (rewrite Z.div_div; [reflexivity|lia..]).
  replace (k / 1000) with (k / 10 / 10 / 10) by (rewrite !Z.div_div; [reflexivity|lia..]).
  div_facts k 10. div_facts (k / 10) 10. div_facts (k / 10 / 10) 10.
  destruct (Z.ltb_spec k 10); [|destruct (Z.ltb_spec k 100); [|destruct (Z.ltb_spec k 1000)]].
  - rewrite decimal_lt10 by lia.
    rewrite (Z.div_small k 10), (Z.mod_small k 10) by lia. done.
  - rewrite decimal_ge10, decimal_lt10 by lia.
    rewrite (Z.div_small (k / 10) 10), (Z.mod_small (k / 10) 10) by lia. done.
  - rewrite !decimal_ge10, decimal_lt10 by lia.
    rewrite (Z.div_small (k / 10 / 10) 10), (Z.mod_small (k / 10 / 10) 10) by lia. done.
  - rewrite !decimal_ge10, decimal_lt10 by lia. done.
Qed.

Lemma digit_cases j : 0 <= j <= 9 →
  j = 0 ∨ j = 1 ∨ j = 2 ∨ j = 3 ∨ j = 4 ∨ j = 5 ∨ j = 6 ∨ j = 7 ∨ j = 8 ∨ j = 9.
Proof. lia. Qed.

Lemma digitValue_digitChar j : 0 <= j <= 9 → digitValue (digitChar j) = Some j.
Proof. intros Hj. pose proof (digit_cases j Hj) as Hc. destruct_or! Hc; by subst j. Qed.

Lemma digitChar_inj i j : 0 <= i <= 9 → 0 <= j <= 9 → digitChar i = digitChar j → i = j.
Proof.
  intros Hi Hj E. apply (f_equal digitValue) in E.
  rewrite !digitValue_digitChar in E by lia. congruence.
Qed.

(** Quotients and remainders of a number written with its digits. *)
Ltac digit_arith := Z.div_mod_to_equations; lia.

Lemma daysInMonth_le y m : daysInMonth y m <= 31.
Proof. unfold daysInMonth. repeat case_match; lia. Qed.

Lemma civil_ranges n y m d : civil_from_days n = (y, m, d) → 1 <= m <= 12 ∧ 1 <= d <= 31.
Proof.
  intros H. apply civil_valid, validateDate_spec in H. pose proof (daysInMonth_le y (m - 1)). lia.
Qed.

Lemma append_same_length s1 s2 t1 t2 :
  String.length s1 = String.length s2 → s1 +:+ t1 = s2 +:+ t2 → s1 = s2 ∧ t1 = t2.
Proof.
  revert s2. induction s1 as [|c s1 IH]; intros [|c' s2]; cbn; try done.
  intros [= Hl] [= -> E]. destruct (IH s2 Hl E) as [-> ->]. done.
Qed.

Lemma String_tail_inj c s t : String c s = String c t → s = t.
Proof. by intros [= ->]. Qed.

Lemma monthsAbbreviated_lookup m : 1 <= m <= 12 →
  ∃ a, monthsAbbreviated !! Z.to_nat (m - 1) = Some a ∧ String.length a = 3%nat.
Proof.
  intros Hm. pose proof (month_cases m Hm) as Hc. destruct_or! Hc; subst m; by eexists.
Qed.

Lemma monthsAbbreviated_NoDup : NoDup monthsAbbreviated.
Proof. apply (bool_decide_unpack _). by vm_compute. Qed.

Lemma format_long n y m d : civil_from_days n = (y, m, d) → 1 <= y <= 9999 →
  format n fmt_MMM_dd_yyyy =
  default "" (monthsAbbreviated !! Z.to_nat (m - 1)) +:+ String " " (digits2 d +:+
    String "," (String " " (digits4 y))).
Proof.
  intros H Hy. pose proof (civil_ranges n y m d H).
  unfold format, fmt_MMM_dd_yyyy, formatToken. cbn [foldr]. rewrite H.
  destruct (Z.ltb_spec 0 y); [|lia].
  rewrite addLeadingZeros_4, addLeadingZeros_2 by lia. unfold digits2, digits4.
  by cbv [String.append].
Qed.

Lemma digits2_inj a b : 0 <= a <= 99 → 0 <= b <= 99 → digits2 a = digits2 b → a = b.
Proof.
  unfold digits2. intros Ha Hb [= E1 E2].
  apply digitChar_inj in E1, E2; digit_arith.
Qed.

Lemma digits4_inj a b : 0 <= a <= 9999 → 0 <= b <= 9999 → digits4 a = digits4 b → a = b.
Proof.
  unfold digits4. intros Ha Hb [= E1 E2 E3 E4].
  apply digitChar_inj in E1, E2, E3, E4; digit_arith.
Qed.

(** The long date ["MMM dd, yyyy"] identifies the day among the years
    1-9999: two days printed alike are the same day. *)
Lemma format_long_injective n1 n2 y1 m1 d1 y2 m2 d2 :
  civil_from_days n1 = (y1, m1, d1) → civil_from_days n2 = (y2, m2, d2) →
  1 <= y1 <= 9999 → 1 <= y2 <= 9999 →
  format n1 fmt_MMM_dd_yyyy = format n2 fmt_MMM_dd_yyyy → n1 = n2.
Proof.
  intros H1 H2 Hy1 Hy2. rewrite (format_long n1 y1 m1 d1 H1 Hy1), (format_long n2 y2 m2 d2 H2 Hy2).
  pose proof (civil_ranges n1 y1 m1 d1 H1). pose proof (civil_ranges n2 y2 m2 d2 H2).
  destruct (monthsAbbreviated_lookup m1) as (a1 & Ha1 & Hl1); [lia|].
  destruct (monthsAbbreviated_lookup m2) as (a2 & Ha2 & Hl2); [lia|].
  rewrite Ha1, Ha2. cbn [default]. intros E.
  apply (append_same_length a1 a2 _ _ ltac:(lia)) in E as [-> E]. apply String_tail_inj in E.
  apply (append_same_length (digits2 d1) (digits2 d2) _ _ eq_refl) in E as [Ed E].
  apply String_tail_inj, String_tail_inj in E as Ey.
  apply digits2_inj in Ed; [|lia..]. apply digits4_inj in Ey; [|lia..].
  assert (m1 = m2) as <-.
  { assert (Z.to_nat (m1 - 1) = Z.to_nat (m2 - 1)) by
      (by eapply NoDup_lookup; [apply monthsAbbreviated_NoDup|..]). lia. }
  subst. rewrite <- (days_civil n1 y2 m1 d2 H1). by apply days_civil.
Qed.

(** The days of January and February follow January 1 without a gap:
    both months count from the March-based year [y - 1]. *)
Lemma days_from_civil_jan_feb y m d : 1 <= m <= 2 →
  days_from_civil y m d = days_from_civil y 1 1 + 31 * (m - 1) + d - 1.
Proof.
  intros Hm. assert (m = 1 ∨ m = 2) as [-> | ->] by lia;
    unfold days_from_civil; cbv [Z.leb Z.ltb Z.compare Pos.compare Pos.compare_cont]; eval_Z_lits; lia.
Qed.

Lemma daysInMonth_february y : daysInMonth y 1 <= 29.
Proof. unfold daysInMonth. case_match; lia. Qed.
