(* ===== verification/Items.v ===== *)
(** * Items and the overlap rule

    The [Item] record of the timeline data ([src/data/timelineItems], read
    by timeline.jsx line 1 as [items]): an id, a name, a start and an end
    date and an optional description.  Dates are day numbers (see the
    header of [Prelude]).

    The spec's overlap rule (section 4.1): an item may follow another one
    in a lane only if it starts strictly after the other one ends
    ([precedes], written [a ≺ b]); touching intervals overlap.  A day [t]
    is covered by an item when [start <= t <= end] ([covers]). *)

From S2P Require Import Prelude.
From stdpp Require Export strings.

Definition date := Z.

Record Item := mkItem {
  id : Z;
  name : string;
  start : date;
  end_ : date;
  description : option string
}.

#[export] Instance Item_eq_dec : EqDecision Item.
Proof. solve_decision. Defined.

(** [a ≺ b]: [b] may be placed after [a] in a lane ([b.start > a.end]). *)
Definition precedes (a b : Item) : Prop := (end_ a < start b)%Z.
Notation "a ≺ b" := (precedes a b) (at level 70) : timeline_scope.

#[export] Instance precedes_dec a b : Decision (a ≺ b).
Proof. unfold precedes. apply _. Defined.

(** The day [t] lies in the inclusive interval of [x]. *)
Definition covers (t : date) (x : Item) : Prop := (start x <= t <= end_ x)%Z.

#[export] Instance covers_dec t x : Decision (covers t x).
Proof. unfold covers. apply _. Defined.

(** The precondition of the spec: [start <= end]. *)
Definition valid (x : Item) : Prop := (start x <= end_ x)%Z.

#[export] Instance valid_dec x : Decision (valid x).
Proof. unfold valid. apply _. Defined.

(** ** Texts the views derive from an item *)

(** [n !== 1 ? "s" : ""], the plural suffix of the panel's and the
    tooltips' counts. *)
Definition pluralSuffix (n : Z) : string := if Z.eqb n 1 then "" else "s".

(** [{item.description && ...}]: the description is shown when it is a
    non-empty string (the empty string is falsy). *)
Definition shownDescription (d : option string) : option string :=
  match d with
  | Some s => if String.eqb s "" then None else Some s
  | None => None
  end.

(** ** The items of the spec's scenarios (section 8)

    Day numbers count days from 1970-01-01: 19723 is 2024-01-01. *)
Definition itemA : Item := mkItem 1%Z "A" 19723%Z 19725%Z None.   (* 2024-01-01 .. 01-03 *)
Definition itemB : Item := mkItem 2%Z "B" 19724%Z 19726%Z None.   (* 2024-01-02 .. 01-04 *)
Definition itemC : Item := mkItem 3%Z "C" 19727%Z 19728%Z None.   (* 2024-01-05 .. 01-06 *)
Definition touchA : Item := mkItem 4%Z "A" 19723%Z 19724%Z None.  (* 2024-01-01 .. 01-02 *)
Definition touchB : Item := mkItem 5%Z "B" 19724%Z 19725%Z None.  (* 2024-01-02 .. 01-03 *)
Definition sameX : Item := mkItem 6%Z "X" 19723%Z 19725%Z None.
Definition sameY : Item := mkItem 7%Z "Y" 19724%Z 19726%Z None.
Definition sameZ : Item := mkItem 8%Z "Z" 19725%Z 19725%Z None.
Definition badItem : Item := mkItem 9%Z "bad" 19725%Z 19723%Z None.

(** ** Facts of the overlap rule *)

Lemma precedes_trans a b c : valid b → a ≺ b → b ≺ c → a ≺ c.
Proof. unfold valid, precedes. lia. Qed.

Lemma precedes_start_lt a b : valid a → a ≺ b → (start a < start b)%Z.
Proof. unfold valid, precedes. lia. Qed.

(** Two items one of which precedes the other never cover the same day. *)
Lemma precedes_covers_excl t a b : a ≺ b → covers t a → ¬ covers t b.
Proof. unfold precedes, covers. lia. Qed.

Lemma covers_start x : valid x → covers (start x) x.
Proof. unfold valid, covers. lia. Qed.

(** A chain of valid items, each preceding the next, has every item
    preceding every later one. *)
Lemma chain_head_precedes (x : Item) (l : list Item) :
  Forall valid l → Sorted precedes (x :: l) → Forall (precedes x) l.
Proof.
  revert x. induction l as [|y l IH]; intros x Hv Hs; [constructor|].
  apply Sorted_inv in Hs as [Hs Hhd]. apply HdRel_inv in Hhd.
  apply Forall_cons in Hv as [Hy Hv].
  constructor; [done|].
  eapply Forall_impl; [exact (IH y Hv Hs)|]. eauto using precedes_trans.
Qed.

Lemma chain_strongly_sorted (l : list Item) :
  Forall valid l → Sorted precedes l → StronglySorted precedes l.
Proof.
  induction l as [|x l IH]; intros Hv Hs; constructor.
  - apply IH; [by apply Forall_cons in Hv as [_ ?]|by apply Sorted_inv in Hs as [? _]].
  - apply chain_head_precedes; [by apply Forall_cons in Hv as [_ ?]|done].
Qed.

(** In a lane where every item precedes every later one, at most one item
    covers a given day. *)
Lemma lane_covers_at_most_one (t : date) (l : list Item) :
  StronglySorted precedes l → count (covers t) l ≤ 1.
Proof.
  induction 1 as [|x l _ IH Hx]; [rewrite count_nil; lia|].
  rewrite count_cons. case_decide as Hc; [|lia].
  rewrite count_none; [lia|].
  eapply Forall_impl; [exact Hx|]. intros y Hy. eapply precedes_covers_excl; eauto.
Qed.

#[export] Hint Resolve precedes_trans covers_start lane_covers_at_most_one : timeline.
