(* ===== verification/SortByStart.v ===== *)
(** * The sort step of the lane assigner

    Step 1 of the spec's algorithm (section 4.1): a working copy of the
    items sorted ascending by [start], ties kept in input order.  The
    assigner calls [Array.prototype.sort] with the comparator
    [(a, b) => a.start - b.start], which ECMAScript requires to be stable.
    [sort_by_start] is insertion sort, inserting each item before the first
    item of the sorted rest whose start is not smaller.

    Theorems: the result is a permutation of the input, sorted by start,
    and stable (for each start date the items with that date keep their
    order); any two lists sorted by start with the same items per start
    date are equal ([stable_sorted_unique]), so every stable sort with this
    comparator, the engine's included, returns [sort_by_start]. *)

From S2P Require Import Prelude Items.

(** [a] sorts no later than [b]. *)
Definition start_le (a b : Item) : Prop := (start a <= start b)%Z.

Fixpoint insert_by_start (x : Item) (l : list Item) : list Item :=
  match l with
  | [] => [x]
  | y :: l' => if Z.leb (start x) (start y) then x :: l else y :: insert_by_start x l'
  end.

Fixpoint sort_by_start (l : list Item) : list Item :=
  match l with
  | [] => []
  | x :: l' => insert_by_start x (sort_by_start l')
  end.

(** The items of a list whose start date is [k], in order. *)
Definition with_start (k : date) (l : list Item) : list Item :=
  filter (λ x, start x = k) l.

(** ** Insertion *)

Lemma insert_by_start_perm x l : insert_by_start x l ≡ₚ x :: l.
Proof.
  induction l as [|y l IH]; simpl; [done|]. case_Z; [done|].
  rewrite IH. apply Permutation_swap.
Qed.

Lemma insert_by_start_sorted x l :
  StronglySorted start_le l → StronglySorted start_le (insert_by_start x l).
Proof.
  induction 1 as [|y l Hs IH Hy]; simpl.
  - repeat constructor.
  - unfold start_le in *. case_Z.
    + constructor; [by constructor|]. constructor; [lia|].
      eapply Forall_impl; [exact Hy|]. simpl. lia.
    + constructor; [done|]. rewrite insert_by_start_perm.
      constructor; [lia|done].
Qed.

(** Inserting [x] puts it in front of every item with its start date. *)
Lemma insert_by_start_with_start x l k :
  with_start k (insert_by_start x l) =
  if decide (start x = k) then x :: with_start k l else with_start k l.
Proof.
  unfold with_start. induction l as [|y l IH]; simpl.
  - rewrite filter_cons, filter_nil. done.
  - case_Z.
    + rewrite !filter_cons. done.
    + rewrite !filter_cons, IH. repeat case_decide; subst; try done; lia.
Qed.

(** ** The sort *)

Lemma sort_by_start_perm l : sort_by_start l ≡ₚ l.
Proof. induction l as [|x l IH]; simpl; [done|]. by rewrite insert_by_start_perm, IH. Qed.

Lemma sort_by_start_sorted l : StronglySorted start_le (sort_by_start l).
Proof. induction l; simpl; [constructor|]. by apply insert_by_start_sorted. Qed.

Lemma sort_by_start_stable l k : with_start k (sort_by_start l) = with_start k l.
Proof.
  induction l as [|x l IH]; simpl; [done|].
  rewrite insert_by_start_with_start, IH. unfold with_start. rewrite filter_cons.
  repeat case_decide; done.
Qed.

(** ** Uniqueness of the stable sort

    A list sorted by start is determined by its subsequences of equal start
    date. *)

Lemma with_start_elem_of k x l : x ∈ with_start k l ↔ start x = k ∧ x ∈ l.
Proof. unfold with_start. by rewrite list_elem_of_filter. Qed.

Lemma stable_sorted_unique l1 l2 :
  StronglySorted start_le l1 → StronglySorted start_le l2 →
  (∀ k, with_start k l1 = with_start k l2) → l1 = l2.
Proof.
  intros H1. revert l2. induction H1 as [|x l1 H1 IH Hx]; intros l2 H2 Hk.
  - destruct l2 as [|y l2]; [done|]. exfalso.
    specialize (Hk (start y)). unfold with_start in Hk.
    rewrite filter_cons, decide_True in Hk by done. done.
  - assert (x ∈ l2) as Hx2.
    { apply (with_start_elem_of (start x)). rewrite <- Hk.
      apply with_start_elem_of. split; [done|left]. }
    destruct H2 as [|y l2 H2 Hy]; [by apply elem_of_nil in Hx2|].
    assert (y ∈ x :: l1) as Hy1.
    { apply (with_start_elem_of (start y)). rewrite Hk.
      apply with_start_elem_of. split; [done|left]. }
    assert (start x = start y) as Exy.
    { apply elem_of_cons in Hx2 as [->|Hx2]; [done|].
      apply elem_of_cons in Hy1 as [->|Hy1]; [done|].
      eapply Forall_forall in Hx2; [|exact Hy]. eapply Forall_forall in Hy1; [|exact Hx].
      unfold start_le in *. lia. }
    pose proof (Hk (start x)) as Hkx. unfold with_start in Hkx.
    rewrite !filter_cons, !decide_True in Hkx by done.
    injection Hkx as <- Hkx. f_equal. apply IH; [done|].
    intros k. specialize (Hk k). unfold with_start in *.
    rewrite !filter_cons in Hk. case_decide; [by injection Hk|done].
Qed.
