(* ===== verification/LaneAssigner.v ===== *)
(** * The lane assigner [assignLanes]

    Spec section 4.1 (the code, [src/utils/assign-lanes], is imported by
    timeline.jsx line 4 and is not under [src/src/]; it is modelled from the
    spec).  The items are validated ([ValidationError] when an item starts
    after it ends), sorted by start ([SortByStart]) and placed one by one:
    each goes into the first lane, in creation order, whose last item ends
    strictly before it starts, or into a new lane at the end.

    Two versions of the placement step:
    - [place_ref x lanes] scans the lanes themselves and reads the end of
      each lane's last item; it is the reference;
    - [place st x] is the implementation of the spec's design note
      (section 9): a [LaneState] keeps, beside the lanes, the indexed array
      [lastEnds] of the end date of each lane's last item; the first
      compatible lane is found by [list_find] on that array, the item is
      pushed onto it ([alter]) and its entry overwritten ([<[i:=_]>]).
    [place_refines] shows they compute the same lanes as long as [lastEnds]
    is in step with the lanes ([ends_inv]), which [place] preserves.

    Theorems: first-fit choice ([place_ref_cases]), completeness
    ([assignLanes_complete]), non-overlap within a lane
    ([assignLanes_no_overlap]), the error case ([assignLanes_error_iff]),
    and the contract [LaneContract] the layout builder relies on. *)

From S2P Require Import Prelude Items SortByStart.

Abbreviation Lane := (list Item) (only parsing).

(** ** The reference placement *)

(** [x] may be appended to [lane]: the lane's last item ends before [x]
    starts ([lane[lane.length - 1].end < item.start]). *)
Definition fits (x : Item) (lane : Lane) : bool :=
  match last lane with
  | Some y => bool_decide (y ≺ x)
  | None => true
  end.

Fixpoint place_ref (x : Item) (lanes : list Lane) : list Lane :=
  match lanes with
  | [] => [[x]]
  | l :: ls => if fits x l then (l ++ [x]) :: ls else l :: place_ref x ls
  end.

Definition assign_ref (sorted : list Item) : list Lane :=
  foldl (λ lanes x, place_ref x lanes) [] sorted.

(** ** The implementation with the array of last end dates *)

Record LaneState := mkLaneState {
  lanes : list Lane;
  lastEnds : list date
}.

Definition lane_state_init : LaneState := mkLaneState [] [].

Definition place (st : LaneState) (x : Item) : LaneState :=
  match list_find (λ e, (e < start x)%Z) (lastEnds st) with
  | Some (i, _) =>
      mkLaneState (alter (λ l, l ++ [x]) i (lanes st)) (<[i := end_ x]> (lastEnds st))
  | None =>
      mkLaneState (lanes st ++ [[x]]) (lastEnds st ++ [end_ x])
  end.

Definition assign_sorted (sorted : list Item) : list Lane :=
  lanes (foldl place lane_state_init sorted).

Definition validate (items : list Item) : result unit :=
  if decide (Forall valid items) then Ok () else Err ValidationError.

Definition assignLanes (items : list Item) : result (list Lane) :=
  validate items ?>>= λ _, Ok (assign_sorted (sort_by_start items)).

(** [lastEnds] holds the end date of the last item of each lane. *)
Definition ends_inv (st : LaneState) : Prop :=
  Forall2 (λ l e, end_ <$> last l = Some e) (lanes st) (lastEnds st).

(** The invariant of a lane: never empty, each item preceding the next. *)
Definition lane_ok (l : Lane) : Prop := l ≠ [] ∧ Sorted precedes l.

(** ** The contract of the lane assigner

    What the layout builder of timeline.jsx relies on: the assigner fails
    exactly on invalid input, and otherwise returns a partition of the
    items into nonempty lanes inside which every item precedes every later
    one. *)
Class LaneContract (assign : list Item → result (list Lane)) : Prop := {
  contract_ok_iff items : (∃ L, assign items = Ok L) ↔ Forall valid items;
  contract_perm items L : assign items = Ok L → concat L ≡ₚ items;
  contract_lanes items L :
    assign items = Ok L → Forall (λ l, l ≠ [] ∧ StronglySorted precedes l) L
}.

(** ** Refinement of [place_ref] by [place] *)

Lemma fits_last x l e : end_ <$> last l = Some e → fits x l = bool_decide (e < start x)%Z.
Proof.
  unfold fits. destruct (last l) as [y|]; [|done]. intros [= <-]. done.
Qed.

Lemma place_step_refines x (L : list Lane) (E : list date) :
  Forall2 (λ l e, end_ <$> last l = Some e) L E →
  lanes (place (mkLaneState L E) x) = place_ref x L ∧ ends_inv (place (mkLaneState L E) x).
Proof.
  unfold place, ends_inv; simpl.
  induction 1 as [|l e L E Hle HLE IH]; simpl.
  - split; [done|]. repeat constructor.
  - rewrite (fits_last x l e Hle). case_bool_decide as Hlt.
    + rewrite decide_True by done. simpl. split; [done|]. constructor; [|done].
      by rewrite last_snoc.
    + rewrite decide_False by done. simpl.
      destruct (list_find (λ e, (e < start x)%Z) E) as [[i e']|] eqn:Hf; simpl in *;
        destruct IH as [IH1 IH2]; split; try (by f_equal); by constructor.
Qed.

Lemma ends_inv_init : ends_inv lane_state_init.
Proof. constructor. Qed.

Lemma place_preserves_ends_inv st x : ends_inv st → ends_inv (place st x).
Proof. destruct st as [L E]. intros H. apply (place_step_refines x L E H). Qed.

Lemma place_refines st x : ends_inv st → lanes (place st x) = place_ref x (lanes st).
Proof. destruct st as [L E]. intros H. apply (place_step_refines x L E H). Qed.

Lemma assign_fold_refines st l :
  ends_inv st → lanes (foldl place st l) = foldl (λ L x, place_ref x L) (lanes st) l.
Proof.
  revert st. induction l as [|x l IH]; intros st H; simpl; [done|].
  rewrite IH by (by apply place_preserves_ends_inv). by rewrite place_refines.
Qed.

(** ** First fit *)

(** [place_ref] appends [x] to the first lane that fits it, all earlier
    lanes being incompatible, or opens a new last lane when none fits. *)
Lemma place_ref_cases x L :
  (Forall (λ l, fits x l = false) L ∧ place_ref x L = L ++ [[x]]) ∨
  (∃ L1 l L2, L = L1 ++ l :: L2 ∧ Forall (λ l, fits x l = false) L1 ∧
              fits x l = true ∧ place_ref x L = L1 ++ (l ++ [x]) :: L2).
Proof.
  induction L as [|l L IH]; simpl.
  - left. done.
  - destruct (fits x l) eqn:Hf.
    + right. exists [], l, L. done.
    + destruct IH as [[HF ->]|(L1 & l' & L2 & -> & HF & Hl' & ->)].
      * left. split; [by constructor|done].
      * right. exists (l :: L1), l', L2. split_and!; [done|by constructor|done|done].
Qed.


Lemma sorted_snoc x l : Sorted precedes l → fits x l = true → Sorted precedes (l ++ [x]).
Proof.
  induction l as [|y l IH]; intros Hs Hf; simpl; [repeat constructor|].
  apply Sorted_inv in Hs as [Hs Hhd]. destruct l as [|z l].
  - unfold fits in Hf. simpl in Hf. apply bool_decide_eq_true in Hf.
    repeat constructor. done.
  - constructor; [apply IH; [done|]|].
    + exact Hf.
    + apply HdRel_inv in Hhd. by constructor.
Qed.

Lemma fits_false_last x l : fits x l = false → ∃ y, last l = Some y ∧ (start x <= end_ y)%Z.
Proof.
  unfold fits. destruct (last l) as [y|]; [|done].
  intros Hf. apply bool_decide_eq_false in Hf. exists y. unfold precedes in Hf. split; [done|lia].
Qed.

Lemma place_ref_perm x L : concat (place_ref x L) ≡ₚ concat L ++ [x].
Proof.
  destruct (place_ref_cases x L) as [[_ ->]|(L1 & l & L2 & -> & _ & _ & ->)].
  - by rewrite concat_app.
  - rewrite !concat_app, !concat_cons, <- !(assoc_L (++)). solve_Permutation.
Qed.

Lemma place_ref_ok x L : Forall lane_ok L → Forall lane_ok (place_ref x L).
Proof.
  destruct (place_ref_cases x L) as [[_ ->]|(L1 & l & L2 & -> & _ & Hfit & ->)];
    intros HL.
  - apply Forall_app. split; [done|]. repeat constructor. done.
  - apply Forall_app in HL as [HL1 HL2]. apply Forall_cons in HL2 as [[_ Hl] HL2].
    apply Forall_app. split; [done|]. constructor; [|done].
    split; [by destruct l|]. by apply sorted_snoc.
Qed.

Lemma assign_fold_perm L l :
  concat (foldl (λ L x, place_ref x L) L l) ≡ₚ concat L ++ l.
Proof.
  revert L. induction l as [|x l IH]; intros L; simpl; [by rewrite app_nil_r|].
  rewrite IH, place_ref_perm, <- (assoc_L (++)). done.
Qed.

Lemma assign_fold_ok L l :
  Forall lane_ok L → Forall lane_ok (foldl (λ L x, place_ref x L) L l).
Proof.
  revert L. induction l as [|x l IH]; intros L HL; simpl; [done|].
  apply IH, place_ref_ok, HL.
Qed.

(** ** Invariants of the fold over a sorted input

    Any property of the processed prefix and the lanes that one placement
    step preserves, under the facts that hold at every step of a run on a
    valid sorted input, holds at the end. *)
Section FoldInvariant.
Variable Inv : list Item → list Lane → Prop.
Hypothesis Inv_step : ∀ P L x,
  concat L ≡ₚ P → Forall lane_ok L → Forall (λ y, start y <= start x)%Z P → valid x →
  Inv P L → Inv (P ++ [x]) (place_ref x L).

Lemma assign_fold_inv L P l :
  concat L ≡ₚ P → Forall lane_ok L → Forall valid l → StronglySorted start_le l →
  (∀ y x, y ∈ P → x ∈ l → start_le y x) → Inv P L →
  Inv (P ++ l) (foldl (λ L x, place_ref x L) L l).
Proof.
  revert L P. induction l as [|x l IH]; intros L P Hp HL Hv Hs HPl HI; simpl.
  - by rewrite app_nil_r.
  - apply Forall_cons in Hv as [Hx Hv]. apply StronglySorted_inv in Hs as [Hs Hxl].
    replace (P ++ x :: l) with ((P ++ [x]) ++ l) by by rewrite <- (assoc_L (++)).
    apply IH; try done.
    + by rewrite place_ref_perm, Hp.
    + by apply place_ref_ok.
    + intros y z [Hy|Hy]%elem_of_app Hz.
      * apply HPl; [done|by right].
      * apply list_elem_of_singleton in Hy as ->. by eapply Forall_forall in Hxl.
    + apply Inv_step; try done.
      apply Forall_forall. intros y Hy. apply (HPl y x Hy). left.
Qed.

Lemma assign_ref_inv l :
  Forall valid l → StronglySorted start_le l → Inv [] [] → Inv l (assign_ref l).
Proof.
  intros Hv Hs H0. unfold assign_ref.
  apply (assign_fold_inv [] [] l); try done.
  intros y x Hy. by apply elem_of_nil in Hy.
Qed.
End FoldInvariant.

(** ** The whole assigner *)

Lemma assign_sorted_eq_ref l : assign_sorted l = assign_ref l.
Proof. unfold assign_sorted, assign_ref. apply (assign_fold_refines lane_state_init l ends_inv_init). Qed.

Lemma assignLanes_Ok items L :
  assignLanes items = Ok L ↔ Forall valid items ∧ L = assign_ref (sort_by_start items).
Proof.
  unfold assignLanes, validate. rewrite assign_sorted_eq_ref.
  case_decide as Hv; simpl; split.
  - by intros [= <-].
  - by intros [_ ->].
  - done.
  - by intros [? _].
Qed.

Lemma assign_ref_perm l : concat (assign_ref l) ≡ₚ l.
Proof. unfold assign_ref. by rewrite assign_fold_perm. Qed.

Lemma assign_ref_ok l : Forall lane_ok (assign_ref l).
Proof. unfold assign_ref. apply assign_fold_ok. constructor. Qed.

Lemma lanes_strongly_sorted items L :
  Forall valid items → concat L ≡ₚ items → Forall lane_ok L →
  Forall (StronglySorted precedes) L.
Proof.
  intros Hv Hp HL. apply Forall_forall. intros l Hl.
  apply chain_strongly_sorted; [|by eapply Forall_forall in HL as [_ ?]].
  apply Forall_forall. intros y Hy. eapply Forall_forall; [exact Hv|].
  rewrite <- Hp. apply list_elem_of_In, in_concat. exists l.
  split; by apply list_elem_of_In.
Qed.

(** What a successful run returns: valid input, lanes that partition it,
    each lane a nonempty chain. *)
Lemma assignLanes_Ok_lanes items L :
  assignLanes items = Ok L →
  Forall valid items ∧ concat L ≡ₚ items ∧ Forall lane_ok L.
Proof.
  intros [Hv ->]%assignLanes_Ok. split_and!; [done| |apply assign_ref_ok].
  by rewrite assign_ref_perm, sort_by_start_perm.
Qed.

Lemma lane_ok_strong items L :
  Forall valid items → concat L ≡ₚ items → Forall lane_ok L →
  Forall (λ l, l ≠ [] ∧ StronglySorted precedes l) L.
Proof.
  intros Hv Hp HL. pose proof (lanes_strongly_sorted items L Hv Hp HL) as HS.
  apply Forall_forall. intros l Hl. split.
  - by eapply Forall_forall in HL as [? _].
  - by eapply Forall_forall in HS.
Qed.

Lemma validate_perm l1 l2 : l1 ≡ₚ l2 → validate l1 = validate l2.
Proof.
  intros Hp. unfold validate. do 2 case_decide; try done; exfalso.
  - match goal with H : ¬ Forall valid l2 |- _ => apply H end. by rewrite <- Hp.
  - match goal with H : ¬ Forall valid l1 |- _ => apply H end. by rewrite Hp.
Qed.


#[export] Instance assignLanes_contract : LaneContract assignLanes.
Proof.
  split.
  - intros items. split.
    + intros [L (? & _ & _)%assignLanes_Ok_lanes]. done.
    + intros Hv. exists (assign_ref (sort_by_start items)). by apply assignLanes_Ok.
  - intros items L (_ & ? & _)%assignLanes_Ok_lanes. done.
  - intros items L (? & ? & ?)%assignLanes_Ok_lanes. by eapply lane_ok_strong.
Qed.

(** ** Properties of [assignLanes] *)

(** Completeness: on success every input item appears in exactly one
    lane, exactly once: the concatenated lanes are a permutation of the
    input. *)
Theorem assignLanes_complete items lanes :
  assignLanes items = Ok lanes → concat lanes ≡ₚ items.
Proof. by intros (_ & ? & _)%assignLanes_Ok_lanes. Qed.

(** Non-overlap: every lane is nonempty and, for any two items of a
    lane, the later one starts strictly after the earlier one ends
    (touching intervals never share a lane). *)
Theorem assignLanes_no_overlap items lanes :
  assignLanes items = Ok lanes →
  Forall (λ lane, lane ≠ [] ∧ StronglySorted precedes lane) lanes.
Proof. intros (? & ? & ?)%assignLanes_Ok_lanes. by eapply lane_ok_strong. Qed.

Lemma strongly_sorted_weaken (R R' : relation Item) (l : list Item) :
  (∀ a b, valid a → R a b → R' a b) → Forall valid l →
  StronglySorted R l → StronglySorted R' l.
Proof.
  intros HRR' Hv Hs. induction Hs as [|x l _ IH Hx]; constructor.
  - apply IH. by apply Forall_cons in Hv as [_ ?].
  - apply Forall_cons in Hv as [Hxv _].
    eapply Forall_impl; [exact Hx|]. intros y. by apply HRR'.
Qed.

(** Order inside a lane: the items of each lane are in strictly
    ascending order of their start dates. *)
Theorem assignLanes_lane_order items lanes :
  assignLanes items = Ok lanes →
  Forall (StronglySorted (λ a b, (start a < start b)%Z)) lanes.
Proof.
  intros (Hv & Hp & HL)%assignLanes_Ok_lanes.
  pose proof (lanes_strongly_sorted items lanes Hv Hp HL) as HS.
  apply Forall_forall. intros l Hl. eapply strongly_sorted_weaken.
  - intros a b. apply precedes_start_lt.
  - apply Forall_forall. intros y Hy. eapply Forall_forall; [exact Hv|].
    rewrite <- Hp. apply list_elem_of_In, in_concat. exists l. by rewrite <- !list_elem_of_In.
  - by eapply Forall_forall in HS.
Qed.

(** Failure: [assignLanes] fails, with [ValidationError], exactly
    when some item starts after it ends; it never returns a partial
    result. *)
Theorem assignLanes_error_iff items :
  assignLanes items = Err ValidationError ↔ ∃ x, x ∈ items ∧ (end_ x < start x)%Z.
Proof.
  unfold assignLanes, validate. case_decide as Hv; simpl; split; try done.
  - intros (x & Hx & Hlt). eapply Forall_forall in Hv; [|exact Hx]. unfold valid in Hv. lia.
  - intros _. apply not_Forall_Exists in Hv; [|apply _].
    apply Exists_exists in Hv as (x & Hx & Hnv). exists x. unfold compose, valid in Hnv. split; [done|lia].
Qed.

(** Refinement: the implementation that keeps the array of last end
    dates computes, on every input, the same result as the reference
    algorithm that reads each lane's last item, and the array stays equal
    to the end dates of the lanes' last items. *)
Theorem assignLanes_refines_reference items :
  assignLanes items = (validate items ?>>= λ _, Ok (assign_ref (sort_by_start items))) ∧
  ends_inv (foldl place lane_state_init (sort_by_start items)).
Proof.
  split.
  - unfold assignLanes. by rewrite assign_sorted_eq_ref.
  - generalize (sort_by_start items) lane_state_init ends_inv_init.
    intros l. induction l as [|x l IH]; intros st Hst; simpl; [done|].
    by apply IH, place_preserves_ends_inv.
Qed.

(** First fit: one step of the implementation appends the item to the
    first lane, in creation order, whose last item ends before the item
    starts, every earlier lane being incompatible; when no lane qualifies
    it opens a new lane after all the others. *)
Theorem place_first_fit st x :
  ends_inv st →
  (Forall (λ l, fits x l = false) (lanes st) ∧ lanes (place st x) = lanes st ++ [[x]]) ∨
  (∃ L1 l L2, lanes st = L1 ++ l :: L2 ∧ Forall (λ l, fits x l = false) L1 ∧
              fits x l = true ∧ lanes (place st x) = L1 ++ (l ++ [x]) :: L2).
Proof. intros Hinv. rewrite place_refines by done. apply place_ref_cases. Qed.

(** The lanes depend on the input only through its stable order: two
    inputs that list the items of each start date in the same order get
    the same result. *)
Theorem assignLanes_order_independent l1 l2 :
  (∀ k, with_start k l1 = with_start k l2) → assignLanes l1 = assignLanes l2.
Proof.
  intros Hk.
  assert (sort_by_start l1 = sort_by_start l2) as Hs.
  { apply stable_sorted_unique; [apply sort_by_start_sorted..|].
    intros k. by rewrite !sort_by_start_stable. }
  assert (l1 ≡ₚ l2) as Hp.
  { by rewrite <- (sort_by_start_perm l1), Hs, sort_by_start_perm. }
  unfold assignLanes. by rewrite (validate_perm l1 l2 Hp), Hs.
Qed.


(** The scenarios of the spec: the empty input gives no lanes;
    overlapping [A] and [B] go to two lanes and [C] joins [A]; touching
    items go to different lanes; three items covering one day need three
    lanes; a single item gives one lane; an item ending before it starts
    is a [ValidationError]. *)
Example assignLanes_scenarios :
  assignLanes [] = Ok [] ∧
  assignLanes [itemA; itemB; itemC] = Ok [[itemA; itemC]; [itemB]] ∧
  assignLanes [touchA; touchB] = Ok [[touchA]; [touchB]] ∧
  assignLanes [sameZ; sameY; sameX] = Ok [[sameX]; [sameY]; [sameZ]] ∧
  assignLanes [itemA] = Ok [[itemA]] ∧
  assignLanes [itemA; badItem] = Err ValidationError.
Proof. split_and!; reflexivity. Qed.
