(* ===== verification/FirstFit.v ===== *)
(** * First fit, seen on the output

    Step 3 of the spec's algorithm puts each item into the lowest-indexed
    compatible lane.  On the finished lanes this reads: for every item [x]
    of lane [i] and every lower lane [j < i], lane [j] holds an item that
    covers the day [x] starts ([ff_inv]); that item was the last of lane [j]
    when [x] was placed and blocked it.  The invariant is carried through
    the fold by [assign_ref_inv]. *)

From S2P Require Import Prelude Items SortByStart LaneAssigner.

Definition ff_inv (L : list Lane) : Prop :=
  ∀ i j li lj x, L !! i = Some li → x ∈ li → j < i → L !! j = Some lj →
    ∃ y, y ∈ lj ∧ covers (start x) y.

(** A lane that does not fit [x] holds an item covering [start x], when all
    processed items start no later than [x]. *)
Lemma blocked_lane_covers x L P l :
  concat L ≡ₚ P → Forall (λ y, start y <= start x)%Z P → l ∈ L → fits x l = false →
  ∃ y, y ∈ l ∧ covers (start x) y.
Proof.
  intros Hp HP Hl Hf. destruct (fits_false_last x l Hf) as (y & Hy & Hend).
  apply last_Some_elem_of in Hy. exists y. split; [done|].
  assert (y ∈ P) as HyP.
  { rewrite <- Hp. apply list_elem_of_In, in_concat. exists l.
    split; by apply list_elem_of_In. }
  eapply Forall_forall in HP; [|exact HyP]. unfold covers. lia.
Qed.

Lemma place_ref_as_insert (x : Item) (L1 : list Lane) (l : Lane) (L2 : list Lane) :
  L1 ++ (l ++ [x]) :: L2 = <[length L1 := l ++ [x]]> (L1 ++ l :: L2).
Proof. rewrite insert_app_r_alt by lia. by rewrite Nat.sub_diag. Qed.

Lemma place_ref_ff x L P :
  concat L ≡ₚ P → Forall (λ y, start y <= start x)%Z P → ff_inv L → ff_inv (place_ref x L).
Proof.
  intros Hp HP Hff.
  destruct (place_ref_cases x L) as [[HF ->]|(L1 & l & L2 & -> & HF & _ & ->)];
    intros i j li lj x' Hi Hx' Hji Hj.
  - apply lookup_app_Some in Hi as [Hi|[Hlen Hi]].
    + rewrite lookup_app_l in Hj by (apply lookup_lt_Some in Hi; lia).
      by apply (Hff i j li lj x').
    + assert (i = length L) as -> by (apply lookup_lt_Some in Hi; simpl in Hi; lia).
      rewrite Nat.sub_diag in Hi. injection Hi as <-.
      apply list_elem_of_singleton in Hx' as ->.
      rewrite lookup_app_l in Hj by done.
      eapply blocked_lane_covers; [done|done|by eapply list_elem_of_lookup_2|].
      by eapply Forall_lookup_1 in HF.
  - rewrite place_ref_as_insert in Hi, Hj.
    apply list_lookup_insert_Some in Hi as [(Eki & Eli & _)|(Hki & Hi)];
      apply list_lookup_insert_Some in Hj as [(Ekj & Elj & _)|(Hkj & Hj)].
    + lia.
    + subst i li. apply elem_of_app in Hx' as [Hx'|Hx'].
      * apply (Hff (length L1) j l lj x'); [by rewrite list_lookup_middle|done|done|done].
      * apply list_elem_of_singleton in Hx' as ->.
        rewrite lookup_app_l in Hj by lia.
        eapply blocked_lane_covers; [done|done| |by eapply Forall_lookup_1 in HF].
        apply list_elem_of_In, in_app_iff. left. apply list_elem_of_In.
        by eapply list_elem_of_lookup_2.
    + subst j lj.
      destruct (Hff i (length L1) li l x') as (y & Hy & Hc);
        [done|done|done|by rewrite list_lookup_middle|].
      exists y. split; [|done]. apply elem_of_app. by left.
    + by apply (Hff i j li lj x').
Qed.

(** The lanes of a run satisfy [ff_inv]. *)
Lemma assignLanes_ff items L : assignLanes items = Ok L → ff_inv L.
Proof.
  intros [Hv ->]%assignLanes_Ok.
  apply (assign_ref_inv (λ _ L, ff_inv L)).
  - intros P L x Hp _ HP _ Hff. by apply (place_ref_ff x L P).
  - by rewrite sort_by_start_perm.
  - apply sort_by_start_sorted.
  - intros i j li lj x Hi. by rewrite lookup_nil in Hi.
Qed.
