(* ===== verification/Optimality.v ===== *)
(** * Optimality of the lane assigner

    The spec (section 4.1) promises that the number of lanes equals the
    largest number of items covering one calendar day, the clique number of
    the interval graph.  [depth items t] counts the items covering day [t];
    [max_depth items] is the largest depth at an item's start date, which
    is the largest depth at any day ([depth_le_max_depth]).

    Lower bound: inside a lane at most one item covers a day, so any
    partition into non-overlapping lanes has at least [depth items t]
    lanes.  Upper bound: when the greedy opens lane number [n + 1] for [x],
    the last items of the [n] open lanes all end on or after [x]'s start
    and, the input being sorted, start no later: with [x] they are [n + 1]
    items covering [start x].  The invariant of the fold carries a day
    whose depth in the processed prefix bounds the number of lanes. *)

From S2P Require Import Prelude Items SortByStart LaneAssigner.

Definition depth (items : list Item) (t : date) : nat := count (covers t) items.

Definition max_depth (items : list Item) : nat :=
  max_list ((λ x, depth items (start x)) <$> items).

(** The last item of every lane. *)
Definition lasts (L : list Lane) : list Item := omap last L.

(** ** The last items of the lanes *)

Lemma lasts_submseteq L : lasts L ⊆+ concat L.
Proof.
  unfold lasts. induction L as [|l L IH]; simpl; [done|].
  destruct (last l) as [y|] eqn:Hl.
  - apply last_Some_elem_of, elem_of_Permutation in Hl as [k Hk].
    rewrite Hk. simpl. apply submseteq_skip. by apply submseteq_inserts_l.
  - by apply submseteq_inserts_l.
Qed.

Lemma length_lasts L : Forall lane_ok L → length (lasts L) = length L.
Proof.
  unfold lasts. induction 1 as [|l L [Hne _] _ IH]; simpl; [done|].
  apply last_is_Some in Hne as [y Hy]. rewrite Hy. exact (f_equal S IH).
Qed.

(** ** Lower bound: any partition into non-overlapping lanes *)

Lemma partition_depth_le (Q : list Lane) items t :
  concat Q ≡ₚ items → Forall (StronglySorted precedes) Q → depth items t ≤ length Q.
Proof.
  intros Hp HQ. unfold depth. rewrite <- Hp. apply count_concat_le_length.
  eapply Forall_impl; [exact HQ|]. intros l Hl. by apply lane_covers_at_most_one.
Qed.

(** ** Upper bound: the invariant of the greedy placement *)

Lemma place_ref_depth x L P t :
  concat L ≡ₚ P → Forall lane_ok L → Forall (λ y, start y <= start x)%Z P → valid x →
  length L ≤ depth P t → ∃ t', length (place_ref x L) ≤ depth (P ++ [x]) t'.
Proof.
  intros Hp HL Hs Hx Ht. unfold depth in *.
  destruct (place_ref_cases x L) as [[HF ->]|(L1 & l & L2 & -> & _ & _ & ->)].
  - exists (start x). rewrite length_app, count_app, count_cons, decide_True by auto with timeline.
    rewrite count_nil. change (length [[x]]) with 1.
    enough (length L ≤ count (covers (start x)) P) by lia.
    rewrite <- (length_lasts L HL), <- (count_all (covers (start x)) (lasts L)).
    + rewrite <- Hp. apply count_submseteq, lasts_submseteq.
    + apply Forall_forall. intros y (l & Hl & Hly)%list_elem_of_omap.
      eapply Forall_forall in HF; [|exact Hl].
      destruct (fits_false_last x l HF) as (y' & Hly' & Hend). rewrite Hly in Hly'.
      injection Hly' as <-.
      assert (y ∈ P) as HyP.
      { rewrite <- Hp. apply list_elem_of_In, in_concat. exists l.
        split; apply list_elem_of_In; [done|by apply last_Some_elem_of]. }
      eapply Forall_forall in Hs; [|exact HyP]. unfold covers. lia.
  - exists t. rewrite count_app. rewrite !length_app in *. simpl in *. lia.
Qed.

Lemma assign_ref_depth l :
  Forall valid l → StronglySorted start_le l → ∃ t, length (assign_ref l) ≤ depth l t.
Proof.
  intros Hv Hs. apply (assign_ref_inv (λ P L, ∃ t, length L ≤ depth P t)); try done.
  - intros P L x Hp HL HP Hx [t Ht]. by apply (place_ref_depth x L P t).
  - exists 0%Z. simpl. lia.
Qed.

(** ** The clique number *)

Lemma depth_le_max_depth items t : depth items t ≤ max_depth items.
Proof.
  destruct (decide (filter (covers t) items = [])) as [E|E].
  { unfold depth, count. rewrite E. simpl. lia. }
  destruct (exists_max_key start _ E) as (y & Hy & Hmax).
  apply list_elem_of_filter in Hy as [Hyt Hy].
  transitivity (depth items (start y)).
  - unfold depth. apply count_mono. intros z Hz Hzt.
    assert (z ∈ filter (covers t) items) as Hzf by (by apply list_elem_of_filter).
    specialize (Hmax z Hzf). unfold covers in *. lia.
  - unfold max_depth. apply max_list_elem_of_le, list_elem_of_fmap. by exists y.
Qed.

Lemma max_depth_attained items : items ≠ [] → ∃ t, depth items t = max_depth items.
Proof.
  intros Hne. unfold max_depth.
  assert ((λ x, depth items (start x)) <$> items ≠ []) as Hne'.
  { by destruct items. }
  apply max_list_elem_of, list_elem_of_fmap in Hne' as (x & Hx & _).
  by exists (start x).
Qed.

(** Upper and lower bounds together, for a run of the assigner. *)
Lemma assignLanes_depth items lanes :
  assignLanes items = Ok lanes →
  (∀ t, depth items t ≤ length lanes) ∧ ∃ t, length lanes ≤ depth items t.
Proof.
  intros Hrun. pose proof (contract_perm _ _ Hrun) as Hp.
  pose proof (contract_lanes _ _ Hrun) as HL.
  split.
  - intros t. apply (partition_depth_le lanes); [done|].
    eapply Forall_impl; [exact HL|]. by intros l [_ ?].
  - apply assignLanes_Ok in Hrun as [Hv ->].
    destruct (assign_ref_depth (sort_by_start items)) as [t Ht].
    + by rewrite sort_by_start_perm.
    + apply sort_by_start_sorted.
    + exists t. unfold depth in *.
      pose proof (count_Permutation (covers t) _ _ (sort_by_start_perm items)). lia.
Qed.

(** Optimality: the number of lanes equals the largest number of
    items covering a single day; no day is covered by more items than
    there are lanes, and some day is covered by exactly as many. *)
Theorem assignLanes_lane_count items lanes :
  assignLanes items = Ok lanes →
  (∀ t, depth items t ≤ length lanes) ∧ (∃ t, depth items t = length lanes).
Proof.
  intros Hrun. destruct (assignLanes_depth items lanes Hrun) as [Hle [t Ht]].
  split; [done|]. exists t. specialize (Hle t). lia.
Qed.

(** Minimality: no partition of the items into lanes of pairwise
    non-overlapping items has fewer lanes than [assignLanes] returns. *)
Theorem assignLanes_minimal items lanes (Q : list Lane) :
  assignLanes items = Ok lanes →
  concat Q ≡ₚ items → Forall (StronglySorted precedes) Q →
  length lanes ≤ length Q.
Proof.
  intros Hrun Hp HQ. destruct (assignLanes_depth items lanes Hrun) as [_ [t Ht]].
  pose proof (partition_depth_le Q items t Hp HQ). lia.
Qed.

(** The lane count is the clique number [max_depth], computed from
    the items alone. *)
Theorem assignLanes_max_depth items lanes :
  assignLanes items = Ok lanes → length lanes = max_depth items.
Proof.
  intros Hrun. destruct (assignLanes_depth items lanes Hrun) as [Hle [t Ht]].
  pose proof (depth_le_max_depth items t).
  destruct items as [|x items].
  - change (max_depth []) with 0. unfold depth in Ht. rewrite count_nil in Ht. lia.
  - destruct (max_depth_attained (x :: items)) as [t' Ht']; [done|].
    specialize (Hle t'). lia.
Qed.
