(* ===== verification/TimelineData.v ===== *)
(** * The layout builder of the timeline page

    The [useMemo] block of [Timeline] (src/src/pages/timeline/timeline.jsx
    lines 19-87): from the items it computes the earliest start
    ([startDate], a [reduce] keeping the smaller date), the latest end
    ([endDate]), the number of days of the ruler ([totalDays]), the lanes
    (a call of [assignLanes]), the list [itemsWithLanes] built by two nested
    [forEach] loops that push each item annotated with its lane index, its
    dates and the colours of the first rule of [colorRules] its duration
    satisfies, and [maxLane].  With no items it returns [null] ([None]).

    The section is parameterised by any assigner that satisfies
    [LaneContract]; its theorems hold for every such assigner and the file
    ends with their instances at [assignLanes]. *)

From S2P Require Import Prelude Items SortByStart LaneAssigner FirstFit Optimality.

(** A rule of [colorRules]: [maxDays] is a number or
    [Number.POSITIVE_INFINITY] ([None]). *)
Record ColorRule := mkColorRule {
  maxDays : option Z;
  rule_borderColor : string;
  rule_backgroundColor : string
}.

Definition colorRules : list ColorRule := [
  mkColorRule (Some 3%Z) "border-timeline-success" "bg-green-100";
  mkColorRule (Some 7%Z) "border-timeline-warning" "bg-yellow-100";
  mkColorRule None "border-timeline-danger" "bg-red-100"
].

(** [durationDays <= maxDays] *)
Definition rule_matches (durationDays : Z) (r : ColorRule) : bool :=
  match maxDays r with
  | Some m => Z.leb durationDays m
  | None => true
  end.

(** An element of [itemsWithLanes]: [{...item, lane, startDate, endDate,
    borderColor, backgroundColor}]. *)
Record ItemWithLane := mkItemWithLane {
  base : Item;
  lane : nat;
  startDate : date;
  endDate : date;
  borderColor : string;
  backgroundColor : string
}.

Record TimelineData := mkTimelineData {
  td_startDate : date;
  td_endDate : date;
  totalDays : Z;
  td_items : list ItemWithLane;
  td_lanes : list Lane;
  maxLane : Z
}.

(** [items.reduce((min, item) => itemStart < min ? itemStart : min, items[0].start)] *)
Definition reduce_min_start (items : list Item) (init : date) : date :=
  foldl (λ min item, if Z.ltb (start item) min then start item else min) init items.

(** [items.reduce((max, item) => itemEnd > max ? itemEnd : max, items[0].end)] *)
Definition reduce_max_end (items : list Item) (init : date) : date :=
  foldl (λ max item, if Z.ltb max (end_ item) then end_ item else max) init items.

(** The body of the inner [forEach]: the pushed record. *)
Definition annotate (laneIndex : nat) (item : Item) : ItemWithLane :=
  let startDateItem := start item in
  let endDateItem := end_ item in
  let durationDays := (endDateItem - startDateItem + 1)%Z in
  let rule := List.find (rule_matches durationDays) colorRules in
  mkItemWithLane item laneIndex startDateItem endDateItem
    (match rule with Some r => rule_borderColor r | None => "border-timeline-danger" end)
    (match rule with Some r => rule_backgroundColor r | None => "bg-red-300" end).

(** [lanes.forEach((lane, laneIndex) => lane.forEach(item => itemsWithLanes.push(...)))] *)
Fixpoint push_lanes (laneIndex : nat) (lanes : list Lane) (acc : list ItemWithLane)
    : list ItemWithLane :=
  match lanes with
  | [] => acc
  | lane :: rest => push_lanes (S laneIndex) rest (acc ++ (annotate laneIndex <$> lane))
  end.

Definition itemsWithLanes (lanes : list Lane) : list ItemWithLane := push_lanes 0 lanes [].

Section Builder.
Context (assign : list Item → result (list Lane)) `{!LaneContract assign}.

Definition timelineData (items : list Item) : result (option TimelineData) :=
  match items with
  | [] => Ok None
  | first :: _ =>
      let startDate := reduce_min_start items (start first) in
      let endDate := reduce_max_end items (end_ first) in
      let totalDays := (endDate - startDate + 1)%Z in
      assign items ?>>= λ lanes,
      Ok (Some (mkTimelineData startDate endDate totalDays
                  (itemsWithLanes lanes) lanes (Z.of_nat (length lanes) - 1)))
  end.
End Builder.

(** The page's data for the spec's first scenario, used by the witnesses. *)
Definition sample_items : list Item := [itemA; itemB; itemC].

Definition sample_lanes : list Lane := [[itemA; itemC]; [itemB]].

Definition sample_td : TimelineData :=
  mkTimelineData 19723%Z 19728%Z 6%Z (itemsWithLanes sample_lanes) sample_lanes 1%Z.

#[export] Instance ItemWithLane_eq_dec : EqDecision ItemWithLane.
Proof. solve_decision. Defined.

(** The shape of the object the [useMemo] block returns, which
    [TimelineVisual] and [LaneInfoPanel] rely on: at least one day, the
    number of days counts both ends, [maxLane] is the last lane index, the
    annotated items are those of the lanes, and each of them lies on the
    ruler in an existing lane. *)
Definition td_wf (td : TimelineData) : Prop :=
  (1 <= totalDays td)%Z ∧
  totalDays td = (td_endDate td - td_startDate td + 1)%Z ∧
  maxLane td = (Z.of_nat (length (td_lanes td)) - 1)%Z ∧ (0 <= maxLane td)%Z ∧
  td_items td = itemsWithLanes (td_lanes td) ∧
  Forall (λ iw, (lane iw < length (td_lanes td))%nat ∧
                (td_startDate td <= startDate iw <= endDate iw)%Z ∧
                (endDate iw <= td_endDate td)%Z) (td_items td).

#[export] Instance td_wf_dec td : Decision (td_wf td).
Proof. unfold td_wf. apply _. Defined.

(** ** The two reductions

    Both are left folds whose step keeps either the accumulator or the key
    of the current item, whichever is better for a preorder [R]. *)

Section Reduce.
Context (key : Item → Z) (R : Z → Z → Prop) `{!Reflexive R, !Transitive R}
        (sel : Z → Item → Z).
Hypothesis sel_cases : ∀ m x, sel m x = m ∨ sel m x = key x.
Hypothesis sel_better : ∀ m x, R (sel m x) m ∧ R (sel m x) (key x).

Lemma foldl_select_spec l init :
  R (foldl sel init l) init ∧ (∀ x, x ∈ l → R (foldl sel init l) (key x)) ∧
  (foldl sel init l = init ∨ ∃ x, x ∈ l ∧ foldl sel init l = key x).
Proof.
  revert init. induction l as [|y l IH]; intros init; cbn [foldl].
  - split_and!; [done| |by left]. intros x Hx. by apply elem_of_nil in Hx.
  - destruct (IH (sel init y)) as (H1 & H2 & H3).
    destruct (sel_better init y) as [Hb1 Hb2].
    split_and!; [by etrans| |].
    + intros x [->|Hx]%elem_of_cons; [by etrans|by apply H2].
    + destruct H3 as [->|(x & Hx & ->)].
      * destruct (sel_cases init y) as [-> | ->]; [by left|].
        right. exists y. split; [left|done].
      * right. exists x. split; [by right|done].
Qed.
End Reduce.

Lemma reduce_min_start_spec l init :
  (reduce_min_start l init <= init)%Z ∧
  (∀ x, x ∈ l → reduce_min_start l init <= start x)%Z ∧
  (reduce_min_start l init = init ∨ ∃ x, x ∈ l ∧ reduce_min_start l init = start x).
Proof.
  apply (foldl_select_spec start Z.le).
  - intros m x. case_Z; auto.
  - intros m x. case_Z; lia.
Qed.

Lemma reduce_max_end_spec l init :
  (init <= reduce_max_end l init)%Z ∧
  (∀ x, x ∈ l → end_ x <= reduce_max_end l init)%Z ∧
  (reduce_max_end l init = init ∨ ∃ x, x ∈ l ∧ reduce_max_end l init = end_ x).
Proof.
  apply (@foldl_select_spec end_ (λ a b, b <= a)%Z
           ltac:(intros m; simpl; lia) ltac:(intros a b c; simpl; lia)).
  - intros m x. case_Z; auto.
  - intros m x. case_Z; lia.
Qed.

(** ** The annotated items *)

Lemma base_push_lanes i L acc : base <$> push_lanes i L acc = (base <$> acc) ++ concat L.
Proof.
  revert i acc. induction L as [|l L IH]; intros i acc; simpl.
  - by rewrite app_nil_r.
  - rewrite IH, fmap_app, <- (assoc_L (++)). f_equal. f_equal.
    clear IH. induction l as [|x l IHl]; [done|]. cbn. f_equal. exact IHl.
Qed.

Lemma elem_of_push_lanes iw i L acc :
  iw ∈ push_lanes i L acc ↔
  iw ∈ acc ∨ ∃ j l x, L !! j = Some l ∧ x ∈ l ∧ iw = annotate (i + j) x.
Proof.
  revert i acc. induction L as [|l L IH]; intros i acc; simpl.
  - split; [by left|]. intros [?|(j & l & x & Hj & _)]; [done|]. by rewrite lookup_nil in Hj.
  - rewrite IH, elem_of_app. split.
    + intros [[Hacc|Hl]|(j & l' & x & Hj & Hx & ->)]; [by left| |].
      * right. apply list_elem_of_fmap in Hl as (x & -> & Hx).
        exists 0, l, x. split_and!; [done|done|]. by rewrite Nat.add_0_r.
      * right. exists (S j), l', x. split_and!; [done|done|]. f_equal. lia.
    + intros [Hacc|([|j] & l' & x & Hj & Hx & ->)]; [by do 2 left| |].
      * injection Hj as <-. left. right. apply list_elem_of_fmap. exists x.
        rewrite Nat.add_0_r. done.
      * right. exists j, l', x. split_and!; [done|done|]. f_equal. lia.
Qed.

Lemma elem_of_itemsWithLanes iw L :
  iw ∈ itemsWithLanes L ↔ ∃ j l x, L !! j = Some l ∧ x ∈ l ∧ iw = annotate j x.
Proof.
  unfold itemsWithLanes. rewrite elem_of_push_lanes. split.
  - intros [Hn|H]; [by apply elem_of_nil in Hn|done].
  - intros H. by right.
Qed.

(** The first rule whose bound the duration does not exceed. *)
Lemma find_colorRules d :
  List.find (rule_matches d) colorRules =
  Some (if Z.leb d 3 then mkColorRule (Some 3%Z) "border-timeline-success" "bg-green-100"
        else if Z.leb d 7 then mkColorRule (Some 7%Z) "border-timeline-warning" "bg-yellow-100"
        else mkColorRule None "border-timeline-danger" "bg-red-100").
Proof. simpl. unfold rule_matches. simpl. case_Z; done. Qed.

Lemma annotate_fields i x :
  base (annotate i x) = x ∧ lane (annotate i x) = i ∧
  startDate (annotate i x) = start x ∧ endDate (annotate i x) = end_ x.
Proof. done. Qed.

(** ** The loops and their direct definitions *)

Lemma push_lanes_concat i L acc :
  push_lanes i L acc = acc ++ concat (imap (λ j l, annotate (i + j) <$> l) L).
Proof.
  revert i acc. induction L as [|l L IH]; intros i acc; cbn.
  - by rewrite app_nil_r.
  - rewrite IH, <- (assoc_L (++)), Nat.add_0_r. do 2 f_equal. f_equal.
    apply imap_ext. intros j x _. cbn. by rewrite Nat.add_succ_r.
Qed.

Lemma foldr_min_comm (a b : Z) l : foldr Z.min (Z.min a b) l = Z.min a (foldr Z.min b l).
Proof. induction l as [|x l IH]; cbn; [done|]. rewrite IH. lia. Qed.

Lemma foldr_max_comm (a b : Z) l : foldr Z.max (Z.max a b) l = Z.max a (foldr Z.max b l).
Proof. induction l as [|x l IH]; cbn; [done|]. rewrite IH. lia. Qed.

(** ** Properties of the layout builder, for any assigner meeting the
    contract *)

Section Properties.
Context (assign : list Item → result (list Lane)) `{!LaneContract assign}.

Lemma timelineData_Some items td :
  timelineData assign items = Ok (Some td) →
  ∃ first rest lanes, items = first :: rest ∧ assign items = Ok lanes ∧
    td = mkTimelineData (reduce_min_start items (start first))
           (reduce_max_end items (end_ first))
           (reduce_max_end items (end_ first) - reduce_min_start items (start first) + 1)
           (itemsWithLanes lanes) lanes (Z.of_nat (length lanes) - 1).
Proof.
  destruct items as [|first rest]; simpl; [done|].
  destruct (assign (first :: rest)) as [lanes|e] eqn:Ha; simpl; [|done].
  intros [= <-]. by exists first, rest, lanes.
Qed.

Lemma timelineData_valid items td :
  timelineData assign items = Ok (Some td) → Forall valid items.
Proof.
  intros (first & rest & lanes & -> & Ha & ->)%timelineData_Some.
  apply contract_ok_iff. by exists lanes.
Qed.

(** Every item lies between the ruler's two ends. *)
Lemma timelineData_bounds items td :
  timelineData assign items = Ok (Some td) →
  ∀ x, x ∈ items → (td_startDate td <= start x ∧ end_ x <= td_endDate td)%Z.
Proof.
  intros (first & rest & lanes & -> & _ & ->)%timelineData_Some x Hx. cbn.
  destruct (reduce_min_start_spec (first :: rest) (start first)) as (_ & Hmin & _).
  destruct (reduce_max_end_spec (first :: rest) (end_ first)) as (_ & Hmax & _).
  split; [by apply Hmin|by apply Hmax].
Qed.

(** C5. The ruler's range: [startDate] is the earliest start and
    [endDate] the latest end of the items, both attained. *)
Theorem timelineData_range items td :
  timelineData assign items = Ok (Some td) →
  (∀ x, x ∈ items → td_startDate td <= start x ∧ end_ x <= td_endDate td)%Z ∧
  (∃ x, x ∈ items ∧ start x = td_startDate td) ∧
  (∃ x, x ∈ items ∧ end_ x = td_endDate td).
Proof.
  intros (first & rest & lanes & -> & _ & ->)%timelineData_Some.
  cbn [td_startDate td_endDate].
  destruct (reduce_min_start_spec (first :: rest) (start first)) as (_ & Hmin & Hs).
  destruct (reduce_max_end_spec (first :: rest) (end_ first)) as (_ & Hmax & He).
  split_and!.
  - intros x Hx. split; [by apply Hmin|by apply Hmax].
  - destruct Hs as [->|(x & Hx & ->)]; [exists first; split; [left|done]|by exists x].
  - destruct He as [->|(x & Hx & ->)]; [exists first; split; [left|done]|by exists x].
Qed.

(** Every annotated item lies on the ruler: its start offset is
    nonnegative and its last day is at most [totalDays - 1] days after
    [startDate]; its lane index is below the number of lanes. *)
Lemma timelineData_items_in_range items td :
  timelineData assign items = Ok (Some td) →
  ∀ iw, iw ∈ td_items td →
    (0 <= startDate iw - td_startDate td ∧ startDate iw <= endDate iw ∧
     endDate iw - td_startDate td + 1 <= totalDays td)%Z ∧
    (lane iw < length (td_lanes td))%nat.
Proof.
  intros Hrun. pose proof (timelineData_valid _ _ Hrun) as Hv.
  pose proof (timelineData_bounds items td Hrun) as Hr.
  apply timelineData_Some in Hrun as (first & rest & lanes & Hitems & Ha & Htd).
  pose proof (contract_perm _ _ Ha) as Hp.
  intros iw Hiw. subst td. cbn [td_items td_startDate td_endDate totalDays td_lanes] in *.
  apply elem_of_itemsWithLanes in Hiw as (j & l & x & Hj & Hx & ->).
  assert (x ∈ items) as Hxi.
  { rewrite <- Hp. apply list_elem_of_In, in_concat. exists l.
    split; apply list_elem_of_In; [by eapply list_elem_of_lookup_2|done]. }
  destruct (Hr x Hxi) as [H1 H2]. eapply Forall_forall in Hv; [|exact Hxi].
  unfold valid in Hv. cbn [startDate endDate annotate lane].
  split; [lia|]. by eapply lookup_lt_Some.
Qed.

(** A successful render has at least one lane. *)
Lemma timelineData_lanes_nonempty items td :
  timelineData assign items = Ok (Some td) → td_lanes td ≠ [].
Proof.
  intros (first & rest & lanes & -> & Ha & ->)%timelineData_Some. cbn. intros ->.
  pose proof (contract_perm _ _ Ha) as Hp. cbn in Hp. by apply Permutation_nil_cons in Hp.
Qed.

(** C4. Every annotated item is tagged with the index of a lane that
    contains it, and [maxLane] is the last lane index, at least 0. *)
Theorem timelineData_annotation items td :
  timelineData assign items = Ok (Some td) →
  (∀ iw, iw ∈ td_items td → ∃ l, td_lanes td !! lane iw = Some l ∧ base iw ∈ l) ∧
  maxLane td = (Z.of_nat (length (td_lanes td)) - 1)%Z ∧ (0 <= maxLane td)%Z.
Proof.
  intros Hrun. pose proof (timelineData_lanes_nonempty items td Hrun) as Hne.
  revert Hne. apply timelineData_Some in Hrun as (first & rest & lanes & -> & Ha & ->).
  cbn. intros Hne. split_and!.
  - intros iw (j & l & x & Hj & Hx & ->)%elem_of_itemsWithLanes. by exists l.
  - done.
  - destruct lanes; [done|cbn; lia].
Qed.

(** C13. The output of the builder is well formed ([td_wf]): at least
    one day, [totalDays] counting both ends, [maxLane] the last lane index,
    the annotated items those of the lanes, each in an existing lane and on
    the ruler. *)
Theorem timelineData_wf items td :
  timelineData assign items = Ok (Some td) → td_wf td.
Proof.
  intros Hrun.
  pose proof (timelineData_items_in_range items td Hrun) as Hin.
  pose proof (timelineData_lanes_nonempty items td Hrun) as Hne.
  pose proof (timelineData_bounds items td Hrun) as Hb.
  pose proof (timelineData_valid items td Hrun) as Hv.
  apply timelineData_Some in Hrun as (first & rest & lanes & -> & Ha & ->).
  unfold td_wf. cbn [td_items td_lanes totalDays td_startDate td_endDate maxLane] in *.
  destruct (Hb first ltac:(constructor)) as [H1 H2].
  apply Forall_cons in Hv as [Hv0 _]. unfold valid in Hv0.
  split_and!; [lia|done|done|destruct lanes; [done|cbn; lia]|done|].
  apply Forall_forall. intros iw Hiw. destruct (Hin iw Hiw) as [Hr Hl].
  split_and!; [done|lia..].
Qed.

(** Empty input renders the empty state ([null]); the builder
    fails exactly when some item is invalid. *)
Lemma timelineData_null_or_error items :
  (timelineData assign items = Ok None ↔ items = []) ∧
  ((∃ e, timelineData assign items = Err e) ↔ ¬ Forall valid items).
Proof.
  destruct items as [|first rest]; simpl.
  { split; [done|]. split; [by intros [e ?]|]. intros H. by destruct H. }
  pose proof (contract_ok_iff (first :: rest)) as Hok.
  destruct (assign (first :: rest)) as [lanes|e] eqn:Ha; simpl.
  - split; [done|]. split; [by intros [e ?]|]. intros Hn. exfalso. apply Hn, Hok. by exists lanes.
  - split; [done|]. split; [intros _ Hv|by exists e].
    apply Hok in Hv as [L HL]. done.
Qed.
End Properties.

(** C15. The colour of a bar: durations of up to 3 days are green, up to 7
    days yellow, longer ones red; the [rule ? ... : ...] fallback of the
    code ([bg-red-300]) is never taken, the [Infinity] rule matching every
    duration. *)
Theorem annotate_colors i x :
  let d := (end_ x - start x + 1)%Z in
  borderColor (annotate i x) =
    (if Z.leb d 3 then "border-timeline-success"
     else if Z.leb d 7 then "border-timeline-warning" else "border-timeline-danger") ∧
  backgroundColor (annotate i x) =
    (if Z.leb d 3 then "bg-green-100" else if Z.leb d 7 then "bg-yellow-100" else "bg-red-100").
Proof.
  intros d. unfold annotate. cbv zeta. rewrite find_colorRules. subst d.
  destruct (Z.leb _ 3); [done|]. by destruct (Z.leb _ 7).
Qed.

(** C14. The builder's loops equal their direct definitions: the nested
    [forEach] that pushes onto [itemsWithLanes] is the concatenation of the
    lanes, each item annotated with its lane's index; the two [reduce]
    calls are the minimum of the start dates and the maximum of the end
    dates, the first item's date included. *)
Theorem builder_loops_equiv (lanes : list Lane) (l : list Item) (init : date) :
  itemsWithLanes lanes = concat (imap (λ j lane, annotate j <$> lane) lanes) ∧
  reduce_min_start l init = foldr Z.min init (start <$> l) ∧
  reduce_max_end l init = foldr Z.max init (end_ <$> l).
Proof.
  split_and!.
  - unfold itemsWithLanes. by rewrite push_lanes_concat.
  - unfold reduce_min_start. revert init. induction l as [|x l IH]; intros init; [done|].
    cbn. rewrite IH, <- foldr_min_comm. f_equal. case_Z; lia.
  - unfold reduce_max_end. revert init. induction l as [|x l IH]; intros init; [done|].
    cbn. rewrite IH, <- foldr_max_comm. f_equal. case_Z; lia.
Qed.

(** ** The lanes the page renders

    [timelineData assignLanes items] is what timeline.jsx computes (line 36
    calls [assignLanes(items)] inside the [useMemo]).  The theorems below
    state the spec's guarantees about the rows and the lane indices of
    [itemsWithLanes] that the page draws. *)

(** What a successful render computes, in terms of the assigner's run. *)
Lemma page_run items td :
  timelineData assignLanes items = Ok (Some td) →
  assignLanes items = Ok (td_lanes td) ∧ td_items td = itemsWithLanes (td_lanes td) ∧
  maxLane td = (Z.of_nat (length (td_lanes td)) - 1)%Z.
Proof. intros (first & rest & lanes & -> & Ha & ->)%timelineData_Some. done. Qed.

(** Every item of the input is drawn, in the lane that holds it, by its
    annotation. *)
Lemma rendered_item_of items td x :
  timelineData assignLanes items = Ok (Some td) → x ∈ items →
  ∃ iw j l, iw ∈ td_items td ∧ td_lanes td !! j = Some l ∧ x ∈ l ∧ iw = annotate j x.
Proof.
  intros Hrun Hx. destruct (page_run items td Hrun) as (Ha & -> & _).
  rewrite <- (contract_perm _ _ Ha) in Hx.
  apply list_elem_of_In, in_concat in Hx as (l & Hl & Hx).
  apply list_elem_of_In in Hl, Hx. apply list_elem_of_lookup_1 in Hl as [j Hj].
  exists (annotate j x), j, l. split_and!; [|done..].
  apply elem_of_itemsWithLanes. by exists j, l, x.
Qed.

(** C1. Every item is drawn exactly once: the rows partition the items,
    and the list of annotated items holds each item once. *)
Theorem rendered_partition items td :
  timelineData assignLanes items = Ok (Some td) →
  concat (td_lanes td) ≡ₚ items ∧ base <$> td_items td ≡ₚ items.
Proof.
  intros (Ha & -> & _)%page_run. apply assignLanes_Ok_lanes in Ha as (_ & Hp & _).
  split; [done|]. unfold itemsWithLanes. by rewrite base_push_lanes.
Qed.

(** C2. Two different items drawn in the same row do not overlap: one of
    them ends strictly before the other starts. *)
Theorem rendered_no_overlap items td iw1 iw2 :
  timelineData assignLanes items = Ok (Some td) →
  iw1 ∈ td_items td → iw2 ∈ td_items td → lane iw1 = lane iw2 → base iw1 ≠ base iw2 →
  base iw1 ≺ base iw2 ∨ base iw2 ≺ base iw1.
Proof.
  intros (Ha & -> & _)%page_run Hi1 Hi2 Hlane Hne.
  apply elem_of_itemsWithLanes in Hi1 as (j1 & l1 & x1 & Hj1 & Hx1 & ->).
  apply elem_of_itemsWithLanes in Hi2 as (j2 & l2 & x2 & Hj2 & Hx2 & ->).
  simpl in *. subst j2. rewrite Hj1 in Hj2. injection Hj2 as <-.
  pose proof (contract_lanes _ _ Ha) as HL.
  eapply Forall_lookup_1 in HL as [_ HS]; [|exact Hj1].
  by apply (strongly_sorted_related precedes l1).
Qed.

(** C8. Inside a row the bars are in strictly ascending order of start
    date. *)
Theorem rendered_lane_order items td :
  timelineData assignLanes items = Ok (Some td) →
  Forall (StronglySorted (λ a b, (start a < start b)%Z)) (td_lanes td).
Proof. intros (Ha & _ & _)%page_run. by apply (assignLanes_lane_order items). Qed.

(** C3. The number of rows, [maxLane + 1], is the largest number of items
    covering a single day: no day is covered by more items, some day by
    exactly as many, and it equals the clique number [max_depth]. *)
Theorem rendered_lane_count items td :
  timelineData assignLanes items = Ok (Some td) →
  (maxLane td + 1)%Z = Z.of_nat (max_depth items) ∧
  (∀ t, depth items t ≤ length (td_lanes td)) ∧
  (∃ t, depth items t = length (td_lanes td)).
Proof.
  intros (Ha & _ & Hmax)%page_run. rewrite Hmax, <- (assignLanes_max_depth items _ Ha).
  split; [lia|]. by apply assignLanes_lane_count.
Qed.

(** C7. No drawing of the items in rows of pairwise non-overlapping bars
    uses fewer rows than the page. *)
Theorem rendered_minimal items td (Q : list Lane) :
  timelineData assignLanes items = Ok (Some td) →
  concat Q ≡ₚ items → Forall (StronglySorted precedes) Q →
  (maxLane td + 1 <= Z.of_nat (length Q))%Z.
Proof.
  intros Hrun Hp HQ. destruct (page_run _ _ Hrun) as (Ha & _ & ->).
  pose proof (assignLanes_minimal items _ Q Ha Hp HQ). lia.
Qed.

(** C6. Every bar is in the lowest row free on its start day: each lower
    row holds an item that covers that day. *)
Theorem rendered_first_fit items td iw j :
  timelineData assignLanes items = Ok (Some td) →
  iw ∈ td_items td → j < lane iw →
  ∃ l y, td_lanes td !! j = Some l ∧ y ∈ l ∧ covers (start (base iw)) y.
Proof.
  intros (Ha & -> & _)%page_run Hiw Hj.
  apply elem_of_itemsWithLanes in Hiw as (i & li & x & Hi & Hx & ->). simpl in *.
  assert (is_Some (td_lanes td !! j)) as [lj Hlj].
  { apply lookup_lt_is_Some. apply lookup_lt_Some in Hi. lia. }
  destruct (assignLanes_ff items _ Ha i j li lj x Hi Hx Hj Hlj) as (y & Hy & Hc).
  by exists lj, y.
Qed.

(** C9. The rows drawn are those of the reference first-fit algorithm over
    the lanes themselves: the implementation with the array of last end
    dates computes the same lanes, and its array stays equal to the end
    dates of the rows' last items. *)
Theorem rendered_refines_reference items td :
  timelineData assignLanes items = Ok (Some td) →
  td_lanes td = assign_ref (sort_by_start items) ∧
  ends_inv (foldl place lane_state_init (sort_by_start items)) ∧
  lanes (foldl place lane_state_init (sort_by_start items)) = td_lanes td.
Proof.
  intros (Ha & _ & _)%page_run. apply assignLanes_Ok in Ha as [_ Heq].
  pose proof (assign_fold_refines lane_state_init (sort_by_start items) ends_inv_init) as Hf.
  split_and!; [done| |by rewrite Heq].
  generalize (sort_by_start items) lane_state_init ends_inv_init.
  intros l. induction l as [|x l IH]; intros st Hst; simpl; [done|].
  by apply IH, place_preserves_ends_inv.
Qed.

(** The two reductions compute the least start and the greatest end of
    the items, whichever item seeds them. *)
Lemma reduce_min_start_unique l f m :
  f ∈ l → (∀ x, x ∈ l → m <= start x)%Z → (∃ x, x ∈ l ∧ start x = m) →
  reduce_min_start l (start f) = m.
Proof.
  intros Hf Hm (y & Hy & <-).
  destruct (reduce_min_start_spec l (start f)) as (_ & H & [E|(z & Hz & E)]);
    rewrite E in *; apply Z.le_antisymm; auto.
Qed.

Lemma reduce_max_end_unique l f m :
  f ∈ l → (∀ x, x ∈ l → end_ x <= m)%Z → (∃ x, x ∈ l ∧ end_ x = m) →
  reduce_max_end l (end_ f) = m.
Proof.
  intros Hf Hm (y & Hy & <-).
  destruct (reduce_max_end_spec l (end_ f)) as (_ & H & [E|(z & Hz & E)]);
    rewrite E in *; apply Z.le_antisymm; auto.
Qed.

Lemma reduce_perm l1 l2 f1 f2 :
  l1 ≡ₚ l2 → f1 ∈ l1 → f2 ∈ l2 →
  reduce_min_start l1 (start f1) = reduce_min_start l2 (start f2) ∧
  reduce_max_end l1 (end_ f1) = reduce_max_end l2 (end_ f2).
Proof.
  intros Hp Hf1 Hf2.
  destruct (reduce_min_start_spec l1 (start f1)) as (_ & Hmin & Es).
  destruct (reduce_max_end_spec l1 (end_ f1)) as (_ & Hmax & Ee).
  split; symmetry.
  - apply reduce_min_start_unique; [done|intros x Hx; apply Hmin; by rewrite Hp|].
    destruct Es as [E|(x & Hx & E)]; [exists f1|exists x]; rewrite <- Hp; done.
  - apply reduce_max_end_unique; [done|intros x Hx; apply Hmax; by rewrite Hp|].
    destruct Ee as [E|(x & Hx & E)]; [exists f1|exists x]; rewrite <- Hp; done.
Qed.

(** C10. The page draws the same layout for any order of the input that
    keeps the items of each start date in the same relative order. *)
Theorem rendered_order_independent l1 l2 :
  (∀ k, with_start k l1 = with_start k l2) →
  timelineData assignLanes l1 = timelineData assignLanes l2.
Proof.
  intros Hk. pose proof (assignLanes_order_independent l1 l2 Hk) as Ha.
  assert (l1 ≡ₚ l2) as Hp.
  { rewrite <- (sort_by_start_perm l1), <- (sort_by_start_perm l2).
    by rewrite (stable_sorted_unique (sort_by_start l1) (sort_by_start l2));
      [| apply sort_by_start_sorted.. |intros k; rewrite !sort_by_start_stable]. }
  destruct l1 as [|f1 r1], l2 as [|f2 r2].
  - done.
  - by apply Permutation_nil_cons in Hp.
  - symmetry in Hp. by apply Permutation_nil_cons in Hp.
  - unfold timelineData. rewrite Ha.
    destruct (reduce_perm (f1 :: r1) (f2 :: r2) f1 f2 Hp) as [-> ->]; [left|left|done].
Qed.

(** ** Witnesses at [assignLanes], on the items of the spec's first
    scenario *)


Lemma timelineData_range_witness :
  timelineData assignLanes sample_items = Ok (Some sample_td) ∧
  (∀ x, x ∈ sample_items → td_startDate sample_td <= start x ∧ end_ x <= td_endDate sample_td)%Z ∧
  (∃ x, x ∈ sample_items ∧ start x = td_startDate sample_td) ∧
  (∃ x, x ∈ sample_items ∧ end_ x = td_endDate sample_td).
Proof.
  assert (timelineData assignLanes sample_items = Ok (Some sample_td)) as H by reflexivity.
  split; [exact H|]. exact (timelineData_range assignLanes _ _ H).
Defined.

Lemma timelineData_annotation_witness :
  timelineData assignLanes sample_items = Ok (Some sample_td) ∧
  (∀ iw, iw ∈ td_items sample_td →
     ∃ l, td_lanes sample_td !! lane iw = Some l ∧ base iw ∈ l) ∧
  maxLane sample_td = (Z.of_nat (length (td_lanes sample_td)) - 1)%Z ∧
  (0 <= maxLane sample_td)%Z.
Proof.
  assert (timelineData assignLanes sample_items = Ok (Some sample_td)) as H by reflexivity.
  split; [exact H|]. exact (timelineData_annotation assignLanes _ _ H).
Defined.

Lemma timelineData_wf_witness :
  timelineData assignLanes sample_items = Ok (Some sample_td) ∧ td_wf sample_td.
Proof.
  assert (timelineData assignLanes sample_items = Ok (Some sample_td)) as H by reflexivity.
  split; [exact H|]. exact (timelineData_wf assignLanes _ _ H).
Defined.

Lemma sample_render : timelineData assignLanes sample_items = Ok (Some sample_td).
Proof. reflexivity. Qed.

Lemma rendered_partition_witness :
  timelineData assignLanes sample_items = Ok (Some sample_td) ∧
  concat (td_lanes sample_td) ≡ₚ sample_items ∧ base <$> td_items sample_td ≡ₚ sample_items.
Proof. split; [exact sample_render|exact (rendered_partition _ _ sample_render)]. Defined.

Lemma rendered_no_overlap_witness :
  timelineData assignLanes sample_items = Ok (Some sample_td) ∧
  annotate 0 itemA ∈ td_items sample_td ∧ annotate 0 itemC ∈ td_items sample_td ∧
  lane (annotate 0 itemA) = lane (annotate 0 itemC) ∧
  base (annotate 0 itemA) ≠ base (annotate 0 itemC) ∧
  (base (annotate 0 itemA) ≺ base (annotate 0 itemC) ∨
   base (annotate 0 itemC) ≺ base (annotate 0 itemA)).
Proof.
  assert (annotate 0 itemA ∈ td_items sample_td) as H1 by (cbn; repeat constructor).
  assert (annotate 0 itemC ∈ td_items sample_td) as H2 by (cbn; repeat constructor).
  assert (lane (annotate 0 itemA) = lane (annotate 0 itemC)) as H3 by reflexivity.
  assert (base (annotate 0 itemA) ≠ base (annotate 0 itemC)) as H4 by (cbn; unfold itemA, itemC; discriminate).
  split_and!; try assumption; [exact sample_render|].
  exact (rendered_no_overlap _ _ _ _ sample_render H1 H2 H3 H4).
Defined.

Lemma rendered_lane_order_witness :
  timelineData assignLanes sample_items = Ok (Some sample_td) ∧
  Forall (StronglySorted (λ a b, (start a < start b)%Z)) (td_lanes sample_td).
Proof. split; [exact sample_render|exact (rendered_lane_order _ _ sample_render)]. Defined.

Lemma rendered_lane_count_witness :
  timelineData assignLanes sample_items = Ok (Some sample_td) ∧
  (maxLane sample_td + 1)%Z = Z.of_nat (max_depth sample_items) ∧
  (∀ t, depth sample_items t ≤ length (td_lanes sample_td)) ∧
  (∃ t, depth sample_items t = length (td_lanes sample_td)).
Proof. split; [exact sample_render|exact (rendered_lane_count _ _ sample_render)]. Defined.

Lemma rendered_minimal_witness :
  timelineData assignLanes sample_items = Ok (Some sample_td) ∧
  concat [[itemA]; [itemB]; [itemC]] ≡ₚ sample_items ∧
  Forall (StronglySorted precedes) [[itemA]; [itemB]; [itemC]] ∧
  (maxLane sample_td + 1 <= Z.of_nat (length [[itemA]; [itemB]; [itemC]]))%Z.
Proof.
  assert (concat [[itemA]; [itemB]; [itemC]] ≡ₚ sample_items) as H2 by reflexivity.
  assert (Forall (StronglySorted precedes) [[itemA]; [itemB]; [itemC]]) as H3
    by (repeat constructor).
  split_and!; [exact sample_render|exact H2|exact H3|].
  exact (rendered_minimal _ _ _ sample_render H2 H3).
Defined.

Lemma rendered_first_fit_witness :
  timelineData assignLanes sample_items = Ok (Some sample_td) ∧
  annotate 1 itemB ∈ td_items sample_td ∧ 0 < lane (annotate 1 itemB) ∧
  ∃ l y, td_lanes sample_td !! 0 = Some l ∧ y ∈ l ∧ covers (start (base (annotate 1 itemB))) y.
Proof.
  assert (annotate 1 itemB ∈ td_items sample_td) as H1 by (cbn; repeat constructor).
  assert (0 < lane (annotate 1 itemB)) as H2 by (cbn; lia).
  split_and!; [exact sample_render|exact H1|exact H2|].
  exact (rendered_first_fit _ _ _ _ sample_render H1 H2).
Defined.

Lemma rendered_refines_reference_witness :
  timelineData assignLanes sample_items = Ok (Some sample_td) ∧
  td_lanes sample_td = assign_ref (sort_by_start sample_items) ∧
  ends_inv (foldl place lane_state_init (sort_by_start sample_items)) ∧
  lanes (foldl place lane_state_init (sort_by_start sample_items)) = td_lanes sample_td.
Proof. split; [exact sample_render|exact (rendered_refines_reference _ _ sample_render)]. Defined.

Lemma rendered_order_independent_witness :
  (∀ k, with_start k [itemA; itemC; itemB] = with_start k [itemC; itemA; itemB]) ∧
  timelineData assignLanes [itemA; itemC; itemB] = timelineData assignLanes [itemC; itemA; itemB].
Proof.
  assert (∀ k, with_start k [itemA; itemC; itemB] = with_start k [itemC; itemA; itemB]) as H.
  { intros k. unfold with_start. rewrite !filter_cons, !filter_nil.
    simpl. repeat case_decide; simplify_eq; try done; lia. }
  split; [exact H|exact (rendered_order_independent _ _ H)].
Defined.
