(* ===== verification/PageState.v ===== *)
(** * The state of the timeline page and the zoom controls

    [Timeline] (src/src/pages/timeline/timeline.jsx) keeps three pieces of
    React state (lines 15-17): [zoomLevel] (initially 1), [selectedItem]
    (initially [null]) and [optionShow] (initially ["timeline"]).  They
    change only through the handlers:
    - [handleZoomIn] / [handleZoomOut] (lines 89-97): multiply / divide by
      1.2, clamped to at most 3 / at least 0.3;
    - [handleItemClick] (lines 99-101): selecting an item toggles it;
    - [onModalClose] (line 113), called by the dialog's [onOpenChange] when
      it closes (timeline-item-dialog.jsx line 16);
    - the two view buttons (lines 132 and 140).
    The zoom buttons belong to [TimelineControls], which the page renders
    only in the timeline view (line 147), and which disables them at the
    bounds (timeline-controls.jsx lines 31 and 43); a disabled button or a
    button that is not rendered fires nothing.  [modalOpen] is
    [Boolean(selectedItem)] (line 112).

    Numbers are rationals: the model computes [prev * 1.2] exactly, not in
    binary64 (see the header of [Prelude]).  Each handler is one step of
    [page_step]; the reachable states are those of [rtc page_step] from
    [page_init]. *)

From S2P Require Import Prelude.
From stdpp Require Import strings relations.
From Stdlib Require Import QArith Qminmax Qround Lqa.

Record PageState := mkPageState {
  zoomLevel : Q;
  selectedItem : option Z;
  optionShow : string
}.

Definition page_init : PageState := mkPageState 1 None "timeline".

(** ** Handlers and the controls *)

Definition handleZoomIn (prev : Q) : Q := Qmin (prev * (6#5)) 3.

Definition handleZoomOut (prev : Q) : Q := Qmax (prev / (6#5)) (3#10).

(** [setSelectedItem((prev) => (prev === itemId ? null : itemId))] *)
Definition handleItemClick (itemId : Z) (prev : option Z) : option Z :=
  if decide (prev = Some itemId) then None else Some itemId.

(** [Boolean(selectedItem)]: [null] and the number [0] are falsy. *)
Definition modalOpen (s : PageState) : bool :=
  match selectedItem s with
  | None => false
  | Some itemId => negb (Z.eqb itemId 0)
  end.

(** [disabled={zoomLevel <= 0.3}] and [disabled={zoomLevel >= 3}] *)
Definition zoomOutDisabled (zoomLevel : Q) : bool := Qle_bool zoomLevel (3#10).
Definition zoomInDisabled (zoomLevel : Q) : bool := Qle_bool 3 zoomLevel.

(** [Math.round(zoomLevel * 100)]: the floor of [x + 1/2]. *)
Definition zoomPercent (zoomLevel : Q) : Z := Qfloor (zoomLevel * 100 + (1#2)).

Inductive Event :=
| ClickZoomIn
| ClickZoomOut
| ClickItem (itemId : Z)
| CloseModal
| ShowTimeline
| ShowLaneInfoPanel.

Definition timelineShown (s : PageState) : bool := String.eqb (optionShow s) "timeline".

Definition handle (s : PageState) (e : Event) : PageState :=
  match e with
  | ClickZoomIn =>
      if timelineShown s && negb (zoomInDisabled (zoomLevel s))
      then mkPageState (handleZoomIn (zoomLevel s)) (selectedItem s) (optionShow s)
      else s
  | ClickZoomOut =>
      if timelineShown s && negb (zoomOutDisabled (zoomLevel s))
      then mkPageState (handleZoomOut (zoomLevel s)) (selectedItem s) (optionShow s)
      else s
  | ClickItem itemId =>
      mkPageState (zoomLevel s) (handleItemClick itemId (selectedItem s)) (optionShow s)
  | CloseModal =>
      if modalOpen s then mkPageState (zoomLevel s) None (optionShow s) else s
  | ShowTimeline => mkPageState (zoomLevel s) (selectedItem s) "timeline"
  | ShowLaneInfoPanel => mkPageState (zoomLevel s) (selectedItem s) "laneInfoPanel"
  end.

Inductive page_step : PageState → PageState → Prop :=
| page_step_event s e : page_step s (handle s e).

Definition reachable (s : PageState) : Prop := rtc page_step page_init s.

(** [n] clicks of the same kind. *)
Fixpoint clicks (n : nat) (e : Event) (s : PageState) : PageState :=
  match n with
  | O => s
  | S n => clicks n e (handle s e)
  end.


(** The invariant of the reachable states. *)
Definition zoom_ok (z : Q) : Prop := (3#10 <= z <= 3)%Q.

Definition page_inv (s : PageState) : Prop :=
  zoom_ok (zoomLevel s) ∧ (optionShow s = "timeline" ∨ optionShow s = "laneInfoPanel").

(** A lower bound on the zoom after [n] zoom-in clicks, from a lower bound
    [a] on the current zoom. *)
Fixpoint zoom_in_floor (n : nat) (a : Q) : Q :=
  match n with
  | O => a
  | S n => zoom_in_floor n (Qmin (a * (6#5)) 3)
  end.

(** An upper bound on the zoom after [n] zoom-out clicks. *)
Fixpoint zoom_out_ceiling (n : nat) (a : Q) : Q :=
  match n with
  | O => a
  | S n => zoom_out_ceiling n (Qmax (a / (6#5)) (3#10))
  end.

(** An effective click on a zoom button: the button is rendered (timeline
    view) and enabled, and the page takes the step.  [zoom_in_click s' s]
    relates the state after the click to the state before. *)
Definition zoom_in_click (s' s : PageState) : Prop :=
  timelineShown s = true ∧ zoomInDisabled (zoomLevel s) = false ∧ s' = handle s ClickZoomIn.

Definition zoom_out_click (s' s : PageState) : Prop :=
  timelineShown s = true ∧ zoomOutDisabled (zoomLevel s) = false ∧ s' = handle s ClickZoomOut.

(** States used by the witnesses. *)
Definition zoomed_in : PageState := handle page_init ClickZoomIn.
Definition zero_selected : PageState := handle page_init (ClickItem 0).

(** ** The invariant of the reachable states *)

Lemma Qle_bool_false_lt x y : Qle_bool x y = false → (y < x)%Q.
Proof. intros H. apply Qnot_le_lt. intros Hle. apply Qle_bool_iff in Hle. congruence. Qed.

Lemma handleZoomIn_ok z : zoom_ok z → zoom_ok (handleZoomIn z).
Proof.
  unfold zoom_ok, handleZoomIn. intros [H1 H2].
  destruct (Q.min_spec (z * (6#5)) 3) as [[H E]|[H E]]; rewrite E; lra.
Qed.

Lemma handleZoomOut_ok z : zoom_ok z → zoom_ok (handleZoomOut z).
Proof.
  unfold zoom_ok, handleZoomOut. intros [H1 H2].
  assert (z / (6#5) == z * (5#6))%Q as Ez by (field; discriminate).
  destruct (Q.max_spec (z / (6#5)) (3#10)) as [[H E]|[H E]]; rewrite E; [lra|].
  rewrite Ez in *. lra.
Qed.

Lemma handle_inv s e : page_inv s → page_inv (handle s e).
Proof.
  intros [Hz Hv]. destruct e; simpl.
  - case_match; [split; [by apply handleZoomIn_ok|done]|by split].
  - case_match; [split; [by apply handleZoomOut_ok|done]|by split].
  - by split.
  - case_match; by split.
  - split; [done|by left].
  - split; [done|by right].
Qed.

Lemma reachable_inv s : reachable s → page_inv s.
Proof.
  unfold reachable. revert s. apply rtc_ind_r.
  - split; [unfold zoom_ok; simpl; lra|by left].
  - intros s1 s2 _ [s e] IH. by apply handle_inv.
Qed.

Lemma reachable_handle s e : reachable s → reachable (handle s e).
Proof. intros H. eapply rtc_r; [exact H|constructor]. Qed.

Lemma reachable_clicks n e s : reachable s → reachable (clicks n e s).
Proof. revert s. induction n; intros s H; simpl; [done|]. by apply IHn, reachable_handle. Qed.

Lemma zoomPercent_bounds z : zoom_ok z → (30 <= zoomPercent z <= 300)%Z.
Proof.
  unfold zoom_ok, zoomPercent. intros [H1 H2]. split.
  - rewrite <- (Qfloor_Z 30). apply Qfloor_resp_le. unfold inject_Z. lra.
  - assert (zoomLevel_round : (z * 100 + (1#2) <= inject_Z 300 + (1#2))%Q)
      by (unfold inject_Z; lra).
    pose proof (Qfloor_le (z * 100 + (1#2))) as Hf.
    assert (inject_Z (Qfloor (z * 100 + (1#2))) < inject_Z 301)%Q as Hlt
      by (unfold inject_Z in *; lra).
    rewrite <- Zlt_Qlt in Hlt. lia.
Qed.

(** C16. Every reachable page state has a zoom level between 0.3 and 3, a
    zoom percentage between 30 and 300, and one of the two views. *)
Theorem page_zoom_bounds s :
  reachable s →
  (3#10 <= zoomLevel s <= 3)%Q ∧ (30 <= zoomPercent (zoomLevel s) <= 300)%Z ∧
  (optionShow s = "timeline" ∨ optionShow s = "laneInfoPanel").
Proof.
  intros Hr. destruct (reachable_inv s Hr) as [Hz Hv].
  split; [apply Hz|split; [by apply zoomPercent_bounds|done]].
Qed.

(** ** Repeated clicks on a zoom button *)


Lemma timelineShown_handle_zoom s e :
  e = ClickZoomIn ∨ e = ClickZoomOut → timelineShown (handle s e) = timelineShown s.
Proof. intros [-> | ->]; simpl; by repeat case_match. Qed.

Lemma click_zoom_in_ge s a :
  page_inv s → timelineShown s = true → (a <= zoomLevel s)%Q →
  (Qmin (a * (6#5)) 3 <= zoomLevel (handle s ClickZoomIn))%Q.
Proof.
  intros [[Hz1 Hz2] _] Hshow Ha. simpl. rewrite Hshow. simpl.
  destruct (zoomInDisabled (zoomLevel s)) eqn:Hd; simpl.
  - unfold zoomInDisabled in Hd. apply Qle_bool_iff in Hd.
    eapply Qle_trans; [apply Q.le_min_r|lra].
  - unfold handleZoomIn. apply Q.min_le_compat_r. lra.
Qed.

Lemma click_zoom_out_le s a :
  page_inv s → timelineShown s = true → (zoomLevel s <= a)%Q →
  (zoomLevel (handle s ClickZoomOut) <= Qmax (a / (6#5)) (3#10))%Q.
Proof.
  intros [[Hz1 Hz2] _] Hshow Ha. simpl. rewrite Hshow. simpl.
  destruct (zoomOutDisabled (zoomLevel s)) eqn:Hd; simpl.
  - unfold zoomOutDisabled in Hd. apply Qle_bool_iff in Hd.
    eapply Qle_trans; [|apply Q.le_max_r]. lra.
  - unfold handleZoomOut. apply Q.max_le_compat_r.
    apply Qmult_le_compat_r; [done|]. unfold Qle. simpl. lia.
Qed.

Lemma clicks_zoom_in_ge n s a :
  page_inv s → timelineShown s = true → (a <= zoomLevel s)%Q →
  (zoom_in_floor n a <= zoomLevel (clicks n ClickZoomIn s))%Q.
Proof.
  revert s a. induction n as [|n IH]; intros s a Hinv Hshow Ha; cbn [clicks zoom_in_floor]; [done|].
  apply IH.
  - by apply handle_inv.
  - rewrite timelineShown_handle_zoom; [done|by left].
  - by apply click_zoom_in_ge.
Qed.

Lemma clicks_zoom_out_le n s a :
  page_inv s → timelineShown s = true → (zoomLevel s <= a)%Q →
  (zoomLevel (clicks n ClickZoomOut s) <= zoom_out_ceiling n a)%Q.
Proof.
  revert s a. induction n as [|n IH]; intros s a Hinv Hshow Ha; cbn [clicks zoom_out_ceiling]; [done|].
  apply IH.
  - by apply handle_inv.
  - rewrite timelineShown_handle_zoom; [done|by right].
  - by apply click_zoom_out_le.
Qed.

(** Thirteen clicks from either bound reach the other: [1.2^13 > 10]. *)
Lemma zoom_in_floor_13 : (3 <= zoom_in_floor 13 (3#10))%Q.
Proof. apply Qle_bool_iff. by vm_compute. Qed.

Lemma zoom_out_ceiling_13 : (zoom_out_ceiling 13 3 <= 3#10)%Q.
Proof. apply Qle_bool_iff. by vm_compute. Qed.

(** Effective zoom-in clicks from a state whose zoom is at least [a] come
    to an end when [n] clicks from [a] reach 3. *)
Lemma zoom_in_click_acc n s a :
  page_inv s → (a <= zoomLevel s)%Q → (3 <= zoom_in_floor n a)%Q → Acc zoom_in_click s.
Proof.
  revert s a. induction n as [|n IH]; intros s a Hinv Ha Hn; constructor;
    intros s' (Hshow & Hd & ->); apply Qle_bool_false_lt in Hd.
  - cbn in Hn. lra.
  - apply (IH _ (Qmin (a * (6#5)) 3)); [by apply handle_inv|by apply click_zoom_in_ge|done].
Qed.

Lemma zoom_out_click_acc n s a :
  page_inv s → (zoomLevel s <= a)%Q → (zoom_out_ceiling n a <= 3#10)%Q → Acc zoom_out_click s.
Proof.
  revert s a. induction n as [|n IH]; intros s a Hinv Ha Hn; constructor;
    intros s' (Hshow & Hd & ->); apply Qle_bool_false_lt in Hd.
  - cbn in Hn. lra.
  - apply (IH _ (Qmax (a / (6#5)) (3#10))); [by apply handle_inv|by apply click_zoom_out_le|done].
Qed.

(** C17. Liveness of the zoom controls: from any reachable state showing the
    timeline, 13 clicks on zoom-in reach the maximum zoom 3 and disable the
    button, and 13 clicks on zoom-out reach the minimum 0.3 and disable
    that button. *)
Theorem zoom_clicks_reach_bounds s :
  reachable s → timelineShown s = true →
  (zoomLevel (clicks 13 ClickZoomIn s) == 3)%Q ∧
  zoomInDisabled (zoomLevel (clicks 13 ClickZoomIn s)) = true ∧
  (zoomLevel (clicks 13 ClickZoomOut s) == 3#10)%Q ∧
  zoomOutDisabled (zoomLevel (clicks 13 ClickZoomOut s)) = true.
Proof.
  intros Hr Hshow. pose proof (reachable_inv s Hr) as Hinv.
  pose proof Hinv as [[Hz1 Hz2] Hv].
  pose proof (clicks_zoom_in_ge 13 s (3#10) Hinv Hshow Hz1) as Hin.
  pose proof (clicks_zoom_out_le 13 s 3 Hinv Hshow Hz2) as Hout.
  pose proof zoom_in_floor_13 as Hf. pose proof zoom_out_ceiling_13 as Hc.
  destruct (reachable_inv _ (reachable_clicks 13 ClickZoomIn s Hr)) as [[Hi1 Hi2] _].
  destruct (reachable_inv _ (reachable_clicks 13 ClickZoomOut s Hr)) as [[Ho1 Ho2] _].
  unfold zoomInDisabled, zoomOutDisabled. rewrite !Qle_bool_iff.
  split_and!; lra.
Qed.

(** An item with id 0, once selected, keeps its dialog closed, and the
    dialog's close handler cannot clear the selection. *)
Lemma item_zero_selected_without_dialog s :
  selectedItem s = Some 0%Z → modalOpen s = false ∧ handle s CloseModal = s.
Proof.
  intros Hsel. unfold modalOpen. rewrite Hsel. simpl.
  split; [done|]. unfold modalOpen. by rewrite Hsel.
Qed.

(** C19. The dialog of a clicked item: clicking an item opens its dialog
    exactly when the item was not the selected one and its id is not 0
    ([Boolean(0)] is false); so an item with id 0, once selected, stays
    selected (its bar keeps the selection ring) while its dialog never
    shows, and the dialog's close handler cannot clear the selection. *)
Theorem click_item_opens_dialog s itemId :
  (modalOpen (handle s (ClickItem itemId)) = true ↔
   selectedItem s ≠ Some itemId ∧ itemId ≠ 0%Z) ∧
  (reachable s → selectedItem s = Some 0%Z →
   modalOpen s = false ∧ handle s CloseModal = s).
Proof.
  split; [|intros _; apply item_zero_selected_without_dialog].
  unfold modalOpen. cbn [handle selectedItem]. unfold handleItemClick.
  case_decide as Hsel.
  - split; [done|]. intros [? _]. done.
  - rewrite negb_true_iff, Z.eqb_neq. split; [by split|by intros [_ ?]].
Qed.

(** The zoom buttons: in a reachable state each is disabled exactly at its
    bound, and an enabled click moves the zoom strictly in its direction. *)
Lemma zoom_buttons s :
  reachable s → timelineShown s = true →
  (zoomInDisabled (zoomLevel s) = true ↔ (zoomLevel s == 3)%Q) ∧
  (zoomOutDisabled (zoomLevel s) = true ↔ (zoomLevel s == 3#10)%Q) ∧
  (zoomInDisabled (zoomLevel s) = false →
     (zoomLevel s < zoomLevel (handle s ClickZoomIn))%Q) ∧
  (zoomOutDisabled (zoomLevel s) = false →
     (zoomLevel (handle s ClickZoomOut) < zoomLevel s)%Q).
Proof.
  intros Hr Hshow. destruct (reachable_inv s Hr) as [[Hz1 Hz2] _].
  unfold zoomInDisabled, zoomOutDisabled. split_and!.
  - rewrite Qle_bool_iff. split; lra.
  - rewrite Qle_bool_iff. split; lra.
  - intros Hd. unfold handle, zoomInDisabled. rewrite Hshow, Hd. cbn [andb negb zoomLevel].
    apply Qle_bool_false_lt in Hd. unfold handleZoomIn.
    destruct (Q.min_spec (zoomLevel s * (6#5)) 3) as [[H E]|[H E]]; rewrite E; lra.
  - intros Hd. unfold handle, zoomOutDisabled. rewrite Hshow, Hd. cbn [andb negb zoomLevel].
    apply Qle_bool_false_lt in Hd. unfold handleZoomOut.
    assert (zoomLevel s / (6#5) == zoomLevel s * (5#6))%Q as Ez by (field; discriminate).
    destruct (Q.max_spec (zoomLevel s / (6#5)) (3#10)) as [[H E]|[H E]]; rewrite E;
      rewrite ?Ez in *; lra.
Qed.

(** C20. The page's actions keep what they do not own, and the toggles
    undo each other: from the timeline view, a zoom-in click followed by a
    zoom-out click leaves the selection and the view as they were (only
    the zoom moves; in binary64 it need not come back to the same number,
    so nothing is claimed of it); clicking the same item twice gives back
    the state when nothing or that item was selected; going to the lane
    panel and back gives back the state. *)
Theorem page_undo_roundtrips s k :
  timelineShown s = true →
  (∃ z, handle (handle s ClickZoomIn) ClickZoomOut = mkPageState z (selectedItem s) (optionShow s)) ∧
  (selectedItem s = None ∨ selectedItem s = Some k →
     handle (handle s (ClickItem k)) (ClickItem k) = s) ∧
  handle (handle s ShowLaneInfoPanel) ShowTimeline = s.
Proof.
  destruct s as [z sel v]. unfold timelineShown. cbn [zoomLevel selectedItem optionShow].
  intros Hshow. apply String.eqb_eq in Hshow as ->. split_and!.
  - cbn [handle]. destruct (_ && _); cbn [handle zoomLevel selectedItem optionShow];
      destruct (_ && _); by eexists.
  - intros [-> | ->]; cbn [handle selectedItem zoomLevel optionShow]; unfold handleItemClick;
      repeat case_decide; by simplify_eq.
  - done.
Qed.

(** C18. Termination of the zoom controls: from any reachable state,
    every run of effective zoom-in clicks, and every run of effective
    zoom-out clicks, is finite: the button disables itself ([Acc] of the
    click relation). *)
Theorem zoom_clicks_terminate s :
  reachable s → Acc zoom_in_click s ∧ Acc zoom_out_click s.
Proof.
  intros Hr. pose proof (reachable_inv s Hr) as Hinv. destruct Hinv as [[Hz1 Hz2] Hv].
  split.
  - apply (zoom_in_click_acc 13 s (3#10)); [done|done|apply zoom_in_floor_13].
  - apply (zoom_out_click_acc 13 s 3); [done|done|apply zoom_out_ceiling_13].
Qed.

(** ** Witnesses *)


Lemma reachable_zoomed_in : reachable zoomed_in.
Proof. apply (rtc_l _ _ _ _ (page_step_event page_init ClickZoomIn)), rtc_refl. Qed.

Lemma reachable_zero_selected : reachable zero_selected.
Proof. apply (rtc_l _ _ _ _ (page_step_event page_init (ClickItem 0))), rtc_refl. Qed.

Lemma page_zoom_bounds_witness :
  reachable zoomed_in ∧
  (3#10 <= zoomLevel zoomed_in <= 3)%Q ∧ (30 <= zoomPercent (zoomLevel zoomed_in) <= 300)%Z ∧
  (optionShow zoomed_in = "timeline" ∨ optionShow zoomed_in = "laneInfoPanel").
Proof. split; [exact reachable_zoomed_in|exact (page_zoom_bounds _ reachable_zoomed_in)]. Defined.

Lemma zoom_clicks_reach_bounds_witness :
  reachable page_init ∧ timelineShown page_init = true ∧
  (zoomLevel (clicks 13 ClickZoomIn page_init) == 3)%Q ∧
  zoomInDisabled (zoomLevel (clicks 13 ClickZoomIn page_init)) = true ∧
  (zoomLevel (clicks 13 ClickZoomOut page_init) == 3#10)%Q ∧
  zoomOutDisabled (zoomLevel (clicks 13 ClickZoomOut page_init)) = true.
Proof.
  assert (reachable page_init) as H1 by apply rtc_refl.
  assert (timelineShown page_init = true) as H2 by reflexivity.
  split; [exact H1|split; [exact H2|exact (zoom_clicks_reach_bounds _ H1 H2)]].
Defined.

Lemma click_item_opens_dialog_witness :
  reachable zero_selected ∧ selectedItem zero_selected = Some 0%Z ∧
  (modalOpen (handle zero_selected (ClickItem 2)) = true ↔
   selectedItem zero_selected ≠ Some 2%Z ∧ 2%Z ≠ 0%Z) ∧
  (modalOpen zero_selected = false ∧ handle zero_selected CloseModal = zero_selected).
Proof.
  assert (selectedItem zero_selected = Some 0%Z) as H by reflexivity.
  destruct (click_item_opens_dialog zero_selected 2) as [Hiff Hzero].
  split; [exact reachable_zero_selected|split; [exact H|split; [exact Hiff|]]].
  exact (Hzero reachable_zero_selected H).
Defined.


(** From the minimum zoom, 12 zoom-in clicks are not enough: the bound 13
    of [zoom_clicks_reach_bounds] is tight. *)
Example zoom_in_bound_tight :
  (zoomLevel (clicks 13 ClickZoomOut page_init) == 3#10)%Q ∧
  (zoomLevel (clicks 12 ClickZoomIn (clicks 13 ClickZoomOut page_init)) < 3)%Q.
Proof. split; vm_compute; done. Qed.

Lemma page_undo_roundtrips_witness :
  timelineShown zoomed_in = true ∧
  (∃ z, handle (handle zoomed_in ClickZoomIn) ClickZoomOut =
          mkPageState z (selectedItem zoomed_in) (optionShow zoomed_in)) ∧
  (selectedItem zoomed_in = None ∨ selectedItem zoomed_in = Some 1%Z →
     handle (handle zoomed_in (ClickItem 1)) (ClickItem 1) = zoomed_in) ∧
  handle (handle zoomed_in ShowLaneInfoPanel) ShowTimeline = zoomed_in.
Proof.
  assert (timelineShown zoomed_in = true) as H by reflexivity.
  split; [exact H|exact (page_undo_roundtrips zoomed_in 1 H)].
Defined.

Lemma zoom_clicks_terminate_witness : Acc zoom_in_click zoomed_in ∧ Acc zoom_out_click zoomed_in.
Proof. apply zoom_clicks_terminate. exact reachable_zoomed_in. Defined.
