(* ===== verification/Geometry.v ===== *)
(** * Geometry of the canvas and of the bars

    [TimelineVisual] (src/src/components/TimelineVisual/timeline-visual.jsx)
    sizes the canvas: [baseWidth = max(1200, totalDays * 30 * zoomLevel)]
    pixels wide (line 14) and [timelineHeight = (maxLane + 1) * 60 + 100]
    pixels high (lines 15-16).  The ruler at its top (lines 30-91) places
    day [i] at [i * 30 * zoomLevel / baseWidth * 100] percent of the canvas
    and a month label every 30 days; the bars and the grid lines live in a
    layer 48 pixels down ([top-12]) and 32 pixels right ([left-8]), of
    width [baseWidth - 32], where day [i] is at
    [i * 30 * zoomLevel / (baseWidth - 32) * 100] percent (lines 93-131).

    [TimelineItem] (src/src/components/TimelineItem/timeline-item.jsx lines
    13-88) computes the bar: [left] and [width] in percent of the layer,
    with a minimum width of two days, [top = lane * laneHeight + 10]
    pixels and height [laneHeight - 20], the side of its tooltip and of
    the tooltip's arrow, and the tooltip's text: the name, the duration in
    days with its plural suffix, [Lane {item.lane + 1}] and the
    description when it is non-empty.

    Percentages are turned back into pixels of the canvas
    ([layer_px], [canvas_px]) to state the theorems: bars of different
    lanes never overlap vertically and stay inside the canvas height; bars
    of one lane are disjoint when the earlier one lasts at least two days,
    and the two-day minimum width makes a one-day bar overlap a bar that
    starts the next day; the ruler is drawn 32 pixels to the left of the
    grid and the bars; the last bar can overflow the canvas by 32 pixels.

    The canvas also has [minWidth: "100%"] (line 27): a scrolling
    container wider than [baseWidth] stretches it, while the percentages
    are still computed against [baseWidth].  [canvasWidth] models that
    width; the pixel theorems are stated for a canvas drawn at
    [baseWidth] (the container no wider), and C27 also covers the
    stretched canvas, where the ruler's offset only grows.  Numbers are
    exact rationals, not binary64 (see Prelude). *)

From S2P Require Import Prelude Items LaneAssigner TimelineData.
From stdpp Require Import strings.
From Stdlib Require Import QArith Qminmax Qround Lqa.

(** ** TimelineVisual *)

Definition laneHeight : Z := 60.

Definition baseWidth (totalDays : Z) (zoomLevel : Q) : Q :=
  Qmax 1200 (inject_Z totalDays * 30 * zoomLevel).

Definition timelineHeight (maxLane : Z) : Z := (maxLane + 1) * laneHeight + 100.

(** [Math.ceil(totalDays / 30)] month labels. *)
Definition monthCount (totalDays : Z) : Z := Qceiling (inject_Z totalDays / 30).

(** The ruler: percent of the canvas width. *)
Definition monthPosition (monthIndex : Z) (zoomLevel baseWidth : Q) : Q :=
  inject_Z monthIndex * 30 * 30 * zoomLevel / baseWidth * 100.

Definition dayPosition (dayIndex : Z) (zoomLevel baseWidth : Q) : Q :=
  inject_Z dayIndex * 30 * zoomLevel / baseWidth * 100.

(** The grid lines of the item layer: percent of the layer width. *)
Definition gridPosition (dayIndex : Z) (zoomLevel baseWidth : Q) : Q :=
  inject_Z dayIndex * 30 * zoomLevel / (baseWidth - 32) * 100.

(** ** TimelineItem *)

Record BarGeometry := mkBarGeometry {
  bar_left : Q;
  bar_width : Q;
  bar_top : Z;
  bar_height : Z;
  tooltipTop : string;
  tooltipLeft : string;
  arrowTop : string;
  arrowLeft : string;
  tooltip_name : string;
  tooltip_duration : Z;
  tooltip_suffix : string;
  tooltip_lane : nat;
  tooltip_description : option string
}.

Definition timelineItem (item : ItemWithLane) (startDate : date) (baseWidth zoomLevel : Q)
    (laneHeight : Z) : BarGeometry :=
  let startOffset := (TimelineData.startDate item - startDate)%Z in
  let duration := (endDate item - TimelineData.startDate item + 1)%Z in
  let calculatedWidth := inject_Z duration * 30 * zoomLevel / (baseWidth - 32) * 100 in
  let left := inject_Z startOffset * 30 * zoomLevel / (baseWidth - 32) * 100 in
  let top := (Z.of_nat (lane item) * laneHeight + 10)%Z in
  let minWidthPercentage := 2 * 30 * zoomLevel / (baseWidth - 32) * 100 in
  let width := Qmax calculatedWidth minWidthPercentage in
  let tooltipTop := if Z.ltb top 100 then "top-full mt-2" else "bottom-full mb-2" in
  let tooltipLeft :=
    if Qle_bool 25 left then
      (if Qle_bool left 75 then "left-1/2 transform -translate-x-1/2" else "right-0")
    else "left-0" in
  let arrowTop :=
    if Z.ltb top 100 then "bottom-full border-b-popover" else "top-full border-t-popover" in
  let arrowLeft :=
    if Qle_bool 25 left then
      (if Qle_bool left 75 then "left-1/2 transform -translate-x-1/2" else "right-4")
    else "left-4" in
  mkBarGeometry left (Qmax width minWidthPercentage) top (laneHeight - 20)
    tooltipTop tooltipLeft arrowTop arrowLeft
    (name (base item)) duration (pluralSuffix duration) (S (lane item))
    (shownDescription (description (base item))).

(** ** From percentages to pixels of the canvas *)

(** A percentage of the item layer, in pixels from the layer's left edge. *)
Definition layer_px (baseWidth pct : Q) : Q := pct / 100 * (baseWidth - 32).

(** A percentage of the canvas, in pixels from the canvas's left edge. *)
Definition canvas_px (baseWidth pct : Q) : Q := pct / 100 * baseWidth.

(** The width the canvas is drawn at: [width: baseWidth] with
    [minWidth: "100%"] of the scrolling container.  The percentages are
    computed against [baseWidth], the pixels against this width; the
    theorems below take the two equal (a container no wider than
    [baseWidth]) except where they name [canvasWidth]. *)
Definition canvasWidth (baseWidth containerWidth : Q) : Q := Qmax baseWidth containerWidth.

(** The pixel extent of a bar, from the canvas's left edge. *)
Definition bar_left_px (b : BarGeometry) (baseWidth : Q) : Q := 32 + layer_px baseWidth (bar_left b).
Definition bar_right_px (b : BarGeometry) (baseWidth : Q) : Q :=
  32 + layer_px baseWidth (bar_left b + bar_width b).

(** ** Concrete pages for the witnesses *)

(** A bar of one day on 2024-01-03, and the bar of the next day. *)
Definition oneDay : ItemWithLane := annotate 0 sameZ.
Definition nextDay : ItemWithLane := annotate 0 (mkItem 10 "Next day" 19726 19727 None)%Z.

(** One item of 78 days, 2024-01-01 to 2024-03-18: at zoom 1 its days
    fill more than the minimum width. *)
Definition long_item : Item := (mkItem 11 "Quarter" 19723 19800 None)%Z.
Definition long_td : TimelineData :=
  (mkTimelineData 19723 19800 78 (itemsWithLanes [[long_item]]) [[long_item]] 0)%Z.

(** ** Pixel arithmetic *)

Section Pixels.
Context (W z : Q).
Hypothesis HW : (1200 <= W)%Q.

Lemma layer_px_scaled (n : Q) : (layer_px W (n * 30 * z / (W - 32) * 100) == n * 30 * z)%Q.
Proof. unfold layer_px. field. intros H. lra. Qed.

Lemma canvas_px_scaled (n : Q) : (canvas_px W (n * 30 * z / W * 100) == n * 30 * z)%Q.
Proof. unfold canvas_px. field. intros H. lra. Qed.

Lemma layer_px_max (x y : Q) : (layer_px W (Qmax x y) == Qmax (layer_px W x) (layer_px W y))%Q.
Proof.
  unfold layer_px. symmetry. apply (Q.max_mono (λ p, p / 100 * (W - 32))).
  - intros a b Hab. by rewrite Hab.
  - intros a b Hab. simpl. apply Qmult_le_compat_r; [|lra].
    apply Qmult_le_compat_r; [exact Hab|]. by vm_compute.
Qed.

Lemma layer_px_add (x y : Q) : (layer_px W (x + y) == layer_px W x + layer_px W y)%Q.
Proof. unfold layer_px. field. Qed.
End Pixels.

(** The left and right pixel edges of a bar, from the canvas's left edge. *)
Lemma bar_px item startDate W z lh :
  (1200 <= W)%Q →
  (bar_left_px (timelineItem item startDate W z lh) W ==
     32 + inject_Z (TimelineData.startDate item - startDate) * 30 * z)%Q ∧
  (bar_right_px (timelineItem item startDate W z lh) W ==
     32 + inject_Z (TimelineData.startDate item - startDate) * 30 * z +
     Qmax (inject_Z (endDate item - TimelineData.startDate item + 1) * 30 * z) (2 * 30 * z))%Q.
Proof.
  intros HW. unfold bar_left_px, bar_right_px, timelineItem. cbn [bar_left bar_width].
  split.
  - rewrite layer_px_scaled by done. reflexivity.
  - rewrite layer_px_add, !layer_px_max, !layer_px_scaled by done.
    rewrite <- Q.max_assoc, Q.max_id. ring.
Qed.

Lemma inject_Z_sub (x y : Z) : (inject_Z (x - y) == inject_Z x - inject_Z y)%Q.
Proof. unfold inject_Z, Qminus, Qplus, Qopp, Qeq. simpl. lia. Qed.

Lemma inject_Z_le_mono (a b : Z) (z : Q) :
  (a <= b)%Z → (0 <= z)%Q → (inject_Z a * 30 * z <= inject_Z b * 30 * z)%Q.
Proof.
  intros Hab Hz. apply Qmult_le_compat_r; [|done].
  apply Qmult_le_compat_r; [by rewrite <- Zle_Qle|by vm_compute].
Qed.

Lemma inject_Z_lt_mono (a b : Z) (z : Q) :
  (a < b)%Z → (0 < z)%Q → (inject_Z a * 30 * z < inject_Z b * 30 * z)%Q.
Proof.
  intros Hab Hz. apply Qmult_lt_compat_r; [done|].
  apply Qmult_lt_compat_r; [by vm_compute|by rewrite <- Zlt_Qlt].
Qed.

(** [Math.ceil(totalDays / 30)] blocks of 30 days cover the ruler, the
    last one starting before its end. *)
Lemma monthCount_spec (T : Z) : ((monthCount T - 1) * 30 < T <= monthCount T * 30)%Z.
Proof.
  unfold monthCount.
  pose proof (Qceiling_lt (inject_Z T / 30)) as H1.
  pose proof (Qle_ceiling (inject_Z T / 30)) as H2.
  assert (inject_Z T / 30 * 30 == inject_Z T)%Q by field.
  split; [rewrite Zlt_Qlt|rewrite Zle_Qle]; rewrite inject_Z_mult;
    change (inject_Z 30) with 30%Q; unfold Qdiv in *; lra.
Qed.

Lemma scaled_split (a b c : Z) (z : Q) :
  (a + b = c)%Z → (inject_Z a * 30 * z + inject_Z b * 30 * z == inject_Z c * 30 * z)%Q.
Proof. intros <-. rewrite inject_Z_plus. ring. Qed.

(** The label of month [m] stands at the abscissa of day [30 m]. *)
Lemma monthPosition_day W z m :
  (1200 <= W)%Q →
  (canvas_px W (monthPosition m z W) == canvas_px W (dayPosition (m * 30) z W))%Q.
Proof.
  intros HW. unfold monthPosition, dayPosition.
  rewrite !canvas_px_scaled by done. rewrite inject_Z_mult. ring.
Qed.

(** C21. Bars of one lane are disjoint when the earlier item lasts at
    least two days or the later one starts at least two days after it
    ends: the earlier bar's right edge is not right of the later bar's
    left edge. *)
Theorem bars_same_lane_disjoint a b startDate W z :
  (1200 <= W)%Q → (0 < z)%Q →
  (TimelineData.startDate a <= endDate a)%Z → (endDate a < TimelineData.startDate b)%Z →
  (1 <= endDate a - TimelineData.startDate a ∨ 2 <= TimelineData.startDate b - endDate a)%Z →
  (bar_right_px (timelineItem a startDate W z laneHeight) W <=
   bar_left_px (timelineItem b startDate W z laneHeight) W)%Q.
Proof.
  intros HW Hz Hva Hab Hcase.
  destruct (bar_px a startDate W z laneHeight HW) as [_ ->].
  destruct (bar_px b startDate W z laneHeight HW) as [-> _].
  set (k := (TimelineData.startDate b - TimelineData.startDate a)%Z).
  pose proof (scaled_split (TimelineData.startDate a - startDate) k
                (TimelineData.startDate b - startDate) z ltac:(unfold k; lia)).
  enough (Qmax (inject_Z (endDate a - TimelineData.startDate a + 1) * 30 * z) (2 * 30 * z)
          <= inject_Z k * 30 * z)%Q by lra.
  apply Q.max_lub.
  - apply inject_Z_le_mono; [unfold k; lia|lra].
  - change (2 * 30 * z)%Q with (inject_Z 2 * 30 * z)%Q.
    apply inject_Z_le_mono; [unfold k; lia|lra].
Qed.

(** C22. The two-day minimum width of a bar makes a one-day item's bar
    overlap, by [30 * zoomLevel] pixels, the bar of an item of the same
    lane that starts the next day, although the two items do not overlap
    in time. *)
Theorem one_day_bar_overlaps_next a b startDate W z :
  (1200 <= W)%Q → (0 < z)%Q →
  endDate a = TimelineData.startDate a → TimelineData.startDate b = (endDate a + 1)%Z →
  (bar_right_px (timelineItem a startDate W z laneHeight) W -
   bar_left_px (timelineItem b startDate W z laneHeight) W == 30 * z)%Q ∧
  (bar_left_px (timelineItem b startDate W z laneHeight) W <
   bar_right_px (timelineItem a startDate W z laneHeight) W)%Q.
Proof.
  intros HW Hz Ha Hb.
  destruct (bar_px a startDate W z laneHeight HW) as [_ ->].
  destruct (bar_px b startDate W z laneHeight HW) as [-> _].
  rewrite Ha, Z.sub_diag, Hb, Ha.
  change (inject_Z (0 + 1)) with 1%Q.
  rewrite (Q.max_r (1 * 30 * z)) by lra.
  assert (inject_Z (TimelineData.startDate a + 1 - startDate) ==
          inject_Z (TimelineData.startDate a - startDate) + 1)%Q as E
    by (rewrite <- (inject_Z_plus _ 1); apply inject_Z_injective; lia).
  rewrite E. split; lra.
Qed.

(** ** The bars of a rendered page *)

Lemma baseWidth_ge (totalDays : Z) (z : Q) : (1200 <= baseWidth totalDays z)%Q.
Proof. apply Q.le_max_l. Qed.

(** The ruler's last day is the end of some item, and [totalDays] counts
    the days from [startDate] to it. *)
Lemma timelineData_end_attained items td :
  timelineData assignLanes items = Ok (Some td) →
  (totalDays td = td_endDate td - td_startDate td + 1)%Z ∧
  ∃ x, x ∈ items ∧ end_ x = td_endDate td.
Proof.
  intros (first & rest & lanes & -> & _ & ->)%timelineData_Some.
  cbn [totalDays td_endDate td_startDate]. split; [done|].
  destruct (reduce_max_end_spec (first :: rest) (end_ first)) as (_ & _ & [->|(x & ? & ->)]).
  - exists first. split; [constructor|done].
  - by exists x.
Qed.

(** Bars of different lanes are separated vertically: the bar of the
    lower lane ends at least 20 pixels above the bar of the higher one. *)
Lemma bars_lanes_separated iw1 iw2 startDate W z :
  (lane iw1 < lane iw2)%nat →
  (bar_top (timelineItem iw1 startDate W z laneHeight) +
   bar_height (timelineItem iw1 startDate W z laneHeight) + 20 <=
   bar_top (timelineItem iw2 startDate W z laneHeight))%Z.
Proof. intros Hl. cbn [timelineItem bar_top bar_height]. unfold laneHeight. lia. Qed.

(** C23. Every bar of a rendered page lies inside the canvas height,
    below the 48-pixel ruler: its bottom edge is at most [timelineHeight]
    from the canvas's top; and the bar of a lower lane ends at least 20
    pixels above the bar of any higher lane. *)
Theorem rendered_bars_in_height items td iw W z :
  timelineData assignLanes items = Ok (Some td) → iw ∈ td_items td →
  (48 <= 48 + bar_top (timelineItem iw (td_startDate td) W z laneHeight))%Z ∧
  (48 + bar_top (timelineItem iw (td_startDate td) W z laneHeight) +
   bar_height (timelineItem iw (td_startDate td) W z laneHeight) <=
   timelineHeight (maxLane td))%Z ∧
  (∀ iw2, iw2 ∈ td_items td → (lane iw < lane iw2)%nat →
     (bar_top (timelineItem iw (td_startDate td) W z laneHeight) +
      bar_height (timelineItem iw (td_startDate td) W z laneHeight) + 20 <=
      bar_top (timelineItem iw2 (td_startDate td) W z laneHeight))%Z).
Proof.
  intros Hrun Hiw.
  destruct (timelineData_items_in_range assignLanes items td Hrun iw Hiw) as [_ Hl].
  destruct (page_run items td Hrun) as (_ & _ & Hmax).
  split_and!; [| |intros iw2 _; apply bars_lanes_separated];
    cbn [timelineItem bar_top bar_height]; rewrite ?Hmax; unfold timelineHeight, laneHeight; lia.
Qed.

(** C24. Every bar of a rendered page starts right of the 32-pixel left
    margin, and ends at most [totalDays + 1] days' widths right of it (one
    day more than the ruler, for a one-day item on the last day). *)
Theorem rendered_bars_on_ruler items td iw z :
  timelineData assignLanes items = Ok (Some td) → (0 < z)%Q → iw ∈ td_items td →
  (32 <= bar_left_px (timelineItem iw (td_startDate td) (baseWidth (totalDays td) z) z laneHeight)
           (baseWidth (totalDays td) z))%Q ∧
  (bar_right_px (timelineItem iw (td_startDate td) (baseWidth (totalDays td) z) z laneHeight)
     (baseWidth (totalDays td) z) <= 32 + inject_Z (totalDays td + 1) * 30 * z)%Q.
Proof.
  intros Hrun Hz Hiw.
  destruct (timelineData_items_in_range assignLanes items td Hrun iw Hiw) as [Hr _].
  set (W := baseWidth (totalDays td) z).
  destruct (bar_px iw (td_startDate td) W z laneHeight (baseWidth_ge _ _)) as [-> ->].
  set (o := (TimelineData.startDate iw - td_startDate td)%Z).
  pose proof (scaled_split o (totalDays td + 1 - o) (totalDays td + 1) z ltac:(lia)).
  split.
  - assert (inject_Z 0 * 30 * z == 0)%Q by ring.
    enough (inject_Z 0 * 30 * z <= inject_Z o * 30 * z)%Q by lra.
    apply inject_Z_le_mono; [lia|lra].
  - enough (Qmax (inject_Z (endDate iw - TimelineData.startDate iw + 1) * 30 * z) (2 * 30 * z)
            <= inject_Z (totalDays td + 1 - o) * 30 * z)%Q by lra.
    apply Q.max_lub; [|change (2 * 30 * z)%Q with (inject_Z 2 * 30 * z)%Q];
      apply inject_Z_le_mono; unfold o; lia || lra.
Qed.

(** C25. When the days fill the minimum width ([totalDays * 30 * zoomLevel
    >= 1200]), the bar of an item ending on the ruler's last day ends at
    least 32 pixels right of the canvas's right edge: the item layer is
    shifted 32 pixels right but its percentages are of [baseWidth - 32]
    pixels measured from 32, so it ends at [baseWidth + 32]. *)
Theorem rendered_last_bar_overflows items td z :
  timelineData assignLanes items = Ok (Some td) → (0 < z)%Q →
  (1200 <= inject_Z (totalDays td) * 30 * z)%Q →
  ∃ iw, iw ∈ td_items td ∧ endDate iw = td_endDate td ∧
    (baseWidth (totalDays td) z + 32 <=
     bar_right_px (timelineItem iw (td_startDate td) (baseWidth (totalDays td) z) z laneHeight)
       (baseWidth (totalDays td) z))%Q.
Proof.
  intros Hrun Hz Hfill.
  destruct (timelineData_end_attained items td Hrun) as [HT (x & Hx & Hxe)].
  destruct (rendered_item_of items td x Hrun Hx) as (iw & j & l & Hiw & _ & _ & Hiwx).
  destruct (timelineData_items_in_range assignLanes items td Hrun iw Hiw) as [Hr _].
  assert (endDate iw = td_endDate td) as He by (rewrite Hiwx; exact Hxe).
  exists iw. split_and!; [done|done|].
  set (W := baseWidth (totalDays td) z).
  assert (W == inject_Z (totalDays td) * 30 * z)%Q as HW by (apply Q.max_r; exact Hfill).
  destruct (bar_px iw (td_startDate td) W z laneHeight (baseWidth_ge _ _)) as [_ ->].
  pose proof (scaled_split (TimelineData.startDate iw - td_startDate td)
                (endDate iw - TimelineData.startDate iw + 1) (totalDays td) z ltac:(lia)).
  pose proof (Q.le_max_l (inject_Z (endDate iw - TimelineData.startDate iw + 1) * 30 * z)
                (2 * 30 * z)).
  lra.
Qed.

(** A canvas stretched by its container to [R >= W] pixels moves the
    layer's positions, computed against [W - 32], further right than the
    ruler's, computed against [W]. *)
Lemma wide_canvas_offset W z cw i :
  (1200 <= W)%Q → (0 <= inject_Z i * z)%Q →
  (canvas_px (canvasWidth W cw) (dayPosition i z W) + 32 <=
   32 + layer_px (canvasWidth W cw) (gridPosition i z W))%Q.
Proof.
  intros HW Hiz. unfold canvasWidth, canvas_px, layer_px, dayPosition, gridPosition.
  set (R := Qmax W cw). assert (W <= R)%Q as HR by apply Q.le_max_l.
  set (t := (inject_Z i * z)%Q).
  assert (inject_Z i * 30 * z / (W - 32) * 100 / 100 * (R - 32) -
          inject_Z i * 30 * z / W * 100 / 100 * R ==
          t * 30 * 32 * (R - W) / (W * (W - 32)))%Q as E
    by (subst t; field; split; intros ?; lra).
  assert (0 <= t)%Q as Ht by exact Hiz. clearbody t.
  assert (0 <= t * 30 * 32 * (R - W) / (W * (W - 32)))%Q.
  { apply Qle_shift_div_l; [apply Qmult_lt_0_compat; lra|].
    rewrite Qmult_0_l. repeat apply Qmult_le_0_compat; lra. }
  lra.
Qed.

(** C26. The ruler and the item layer place day [i] at different
    abscissas: the ruler's label of day [i] is at [i * 30 * zoomLevel]
    pixels from the canvas's left edge, and the grid line of day [i], where
    the bar of an item starting on day [i] begins, is 32 pixels further
    right.  A month label stands over the label of its first day.  When
    the container is wider than [baseWidth] and stretches the canvas, the
    grid line of a day on or after the start is at least 32 pixels right
    of its label. *)
Theorem ruler_grid_offset W z :
  (1200 <= W)%Q →
  (∀ i, 32 + layer_px W (gridPosition i z W) == canvas_px W (dayPosition i z W) + 32)%Q ∧
  (∀ m, canvas_px W (monthPosition m z W) == canvas_px W (dayPosition (m * 30) z W))%Q ∧
  (∀ iw S, bar_left_px (timelineItem iw S W z laneHeight) W ==
           32 + layer_px W (gridPosition (TimelineData.startDate iw - S) z W))%Q ∧
  (∀ cw i, 0 <= inject_Z i * z →
     canvas_px (canvasWidth W cw) (dayPosition i z W) + 32 <=
     32 + layer_px (canvasWidth W cw) (gridPosition i z W))%Q.
Proof.
  intros HW. split_and!; [| | |intros cw i; by apply wide_canvas_offset].
  - intros i. unfold gridPosition, dayPosition.
    rewrite layer_px_scaled, canvas_px_scaled by done. ring.
  - intros m. by apply monthPosition_day.
  - intros iw S. destruct (bar_px iw S W z laneHeight HW) as [-> _].
    unfold gridPosition. rewrite layer_px_scaled by done. reflexivity.
Qed.

(** C27. Every label of the ruler is inside the canvas: the [totalDays]
    day labels and the [Math.ceil(totalDays / 30)] month labels all start
    at least 0 and less than [baseWidth] pixels from its left edge, and
    the month labels, one per 30-day block, cover every day. *)
Theorem ruler_in_canvas (T : Z) (z : Q) :
  (0 < z)%Q →
  (∀ i, (0 <= i < T)%Z →
     0 <= canvas_px (baseWidth T z) (dayPosition i z (baseWidth T z)) < baseWidth T z)%Q ∧
  (∀ m, (0 <= m < monthCount T)%Z →
     0 <= canvas_px (baseWidth T z) (monthPosition m z (baseWidth T z)) < baseWidth T z)%Q ∧
  ((monthCount T - 1) * 30 < T <= monthCount T * 30)%Z.
Proof.
  intros Hz. pose proof (Q.le_max_r 1200 (inject_Z T * 30 * z)) as HWT.
  fold (baseWidth T z) in HWT.
  assert (∀ i, (0 <= i < T)%Z →
            0 <= canvas_px (baseWidth T z) (dayPosition i z (baseWidth T z)) < baseWidth T z)%Q
    as Hday.
  { intros i Hi. unfold dayPosition. rewrite canvas_px_scaled by apply baseWidth_ge.
    assert (inject_Z 0 * 30 * z == 0)%Q by ring.
    pose proof (inject_Z_le_mono 0 i z ltac:(lia) ltac:(lra)).
    pose proof (inject_Z_lt_mono i T z ltac:(lia) Hz). lra. }
  pose proof (monthCount_spec T) as HM.
  split; [exact Hday|split; [|exact HM]].
  intros m Hm. rewrite monthPosition_day by apply baseWidth_ge.
  apply Hday. lia.
Qed.

(** The tooltip and its arrow open below the bar for lanes 0 and 1
    ([top < 100] pixels) and above it from lane 2 on. *)
Theorem tooltip_side iw startDate W z :
  tooltipTop (timelineItem iw startDate W z laneHeight) =
    (if (lane iw <=? 1)%nat then "top-full mt-2" else "bottom-full mb-2") ∧
  arrowTop (timelineItem iw startDate W z laneHeight) =
    (if (lane iw <=? 1)%nat then "bottom-full border-b-popover" else "top-full border-t-popover").
Proof.
  cbn [timelineItem tooltipTop arrowTop]. unfold laneHeight.
  destruct (Nat.leb_spec (lane iw) 1); case_Z; done || lia.
Qed.

(** ** Witnesses *)

Lemma bars_same_lane_disjoint_witness :
  (bar_right_px (timelineItem (annotate 0 itemA) 19723%Z 1200 1 laneHeight) 1200 <=
   bar_left_px (timelineItem (annotate 0 itemC) 19723%Z 1200 1 laneHeight) 1200)%Q.
Proof.
  apply bars_same_lane_disjoint; [apply Qle_refl|reflexivity|simpl; lia..].
Defined.

Lemma one_day_bar_overlaps_next_witness :
  (bar_right_px (timelineItem oneDay 19723%Z 1200 1 laneHeight) 1200 -
   bar_left_px (timelineItem nextDay 19723%Z 1200 1 laneHeight) 1200 == 30 * 1)%Q ∧
  (bar_left_px (timelineItem nextDay 19723%Z 1200 1 laneHeight) 1200 <
   bar_right_px (timelineItem oneDay 19723%Z 1200 1 laneHeight) 1200)%Q.
Proof. apply one_day_bar_overlaps_next; [apply Qle_refl|reflexivity..]. Defined.

Lemma rendered_bars_in_height_witness :
  (48 <= 48 + bar_top (timelineItem (annotate 1 itemB) (td_startDate sample_td) 1200 1 laneHeight))%Z ∧
  (48 + bar_top (timelineItem (annotate 1 itemB) (td_startDate sample_td) 1200 1 laneHeight) +
   bar_height (timelineItem (annotate 1 itemB) (td_startDate sample_td) 1200 1 laneHeight) <=
   timelineHeight (maxLane sample_td))%Z ∧
  (∀ iw2, iw2 ∈ td_items sample_td → (lane (annotate 1 itemB) < lane iw2)%nat →
     (bar_top (timelineItem (annotate 1 itemB) (td_startDate sample_td) 1200 1 laneHeight) +
      bar_height (timelineItem (annotate 1 itemB) (td_startDate sample_td) 1200 1 laneHeight) + 20 <=
      bar_top (timelineItem iw2 (td_startDate sample_td) 1200 1 laneHeight))%Z).
Proof.
  apply (rendered_bars_in_height sample_items); [reflexivity|].
  apply elem_of_itemsWithLanes. exists 1%nat, [itemB], itemB. split_and!; [done|constructor|done].
Defined.

Lemma rendered_bars_on_ruler_witness :
  (32 <= bar_left_px (timelineItem (annotate 0 itemC) (td_startDate sample_td)
                        (baseWidth (totalDays sample_td) 1) 1 laneHeight)
           (baseWidth (totalDays sample_td) 1))%Q ∧
  (bar_right_px (timelineItem (annotate 0 itemC) (td_startDate sample_td)
                   (baseWidth (totalDays sample_td) 1) 1 laneHeight)
     (baseWidth (totalDays sample_td) 1) <= 32 + inject_Z (totalDays sample_td + 1) * 30 * 1)%Q.
Proof.
  apply (rendered_bars_on_ruler sample_items); [reflexivity|reflexivity|].
  apply elem_of_itemsWithLanes. exists 0%nat, [itemA; itemC], itemC.
  split_and!; [done|by right; left|done].
Defined.

Lemma rendered_last_bar_overflows_witness :
  timelineData assignLanes [long_item] = Ok (Some long_td) ∧
  ∃ iw, iw ∈ td_items long_td ∧ endDate iw = td_endDate long_td ∧
    (baseWidth (totalDays long_td) 1 + 32 <=
     bar_right_px (timelineItem iw (td_startDate long_td) (baseWidth (totalDays long_td) 1) 1
                     laneHeight) (baseWidth (totalDays long_td) 1))%Q.
Proof.
  assert (timelineData assignLanes [long_item] = Ok (Some long_td)) as H by reflexivity.
  split; [exact H|]. apply (rendered_last_bar_overflows [long_item]); [exact H|reflexivity|].
  by vm_compute.
Defined.

Lemma ruler_grid_offset_witness :
  (∀ i, 32 + layer_px 1200 (gridPosition i 1 1200) == canvas_px 1200 (dayPosition i 1 1200) + 32)%Q ∧
  (∀ m, canvas_px 1200 (monthPosition m 1 1200) == canvas_px 1200 (dayPosition (m * 30) 1 1200))%Q ∧
  (∀ iw S, bar_left_px (timelineItem iw S 1200 1 laneHeight) 1200 ==
           32 + layer_px 1200 (gridPosition (TimelineData.startDate iw - S) 1 1200))%Q ∧
  (∀ cw i, 0 <= inject_Z i * 1 →
     canvas_px (canvasWidth 1200 cw) (dayPosition i 1 1200) + 32 <=
     32 + layer_px (canvasWidth 1200 cw) (gridPosition i 1 1200))%Q.
Proof. apply ruler_grid_offset. apply Qle_refl. Defined.

Lemma ruler_in_canvas_witness :
  (∀ i, (0 <= i < 6)%Z →
     0 <= canvas_px (baseWidth 6 1) (dayPosition i 1 (baseWidth 6 1)) < baseWidth 6 1)%Q ∧
  (∀ m, (0 <= m < monthCount 6)%Z →
     0 <= canvas_px (baseWidth 6 1) (monthPosition m 1 (baseWidth 6 1)) < baseWidth 6 1)%Q ∧
  ((monthCount 6 - 1) * 30 < 6 <= monthCount 6 * 30)%Z.
Proof. apply ruler_in_canvas. reflexivity. Defined.
