(* ===== verification/Panels.v ===== *)
(** * The lane panel and the item dialog

    [LaneInfoPanel] (src/src/components/LaneInfoPanel/lane-info-panel.jsx)
    lists the lanes as cards: a header "[lanes.length] lanes for
    [itemsWithLanes.length] items", then for each lane its number
    [laneIndex + 1], its item count with a plural suffix, and one line per
    item whose border colour is found by
    [itemsWithLanes.find((i) => i.id === item.id)]; a click on a line calls
    [onItemClick(item.id)].

    [TimelineItemDialog]
    (src/src/components/TimelineItemDialog/timeline-item-dialog.jsx) looks
    the selected id up in the flat list of items with
    [items.find((i) => i.id === selectedItem)], shows its name, dates,
    duration in days and (when it is a non-empty string) its description,
    and reports a close request through [onOpenChange].

    The views are records of what the components display; the texts of the
    dates ([format]) are not modelled, the dates are.  The theorems relate
    these views to the layout builder and to the page state: the counts of
    the panel, the colour of each line against the colour of the item's
    bar, the item and duration the dialog shows for the selected id, and
    closing the dialog. *)

From S2P Require Import Prelude Items LaneAssigner TimelineData PageState Geometry.
From stdpp Require Import strings sets.

(** ** LaneInfoPanel *)

(** A line of a lane card: [item.name], the two dates and
    [itemWithLane?.borderColor]. *)
Record PanelEntry := mkPanelEntry {
  entry_id : Z;
  entry_name : string;
  entry_start : date;
  entry_end : date;
  entry_borderColor : option string
}.

(** A lane card: ["Lane " + (laneIndex + 1)], [lane.length] and the
    suffix of ["item"], and the lines. *)
Record LaneCard := mkLaneCard {
  card_number : nat;
  card_count : nat;
  card_suffix : string;
  card_entries : list PanelEntry
}.

Record PanelView := mkPanelView {
  panel_laneCount : nat;
  panel_itemCount : nat;
  panel_cards : list LaneCard
}.

(** [itemsWithLanes.find((i) => i.id === item.id)] *)
Definition findWithLane (itemsWithLanes : list ItemWithLane) (itemId : Z) : option ItemWithLane :=
  List.find (λ i, Z.eqb (id (base i)) itemId) itemsWithLanes.

Definition panelEntry (itemsWithLanes : list ItemWithLane) (item : Item) : PanelEntry :=
  let itemWithLane := findWithLane itemsWithLanes (id item) in
  mkPanelEntry (id item) (name item) (start item) (end_ item) (borderColor <$> itemWithLane).

Definition laneCard (itemsWithLanes : list ItemWithLane) (laneIndex : nat) (lane : Lane)
    : LaneCard :=
  mkLaneCard (laneIndex + 1) (length lane) (pluralSuffix (Z.of_nat (length lane)))
    (panelEntry itemsWithLanes <$> lane).

(** [lanes.map((lane, laneIndex) => ...)] *)
Definition laneInfoPanel (lanes : list Lane) (itemsWithLanes : list ItemWithLane) : PanelView :=
  mkPanelView (length lanes) (length itemsWithLanes) (imap (laneCard itemsWithLanes) lanes).

(** [onClick={() => onItemClick(item.id)}]: the page's [handleItemClick]. *)
Definition panelClick (e : PanelEntry) : Event := ClickItem (entry_id e).

(** ** TimelineItemDialog *)

Record DialogContent := mkDialogContent {
  dlg_name : string;
  dlg_start : date;
  dlg_end : date;
  dlg_duration : Z;
  dlg_suffix : string;
  dlg_description : option string
}.

Record DialogView := mkDialogView {
  dlg_open : bool;
  dlg_content : option DialogContent
}.

(** [items.find((i) => i.id === selectedItem)]; no id equals [null]. *)
Definition findItem (items : list Item) (selectedItem : option Z) : option Item :=
  match selectedItem with
  | None => None
  | Some k => List.find (λ i, Z.eqb (id i) k) items
  end.

(** [item ? differenceInDays(end, start) + 1 : 0] *)
Definition dialogDuration (item : option Item) : Z :=
  match item with
  | Some it => (end_ it - start it + 1)%Z
  | None => 0%Z
  end.

Definition timelineItemDialog (modalOpen : bool) (selectedItem : option Z) (items : list Item)
    : DialogView :=
  let item := findItem items selectedItem in
  let duration := dialogDuration item in
  mkDialogView modalOpen
    ((λ it, mkDialogContent (name it) (start it) (end_ it) duration (pluralSuffix duration)
              (shownDescription (description it))) <$> item).

(** [onOpenChange={(open) => !open && onModalClose()}] *)
Definition dialogOpenChange (open : bool) : option Event :=
  if open then None else Some CloseModal.

(** The dialog as the page renders it (timeline.jsx lines 172-177). *)
Definition pageDialog (s : PageState) (items : list Item) : DialogView :=
  timelineItemDialog (modalOpen s) (selectedItem s) items.

(** Ids are unique, as the spec requires of the data. *)
Definition ids_unique (items : list Item) : Prop := NoDup (id <$> items).

(** ** Pages for the witnesses *)

(** A 14-day task that reuses the id of [itemA], against the spec's
    requirement of unique ids. *)
Definition dupLong : Item := mkItem 1%Z "Long" 19727%Z 19740%Z (Some "two weeks").
Definition dup_items : list Item := [itemA; dupLong].
Definition dup_td : TimelineData :=
  mkTimelineData 19723%Z 19740%Z 18%Z (itemsWithLanes [[itemA; dupLong]])
    [[itemA; dupLong]] 0%Z.

(** The page state after clicking item B. *)
Definition b_selected : PageState := handle page_init (ClickItem 2%Z).

(** ** Lemmas *)

Lemma length_concat_sum {A} (L : list (list A)) : length (concat L) = sum_list (length <$> L).
Proof. induction L as [|l L IH]; [done|]. cbn. rewrite length_app, IH. done. Qed.

Lemma pluralSuffix_empty (n : Z) : pluralSuffix n = "" ↔ n = 1%Z.
Proof. unfold pluralSuffix. destruct (Z.eqb_spec n 1); split; done || discriminate. Qed.

Lemma panel_cards_lookup lanes iws j c :
  imap (laneCard iws) lanes !! j = Some c ↔ ∃ l, lanes !! j = Some l ∧ c = laneCard iws j l.
Proof.
  rewrite list_lookup_imap. destruct (lanes !! j) as [l|]; cbn; [|split; [done|by intros (? & ? & _)]].
  split; [intros [= <-]; by exists l|by intros (? & [= <-] & ->)].
Qed.

(** The items of the lanes are the items of the page. *)
Lemma rendered_lane_member items td j l x :
  timelineData assignLanes items = Ok (Some td) →
  td_lanes td !! j = Some l → x ∈ l → x ∈ items.
Proof.
  intros Hrun Hj Hx. destruct (page_run items td Hrun) as (Ha & _ & _).
  rewrite <- (contract_perm _ _ Ha). apply list_elem_of_In, in_concat. exists l.
  split; apply list_elem_of_In; [by eapply list_elem_of_lookup_2|done].
Qed.

(** With unique ids, the annotated items of a page have unique ids. *)
Lemma rendered_ids_unique items td :
  timelineData assignLanes items = Ok (Some td) → ids_unique items →
  NoDup ((λ i, id (base i)) <$> td_items td).
Proof.
  intros Hrun Hu. destruct (page_run items td Hrun) as (Ha & -> & _).
  change ((λ i, id (base i)) <$> ?l) with ((id ∘ base) <$> l).
  rewrite list_fmap_compose. unfold itemsWithLanes. rewrite base_push_lanes. cbn.
  by rewrite (contract_perm _ _ Ha).
Qed.

(** A rendered page annotates as many items as it was given. *)
Lemma rendered_items_length items td :
  timelineData assignLanes items = Ok (Some td) → length (td_items td) = length items.
Proof.
  intros Hrun. destruct (page_run items td Hrun) as (Ha & -> & _).
  rewrite <- (length_fmap base). unfold itemsWithLanes.
  rewrite base_push_lanes. cbn. by rewrite (contract_perm _ _ Ha).
Qed.

(** The panel's [find] returns the annotation of the item itself. *)
Lemma findWithLane_rendered items td x :
  timelineData assignLanes items = Ok (Some td) → ids_unique items → x ∈ items →
  ∃ j, findWithLane (td_items td) (id x) = Some (annotate j x).
Proof.
  intros Hrun Hu Hx.
  destruct (rendered_item_of items td x Hrun Hx) as (iw & j & l & Hiw & _ & _ & ->).
  exists j. unfold findWithLane. change (id x) with (id (base (annotate j x))).
  apply (find_unique_key (λ i, id (base i))); [by eapply rendered_ids_unique|done].
Qed.

(** The dialog's [find] returns the item of the selected id. *)
Lemma findItem_unique items x :
  ids_unique items → x ∈ items → findItem items (Some (id x)) = Some x.
Proof. intros Hu Hx. by apply (find_unique_key id). Qed.

(** ** The panel of a rendered page *)

(** C28. The panel's counts: as many cards as rows ([maxLane + 1]), the
    header counts every item once, the cards' counts add up to the number
    of items, card [j] is titled [j + 1], and a card says "item" exactly
    when it holds one item. *)
Theorem panel_summary items td :
  timelineData assignLanes items = Ok (Some td) →
  Z.of_nat (panel_laneCount (laneInfoPanel (td_lanes td) (td_items td))) = (maxLane td + 1)%Z ∧
  panel_itemCount (laneInfoPanel (td_lanes td) (td_items td)) = length items ∧
  sum_list (card_count <$> panel_cards (laneInfoPanel (td_lanes td) (td_items td))) =
    length items ∧
  ∀ j c, panel_cards (laneInfoPanel (td_lanes td) (td_items td)) !! j = Some c →
    card_number c = S j ∧ card_count c = length (card_entries c) ∧
    (card_suffix c = "" ↔ card_count c = 1).
Proof.
  intros Hrun. destruct (page_run items td Hrun) as (Ha & Hitems & Hmax).
  pose proof (contract_perm _ _ Ha) as Hp. cbn [laneInfoPanel panel_laneCount
    panel_itemCount panel_cards].
  split_and!.
  - lia.
  - by apply rendered_items_length.
  - rewrite fmap_imap, (imap_ext _ (const length)) by done.
    by rewrite imap_const, <- length_concat_sum, Hp.
  - intros j c (l & _ & ->)%panel_cards_lookup. cbn.
    rewrite length_fmap, pluralSuffix_empty. split_and!; [lia|done|lia].
Qed.

(** C29. With unique ids, each line of card [j] shows the item with the
    border colour of its bar, and that bar is drawn in lane [j]: the
    panel's [find] by id picks the item's own annotation. *)
Theorem panel_line_colors items td :
  timelineData assignLanes items = Ok (Some td) → ids_unique items →
  ∀ j c e, panel_cards (laneInfoPanel (td_lanes td) (td_items td)) !! j = Some c →
    e ∈ card_entries c →
    ∃ iw, iw ∈ td_items td ∧ lane iw = j ∧ entry_id e = id (base iw) ∧
      entry_name e = name (base iw) ∧ entry_borderColor e = Some (borderColor iw).
Proof.
  intros Hrun Hu j c e (l & Hj & ->)%panel_cards_lookup He.
  apply list_elem_of_fmap in He as (x & -> & Hx).
  pose proof (rendered_lane_member items td j l x Hrun Hj Hx) as Hxi.
  destruct (findWithLane_rendered items td x Hrun Hu Hxi) as [j' Hf].
  exists (annotate j x). split_and!; [|done..|].
  - destruct (page_run items td Hrun) as (_ & -> & _).
    apply elem_of_itemsWithLanes. by exists j, l, x.
  - cbn. by rewrite Hf.
Qed.

(** C31. The three views of an item agree: the tooltip of its bar names
    the lane card that lists it ([Lane n] is card [n]), whose line has the
    bar's border colour, and the tooltip shows the same name, duration,
    plural suffix and description as the item's dialog. *)
Theorem views_agree items td iw W z :
  timelineData assignLanes items = Ok (Some td) → ids_unique items → iw ∈ td_items td →
  (∃ c e, panel_cards (laneInfoPanel (td_lanes td) (td_items td))
            !! pred (tooltip_lane (timelineItem iw (td_startDate td) W z laneHeight)) = Some c ∧
     card_number c = tooltip_lane (timelineItem iw (td_startDate td) W z laneHeight) ∧
     e ∈ card_entries c ∧ entry_id e = id (base iw) ∧ entry_borderColor e = Some (borderColor iw)) ∧
  dlg_content (timelineItemDialog true (Some (id (base iw))) items) =
    Some (mkDialogContent (tooltip_name (timelineItem iw (td_startDate td) W z laneHeight))
            (TimelineData.startDate iw) (endDate iw)
            (tooltip_duration (timelineItem iw (td_startDate td) W z laneHeight))
            (tooltip_suffix (timelineItem iw (td_startDate td) W z laneHeight))
            (tooltip_description (timelineItem iw (td_startDate td) W z laneHeight))).
Proof.
  intros Hrun Hu Hiw.
  destruct (page_run items td Hrun) as (_ & Hitems & _).
  rewrite Hitems in Hiw. apply elem_of_itemsWithLanes in Hiw as (j & l & x & Hj & Hx & ->).
  pose proof (rendered_lane_member items td j l x Hrun Hj Hx) as Hxi.
  destruct (findWithLane_rendered items td x Hrun Hu Hxi) as [j' Hf].
  split.
  - exists (laneCard (td_items td) j l), (panelEntry (td_items td) x). cbn.
    split_and!; [|lia|by apply list_elem_of_fmap_2|done|by rewrite Hf].
    apply panel_cards_lookup. by exists l.
  - change (id (base (annotate j x))) with (id x).
    unfold timelineItemDialog. rewrite findItem_unique by done. done.
Qed.

(** ** The dialog *)

(** C30. With unique ids, the dialog of a page whose selected id is the
    id of an item shows that item: its name, dates, shown description and
    its duration in days, at least 1, with "day" exactly when it starts
    and ends on the same day; it is open as [modalOpen] says. *)
Theorem dialog_shows_item s items x :
  ids_unique items → x ∈ items → valid x → selectedItem s = Some (id x) →
  pageDialog s items =
    mkDialogView (modalOpen s)
      (Some (mkDialogContent (name x) (start x) (end_ x) (end_ x - start x + 1)
               (pluralSuffix (end_ x - start x + 1)) (shownDescription (description x)))) ∧
  (1 <= end_ x - start x + 1)%Z ∧
  (pluralSuffix (end_ x - start x + 1) = "" ↔ start x = end_ x).
Proof.
  intros Hu Hx Hv Hs. unfold pageDialog, timelineItemDialog.
  rewrite Hs, findItem_unique by done. unfold valid in Hv.
  split_and!; [done|lia|]. rewrite pluralSuffix_empty. lia.
Qed.

(** Clicking a line of the panel selects its item and the dialog
    then shows that item, with the name the line shows; the dialog opens
    unless the id is 0.  This holds from any state where that item is not
    already selected. *)
Lemma panel_click_shows_item items td s j c e :
  timelineData assignLanes items = Ok (Some td) → ids_unique items →
  panel_cards (laneInfoPanel (td_lanes td) (td_items td)) !! j = Some c →
  e ∈ card_entries c → selectedItem s ≠ Some (entry_id e) →
  selectedItem (handle s (panelClick e)) = Some (entry_id e) ∧
  dlg_open (pageDialog (handle s (panelClick e)) items) = negb (Z.eqb (entry_id e) 0) ∧
  ∃ x, x ∈ items ∧ entry_id e = id x ∧ entry_name e = name x ∧
    dlg_content (pageDialog (handle s (panelClick e)) items) =
      Some (mkDialogContent (name x) (start x) (end_ x) (end_ x - start x + 1)
              (pluralSuffix (end_ x - start x + 1)) (shownDescription (description x))).
Proof.
  intros Hrun Hu (l & Hj & ->)%panel_cards_lookup He Hne.
  apply list_elem_of_fmap in He as (x & -> & Hx).
  pose proof (rendered_lane_member items td j l x Hrun Hj Hx) as Hxi.
  assert (selectedItem (handle s (panelClick (panelEntry (td_items td) x))) = Some (id x))
    as Hsel.
  { cbn. unfold handleItemClick. by rewrite decide_False. }
  split_and!; [done| |].
  - unfold pageDialog, modalOpen. by rewrite Hsel.
  - exists x. split_and!; [done..|]. unfold pageDialog, timelineItemDialog.
    by rewrite Hsel, findItem_unique.
Qed.

(** Closing the dialog: [onOpenChange(false)] asks the page to
    close it and [onOpenChange(true)] does nothing; from an open dialog the
    close leaves the dialog closed and empty, a second close changes
    nothing, and clicking an item (of nonzero id) afterwards opens the
    dialog on that item. *)
Lemma dialog_close s items x :
  modalOpen s = true → ids_unique items → x ∈ items → id x ≠ 0%Z →
  dialogOpenChange false = Some CloseModal ∧ dialogOpenChange true = None ∧
  pageDialog (handle s CloseModal) items = mkDialogView false None ∧
  handle (handle s CloseModal) CloseModal = handle s CloseModal ∧
  pageDialog (handle (handle s CloseModal) (ClickItem (id x))) items =
    mkDialogView true
      (Some (mkDialogContent (name x) (start x) (end_ x) (end_ x - start x + 1)
               (pluralSuffix (end_ x - start x + 1)) (shownDescription (description x)))).
Proof.
  intros Hopen Hu Hx Hid.
  assert (selectedItem (handle (handle s CloseModal) (ClickItem (id x))) = Some (id x))
    as Hsel by (cbn; by rewrite Hopen).
  split_and!; [done|done|cbn; by rewrite Hopen|cbn; by rewrite Hopen|].
  unfold pageDialog, timelineItemDialog, modalOpen. rewrite Hsel, findItem_unique by done.
  by destruct (Z.eqb_spec (id x) 0).
Qed.

(** C35. Ids that are not unique confuse both lookups.  On a rendered
    page, two items [x] and [y] with the same id get the same border
    colour on their panel lines, the colour of one bar of the page with
    that id; so when their own bars have different colours, one of the
    two lines shows a colour that is not its bar's.  And when [x] is the
    first item of the list with that id, selecting [y] opens the dialog
    of [x]: [findItem] returns [x] and the dialog prints [x]'s name. *)
Theorem duplicate_ids_confuse_lookups items td x y :
  timelineData assignLanes items = Ok (Some td) → x ∈ items → y ∈ items → id x = id y →
  (∃ iw, iw ∈ td_items td ∧ id (base iw) = id x ∧
     entry_borderColor (panelEntry (td_items td) x) = Some (borderColor iw) ∧
     entry_borderColor (panelEntry (td_items td) y) = Some (borderColor iw)) ∧
  (∀ i j, borderColor (annotate i x) ≠ borderColor (annotate j y) →
     entry_borderColor (panelEntry (td_items td) x) ≠ Some (borderColor (annotate i x)) ∨
     entry_borderColor (panelEntry (td_items td) y) ≠ Some (borderColor (annotate j y))) ∧
  (∀ pre post, items = pre ++ x :: post → Forall (λ i, id i ≠ id x) pre →
     findItem items (Some (id y)) = Some x ∧
     (dlg_name <$> dlg_content (timelineItemDialog true (Some (id y)) items)) = Some (name x)).
Proof.
  intros Hrun Hx Hy Hid.
  assert (∀ z, id z = id x →
            entry_borderColor (panelEntry (td_items td) z) =
            borderColor <$> findWithLane (td_items td) (id x)) as Hline
    by (intros z Hz; cbn; by rewrite Hz).
  destruct (rendered_item_of items td x Hrun Hx) as (iw & j & l & Hiw & _ & _ & ->).
  destruct (find_key_some (λ i, id (base i)) (td_items td) _ Hiw) as (iw' & Hf & Hiw' & Hk).
  change (id (base (annotate j x))) with (id x) in Hf, Hk.
  unfold findWithLane in Hline. rewrite Hf in Hline.
  assert (Hx' : entry_borderColor (panelEntry (td_items td) x) = Some (borderColor iw'))
    by (apply Hline; done).
  assert (Hy' : entry_borderColor (panelEntry (td_items td) y) = Some (borderColor iw'))
    by (apply Hline; done).
  split_and!; [by exists iw'| |].
  - intros i j' Hne. rewrite Hx', Hy'.
    destruct (decide (borderColor iw' = borderColor (annotate i x))) as [E|n]; [|left; by intros ?%(inj Some)].
    right. intros E'%(inj Some). apply Hne. congruence.
  - intros pre post -> Hpre.
    assert (findItem (pre ++ x :: post) (Some (id y)) = Some x) as Hfx.
    { cbn [findItem]. rewrite <- Hid. apply find_first; [|apply Z.eqb_refl].
      eapply Forall_impl; [exact Hpre|]. intros i Hi. cbn. by apply Z.eqb_neq. }
    split; [done|]. unfold timelineItemDialog. by rewrite Hfx.
Qed.


(** ** Witnesses *)

Lemma panel_summary_witness :
  timelineData assignLanes sample_items = Ok (Some sample_td) ∧
  Z.of_nat (panel_laneCount (laneInfoPanel (td_lanes sample_td) (td_items sample_td))) =
    (maxLane sample_td + 1)%Z ∧
  panel_itemCount (laneInfoPanel (td_lanes sample_td) (td_items sample_td)) = length sample_items ∧
  sum_list (card_count <$> panel_cards (laneInfoPanel (td_lanes sample_td) (td_items sample_td))) =
    length sample_items ∧
  ∀ j c, panel_cards (laneInfoPanel (td_lanes sample_td) (td_items sample_td)) !! j = Some c →
    card_number c = S j ∧ card_count c = length (card_entries c) ∧
    (card_suffix c = "" ↔ card_count c = 1).
Proof.
  assert (timelineData assignLanes sample_items = Ok (Some sample_td)) as H by reflexivity.
  split; [exact H|]. exact (panel_summary sample_items sample_td H).
Defined.

Lemma panel_line_colors_witness :
  ∃ iw, iw ∈ td_items sample_td ∧ lane iw = 1 ∧
    entry_id (panelEntry (td_items sample_td) itemB) = id (base iw) ∧
    entry_name (panelEntry (td_items sample_td) itemB) = name (base iw) ∧
    entry_borderColor (panelEntry (td_items sample_td) itemB) = Some (borderColor iw).
Proof.
  apply (panel_line_colors sample_items sample_td ltac:(reflexivity)
           ltac:(apply (bool_decide_unpack _); by vm_compute) 1
           (laneCard (td_items sample_td) 1 [itemB])); [reflexivity|by left].
Defined.

Lemma dialog_shows_item_witness :
  pageDialog b_selected sample_items =
    mkDialogView (modalOpen b_selected)
      (Some (mkDialogContent (name itemB) (start itemB) (end_ itemB) (end_ itemB - start itemB + 1)
               (pluralSuffix (end_ itemB - start itemB + 1))
               (shownDescription (description itemB)))) ∧
  (1 <= end_ itemB - start itemB + 1)%Z ∧
  (pluralSuffix (end_ itemB - start itemB + 1) = "" ↔ start itemB = end_ itemB).
Proof.
  apply dialog_shows_item.
  - apply (bool_decide_unpack _); by vm_compute.
  - unfold sample_items. set_solver.
  - unfold valid. cbn. lia.
  - reflexivity.
Defined.


Lemma views_agree_witness :
  (∃ c e, panel_cards (laneInfoPanel (td_lanes sample_td) (td_items sample_td))
            !! pred (tooltip_lane (timelineItem (annotate 1 itemB) (td_startDate sample_td)
                                     (QArith_base.inject_Z 1200) (QArith_base.inject_Z 1) laneHeight)) = Some c ∧
     card_number c = tooltip_lane (timelineItem (annotate 1 itemB) (td_startDate sample_td)
                                     (QArith_base.inject_Z 1200) (QArith_base.inject_Z 1) laneHeight) ∧
     e ∈ card_entries c ∧ entry_id e = id (base (annotate 1 itemB)) ∧
     entry_borderColor e = Some (borderColor (annotate 1 itemB))) ∧
  dlg_content (timelineItemDialog true (Some (id (base (annotate 1 itemB)))) sample_items) =
    Some (mkDialogContent
            (tooltip_name (timelineItem (annotate 1 itemB) (td_startDate sample_td) (QArith_base.inject_Z 1200) (QArith_base.inject_Z 1) laneHeight))
            (TimelineData.startDate (annotate 1 itemB)) (endDate (annotate 1 itemB))
            (tooltip_duration (timelineItem (annotate 1 itemB) (td_startDate sample_td) (QArith_base.inject_Z 1200) (QArith_base.inject_Z 1) laneHeight))
            (tooltip_suffix (timelineItem (annotate 1 itemB) (td_startDate sample_td) (QArith_base.inject_Z 1200) (QArith_base.inject_Z 1) laneHeight))
            (tooltip_description
               (timelineItem (annotate 1 itemB) (td_startDate sample_td) (QArith_base.inject_Z 1200) (QArith_base.inject_Z 1) laneHeight))).
Proof.
  apply (views_agree sample_items); [reflexivity|apply (bool_decide_unpack _); by vm_compute|].
  apply elem_of_itemsWithLanes. exists 1%nat, [itemB], itemB. split_and!; [done|by left|done].
Defined.

Lemma duplicate_ids_confuse_lookups_witness :
  timelineData assignLanes dup_items = Ok (Some dup_td) ∧ itemA ∈ dup_items ∧
  dupLong ∈ dup_items ∧ id itemA = id dupLong ∧
  (∃ iw, iw ∈ td_items dup_td ∧ id (base iw) = id itemA ∧
     entry_borderColor (panelEntry (td_items dup_td) itemA) = Some (borderColor iw) ∧
     entry_borderColor (panelEntry (td_items dup_td) dupLong) = Some (borderColor iw)) ∧
  (∀ i j, borderColor (annotate i itemA) ≠ borderColor (annotate j dupLong) →
     entry_borderColor (panelEntry (td_items dup_td) itemA) ≠
       Some (borderColor (annotate i itemA)) ∨
     entry_borderColor (panelEntry (td_items dup_td) dupLong) ≠
       Some (borderColor (annotate j dupLong))) ∧
  (∀ pre post, dup_items = pre ++ itemA :: post → Forall (λ i, id i ≠ id itemA) pre →
     findItem dup_items (Some (id dupLong)) = Some itemA ∧
     (dlg_name <$> dlg_content (timelineItemDialog true (Some (id dupLong)) dup_items)) =
       Some (name itemA)).
Proof.
  assert (timelineData assignLanes dup_items = Ok (Some dup_td)) as H by reflexivity.
  assert (itemA ∈ dup_items) as Hx by (unfold dup_items; set_solver).
  assert (dupLong ∈ dup_items) as Hy by (unfold dup_items; set_solver).
  assert (id itemA = id dupLong) as Hid by reflexivity.
  split_and!; [exact H|exact Hx|exact Hy|exact Hid|..];
    apply (duplicate_ids_confuse_lookups dup_items dup_td itemA dupLong H Hx Hy Hid).
Defined.
