(* ===== verification/Ruler.v ===== *)
(** * The ruler's labels and the grid's line styles

    [TimelineVisual] (src/src/components/TimelineVisual/timeline-visual.jsx)
    labels the ruler with one block per 30 days, titled by the month and
    year of its first day ([format(addDays(startDate, monthIndex * 30),
    "MMM yyyy")], lines 31-47), and one tick per day (lines 48-90) whose
    style and label depend on whether the day is a Monday
    ([getDay() === 1]) or the first of a month ([getDate() === 1]) and on
    the zoom level.  The grid layer draws one line per day (lines 109-130)
    with a class chosen by the same two tests.

    The calendar of [Date] as date-fns reads it ([civil_from_days],
    [getDay], [getDate], [addDays]) is that of [DateFns]: day numbers, 0 is
    1970-01-01, a Thursday. *)

From S2P Require Import Prelude DateFns Geometry.
From Stdlib Require Import QArith.

(** ** The calendar *)

(** The month and year [format(d, "MMM yyyy")] prints. *)
Definition monthYear (n : Z) : Z * Z := let '(y, m, _) := civil_from_days n in (m, y).

(** ** The ruler *)

(** The label of month block [monthIndex]: the month and year of its first
    day. *)
Definition monthLabel (startDate : Z) (monthIndex : Z) : Z * Z :=
  monthYear (addDays startDate (monthIndex * 30)).

(** The labels of all the blocks ([Array.from({length: Math.ceil(totalDays /
    30)}, ...)]). *)
Definition monthLabels (startDate totalDays : Z) : list (Z * Z) :=
  (λ k, monthLabel startDate (Z.of_nat k)) <$> seq 0 (Z.to_nat (monthCount totalDays)).

(** The three texts a day tick can carry. *)
Inductive LabelFormat := Fmt_MMM_dd | Fmt_dd | Fmt_MMM.

Record DayTick := mkDayTick {
  tick_left : Q;
  tick_isWeekStart : bool;
  tick_isMonthStart : bool;
  tick_label : option LabelFormat;
  tick_borderRight : bool
}.

(** One day tick: its position, its two tests, the label shown by the two
    conditional spans, and the right border of week starts. *)
Definition dayTick (startDate : Z) (dayIndex : Z) (zoomLevel baseWidth : Q) : DayTick :=
  let currentDay := addDays startDate dayIndex in
  let position := dayPosition dayIndex zoomLevel baseWidth in
  let isWeekStart := Z.eqb (getDay currentDay) 1 in
  let isMonthStart := Z.eqb (getDate currentDay) 1 in
  let label :=
    if Qle_bool (6#10) zoomLevel then Some (if isMonthStart then Fmt_MMM_dd else Fmt_dd)
    else if isMonthStart || (isWeekStart && Qle_bool (4#10) zoomLevel)
    then Some (if isMonthStart then Fmt_MMM else Fmt_dd)
    else None in
  mkDayTick position isWeekStart isMonthStart label isWeekStart.

(** ** The grid *)

(** The visible classes of a grid line; [None] when [cn] keeps none of the
    width classes and the line has no width. *)
Inductive GridClass := Grid_month | Grid_week | Grid_day.

Definition gridLine (startDate : Z) (dayIndex : Z) (zoomLevel : Q) : option GridClass :=
  let currentDay := addDays startDate dayIndex in
  let isWeekStart := Z.eqb (getDay currentDay) 1 in
  let isMonthStart := Z.eqb (getDate currentDay) 1 in
  if isMonthStart then Some Grid_month
  else if isWeekStart then Some Grid_week
  else if Qle_bool (3#4) zoomLevel then Some Grid_day
  else None.

(** ** Lemmas *)

(** The month label of a valid date, and the dates a month label comes
    from. *)
Lemma monthYear_civil y m d :
  validateDate y (m - 1) d = true → monthYear (days_from_civil y m d) = (m, y).
Proof. intros Hv. unfold monthYear. by rewrite civil_days. Qed.

Lemma monthYear_inv n m y : monthYear n = (m, y) → ∃ d, civil_from_days n = (y, m, d).
Proof.
  unfold monthYear. destruct (civil_from_days n) as [[y' m'] d']. intros [= -> ->]. by exists d'.
Qed.

(** The labels of the blocks a ruler has. *)
Lemma monthLabels_lookup startDate totalDays (k : nat) :
  (Z.of_nat k < monthCount totalDays)%Z →
  monthLabels startDate totalDays !! k = Some (monthLabel startDate (Z.of_nat k)).
Proof.
  intros Hk. unfold monthLabels. rewrite list_lookup_fmap, lookup_seq_lt; [done|lia].
Qed.

Lemma getDay_shift (n k : Z) : getDay (n + k) = ((getDay n + k) mod 7)%Z.
Proof. unfold getDay. rewrite Z.add_mod_idemp_l by lia. f_equal. lia. Qed.

Lemma getDay_range (n : Z) : (0 <= getDay n < 7)%Z.
Proof. unfold getDay. apply Z.mod_pos_bound. lia. Qed.

(** Every seven consecutive days hold exactly one Monday. *)
Lemma monday_window (n : Z) : count (λ k : nat, getDay (n + Z.of_nat k) = 1%Z) (seq 0 7) = 1%nat.
Proof.
  rewrite (count_ext _ (λ k : nat, ((getDay n + Z.of_nat k) mod 7 = 1)%Z))
    by (intros k _; by rewrite getDay_shift).
  pose proof (getDay_range n) as Hr.
  assert (getDay n = 0 ∨ getDay n = 1 ∨ getDay n = 2 ∨ getDay n = 3 ∨ getDay n = 4 ∨
          getDay n = 5 ∨ getDay n = 6)%Z as Hc by lia.
  destruct_or! Hc; rewrite Hc; reflexivity.
Qed.

(** ** The ruler's ticks and the grid *)

(** Every seven consecutive days of the ruler hold exactly one tick
    with the week-start border (a Monday). *)
Theorem week_ticks (startDate i : Z) (zoomLevel baseWidth : Q) :
  count (λ k : nat, tick_borderRight (dayTick startDate (i + Z.of_nat k) zoomLevel baseWidth)
                    = true) (seq 0 7) = 1%nat.
Proof.
  etransitivity; [|exact (monday_window (startDate + i))]. apply count_ext. intros k _.
  cbn [dayTick tick_borderRight]. unfold addDays. rewrite Z.eqb_eq, Z.add_assoc. done.
Qed.

Lemma Qle_bool_lt_false (x y : Q) : (y < x)%Q → Qle_bool x y = false.
Proof.
  intros H. destruct (Qle_bool x y) eqn:E; [|done].
  apply Qle_bool_iff in E. exfalso. apply (Qlt_not_le y x); done.
Qed.

(** The grid: from zoom 0.75 on, every day has a line; below it, a
    day has a line exactly when it is a Monday or the first of a month, so
    every seven consecutive days still hold at least one line. *)
Lemma grid_lines (startDate : Z) (zoomLevel : Q) :
  (∀ i, (3#4 <= zoomLevel)%Q → gridLine startDate i zoomLevel ≠ None) ∧
  (∀ i, (zoomLevel < 3#4)%Q →
     gridLine startDate i zoomLevel ≠ None ↔
     getDay (startDate + i) = 1%Z ∨ getDate (startDate + i) = 1%Z) ∧
  (∀ i, 1 <= count (λ k : nat, gridLine startDate (i + Z.of_nat k) zoomLevel ≠ None)
                   (seq 0 7))%nat.
Proof.
  split_and!.
  - intros i Hz. unfold gridLine.
    destruct (Z.eqb _ 1); [done|]. destruct (Z.eqb _ 1); [done|].
    assert (Qle_bool (3#4) zoomLevel = true) as -> by by apply Qle_bool_iff. done.
  - intros i Hz. unfold gridLine, addDays. rewrite Qle_bool_lt_false by done.
    destruct (Z.eqb_spec (getDate (startDate + i)) 1);
      destruct (Z.eqb_spec (getDay (startDate + i)) 1); naive_solver.
  - intros i. rewrite <- (monday_window (startDate + i)) at 1. apply count_mono.
    intros k _ Hk. unfold gridLine, addDays. rewrite Z.add_assoc, Hk, Z.eqb_refl.
    by destruct (Z.eqb _ 1).
Qed.

(** The day labels: the first of a month is labelled with its month
    at every zoom level; from zoom 0.4 on, every seven consecutive days
    hold a label (at least the Monday's); below 0.4, only the firsts of the
    months are labelled. *)
Lemma day_labels (startDate : Z) (zoomLevel baseWidth : Q) :
  (∀ i, getDate (startDate + i) = 1%Z →
     tick_label (dayTick startDate i zoomLevel baseWidth) =
       Some (if Qle_bool (6#10) zoomLevel then Fmt_MMM_dd else Fmt_MMM)) ∧
  (∀ i, (4#10 <= zoomLevel)%Q →
     1 <= count (λ k : nat, tick_label (dayTick startDate (i + Z.of_nat k) zoomLevel baseWidth)
                            ≠ None) (seq 0 7))%nat ∧
  (∀ i, (zoomLevel < 4#10)%Q →
     tick_label (dayTick startDate i zoomLevel baseWidth) ≠ None ↔
     getDate (startDate + i) = 1%Z).
Proof.
  split_and!.
  - intros i Hd. cbn [dayTick tick_label]. unfold addDays. rewrite Hd, Z.eqb_refl.
    by destruct (Qle_bool _ _).
  - intros i Hz. rewrite <- (monday_window (startDate + i)) at 1. apply count_mono.
    intros k _ Hk. cbn [dayTick tick_label]. unfold addDays.
    rewrite Z.add_assoc, Hk, Z.eqb_refl.
    assert (Qle_bool (4#10) zoomLevel = true) as -> by by apply Qle_bool_iff.
    destruct (Qle_bool (6#10) _); [done|]. by destruct (Z.eqb _ 1).
  - intros i Hz. cbn [dayTick tick_label]. unfold addDays.
    rewrite !Qle_bool_lt_false by (unfold Qlt in *; simpl in *; lia).
    destruct (Z.eqb_spec (getDate (startDate + i)) 1); cbn [orb].
    + done.
    + rewrite andb_false_r. cbn [orb]. split; [done|congruence].
Qed.

(** C37. The ruler's marks by zoom level: the first of a month always has
    the month grid line and a label with its month; every seven
    consecutive days keep a grid line at every zoom, and a label from zoom
    0.4 on; from zoom 0.75 every day has a grid line, below it exactly the
    Mondays and the firsts of months do; below zoom 0.4 only the firsts of
    months are labelled. *)
Theorem ruler_marks_by_zoom (startDate : Z) (zoomLevel baseWidth : Q) :
  (∀ i, getDate (startDate + i) = 1%Z →
     gridLine startDate i zoomLevel = Some Grid_month ∧
     tick_label (dayTick startDate i zoomLevel baseWidth) =
       Some (if Qle_bool (6#10) zoomLevel then Fmt_MMM_dd else Fmt_MMM)) ∧
  (∀ i, 1 <= count (λ k : nat, gridLine startDate (i + Z.of_nat k) zoomLevel ≠ None)
                   (seq 0 7))%nat ∧
  (∀ i, (4#10 <= zoomLevel)%Q →
     1 <= count (λ k : nat, tick_label (dayTick startDate (i + Z.of_nat k) zoomLevel baseWidth)
                            ≠ None) (seq 0 7))%nat ∧
  (∀ i, (3#4 <= zoomLevel)%Q → gridLine startDate i zoomLevel ≠ None) ∧
  (∀ i, (zoomLevel < 3#4)%Q →
     gridLine startDate i zoomLevel ≠ None ↔
     getDay (startDate + i) = 1%Z ∨ getDate (startDate + i) = 1%Z) ∧
  (∀ i, (zoomLevel < 4#10)%Q →
     tick_label (dayTick startDate i zoomLevel baseWidth) ≠ None ↔
     getDate (startDate + i) = 1%Z).
Proof.
  destruct (grid_lines startDate zoomLevel) as (Hg1 & Hg2 & Hg3).
  destruct (day_labels startDate zoomLevel baseWidth) as (Hl1 & Hl2 & Hl3).
  split_and!; [|done..].
  intros i Hd. split; [|by apply Hl1].
  unfold gridLine, addDays. by rewrite Hd, Z.eqb_refl.
Qed.

(** C36. The month labels are the months of every 30th day, not the
    calendar months.  For every year, a ruler that starts on January 1
    and spans more than 31 days has February 1 (day 31) on it, but its
    first two blocks are both labelled January of that year and no block
    at all is labelled February of that year: block [k] starts on day
    [30 k], and February's days 31 to 59 (60 in a leap year) fall strictly
    inside block 1. *)
Theorem month_labels_skip_february (y totalDays : Z) :
  (31 < totalDays)%Z →
  monthLabels (days_from_civil y 1 1) totalDays !! 0%nat = Some (1, y)%Z ∧
  monthLabels (days_from_civil y 1 1) totalDays !! 1%nat = Some (1, y)%Z ∧
  monthYear (addDays (days_from_civil y 1 1) 31) = (2, y)%Z ∧
  (2, y)%Z ∉ monthLabels (days_from_civil y 1 1) totalDays.
Proof.
  intros HT. pose proof (monthCount_spec totalDays) as HM.
  assert (∀ m d, (1 <= m <= 2)%Z → validateDate y (m - 1) d = true →
            monthYear (days_from_civil y 1 1 + 31 * (m - 1) + d - 1) = (m, y)) as Hmy.
  { intros m d Hm Hv. rewrite <- days_from_civil_jan_feb by done. by apply monthYear_civil. }
  assert (∀ d, (1 <= d <= 31)%Z → validateDate y (1 - 1) d = true) as Hjan
    by (intros d Hd; apply validateDate_spec; eval_Z_lits; cbn; lia).
  rewrite !monthLabels_lookup by lia. unfold monthLabel, addDays. split_and!.
  - f_equal. rewrite <- (Hmy 1 1)%Z by (done || apply Hjan; lia). f_equal. lia.
  - f_equal. rewrite <- (Hmy 1 31)%Z by (done || apply Hjan; lia). f_equal. lia.
  - rewrite <- (Hmy 2 1)%Z by (done || apply validateDate_spec; eval_Z_lits; unfold daysInMonth; case_match; lia).
    f_equal. lia.
  - intros (k & Hk & _)%list_elem_of_fmap. symmetry in Hk.
    destruct (monthYear_inv _ _ _ Hk) as [d Hc].
    pose proof (daysInMonth_february y).
    pose proof (civil_valid _ _ _ _ Hc) as Hv. apply validateDate_spec in Hv as [_ Hd].
    change (2 - 1)%Z with 1%Z in Hd.
    apply days_civil in Hc. rewrite days_from_civil_jan_feb in Hc by lia.
    unfold addDays in Hc. lia.
Qed.


(** ** Witnesses *)

Lemma ruler_marks_by_zoom_witness :
  (∀ i, getDate (19723 + i) = 1%Z →
     gridLine 19723 i (1#2) = Some Grid_month ∧
     tick_label (dayTick 19723 i (1#2) 1200) =
       Some (if Qle_bool (6#10) (1#2) then Fmt_MMM_dd else Fmt_MMM)) ∧
  (∀ i, 1 <= count (λ k : nat, gridLine 19723 (i + Z.of_nat k) (1#2) ≠ None) (seq 0 7))%nat ∧
  (∀ i, (4#10 <= 1#2)%Q →
     1 <= count (λ k : nat, tick_label (dayTick 19723 (i + Z.of_nat k) (1#2) 1200) ≠ None)
            (seq 0 7))%nat ∧
  (∀ i, (3#4 <= 1#2)%Q → gridLine 19723 i (1#2) ≠ None) ∧
  (∀ i, (1#2 < 3#4)%Q →
     gridLine 19723 i (1#2) ≠ None ↔ getDay (19723 + i) = 1%Z ∨ getDate (19723 + i) = 1%Z) ∧
  (∀ i, (1#2 < 4#10)%Q →
     tick_label (dayTick 19723 i (1#2) 1200) ≠ None ↔ getDate (19723 + i) = 1%Z).
Proof. exact (ruler_marks_by_zoom 19723 (1#2) 1200). Defined.

Lemma month_labels_skip_february_witness :
  (31 < 90)%Z ∧
  monthLabels (days_from_civil 2024 1 1) 90 !! 0%nat = Some (1, 2024)%Z ∧
  monthLabels (days_from_civil 2024 1 1) 90 !! 1%nat = Some (1, 2024)%Z ∧
  monthYear (addDays (days_from_civil 2024 1 1) 31) = (2, 2024)%Z ∧
  (2, 2024)%Z ∉ monthLabels (days_from_civil 2024 1 1) 90.
Proof. split; [lia|exact (month_labels_skip_february 2024 90 ltac:(lia))]. Defined.
