(* ===== verification/Controls.v ===== *)
(** * The zoom controls bar

    [TimelineControls]
    (src/src/components/TimelineControls/timeline-controls.jsx) prints the
    date range of the page ([format(startDate, "MMM dd, yyyy") - format(endDate,
    ...)]), the number of items, the zoom-out button, the zoom percentage
    and the zoom-in button with their disabled states.  The page renders it
    only in the timeline view (timeline.jsx lines 147-156), with the raw
    [items] of the data file.

    The dates are printed by [DateFns.format] with the pattern
    ["MMM dd, yyyy"]; the disabled tests and the percentage are those of [PageState].  The
    lemma [controls_agree] states that what the bar shows agrees with the
    rest of the page; [Page] uses it for the page's render. *)

From S2P Require Import Prelude Items LaneAssigner TimelineData PageState Geometry.
From S2P Require Import Panels DateFns Ruler.
From Stdlib Require Import QArith.

Record ControlsView := mkControlsView {
  ctl_rangeStart : string;
  ctl_rangeEnd : string;
  ctl_itemCount : nat;
  ctl_zoomOutDisabled : bool;
  ctl_zoomPercent : Z;
  ctl_zoomInDisabled : bool
}.

Definition timelineControls (startDate endDate : date) (items : list Item) (zoomLevel : Q)
    : ControlsView :=
  mkControlsView (format startDate fmt_MMM_dd_yyyy) (format endDate fmt_MMM_dd_yyyy) (length items)
    (zoomOutDisabled zoomLevel) (zoomPercent zoomLevel) (zoomInDisabled zoomLevel).

(** [{optionShow === "timeline" && (<TimelineControls startDate={startDate}
    endDate={endDate} items={items} zoomLevel={zoomLevel} .../>)}] *)
Definition pageControls (s : PageState) (items : list Item) (td : TimelineData)
    : option ControlsView :=
  if timelineShown s then Some (timelineControls (td_startDate td) (td_endDate td) items (zoomLevel s))
  else None.

(** On a rendered page in the timeline view, the controls bar counts
    as many items as the lane panel's header, prints the calendar dates of
    the ruler's first and last day, [totalDays] days apart counting both,
    and a zoom percentage between 30 and 300; in the panel view it is not
    rendered. *)
Lemma controls_agree items td s :
  timelineData assignLanes items = Ok (Some td) → reachable s →
  (timelineShown s = false → pageControls s items td = None) ∧
  (timelineShown s = true →
   ∃ v, pageControls s items td = Some v ∧
     ctl_itemCount v = panel_itemCount (laneInfoPanel (td_lanes td) (td_items td)) ∧
     ctl_rangeStart v = format (td_startDate td) fmt_MMM_dd_yyyy ∧
     ctl_rangeEnd v = format (td_endDate td) fmt_MMM_dd_yyyy ∧
     (td_endDate td - td_startDate td + 1 = totalDays td)%Z ∧
     (30 <= ctl_zoomPercent v <= 300)%Z).
Proof.
  intros Hrun Hr. unfold pageControls. split; intros Hs; rewrite Hs; [done|].
  eexists. split; [reflexivity|]. cbn.
  destruct (timelineData_end_attained items td Hrun) as [HT _].
  destruct (reachable_inv s Hr) as [Hz _].
  split_and!; [by rewrite (rendered_items_length items td Hrun)|done|done|lia|
               apply zoomPercent_bounds, Hz..].
Qed.
