(* ===== verification/Page.v ===== *)
(** * The page as it renders

    [TimelineVisual] (src/src/components/TimelineVisual/timeline-visual.jsx
    lines 93-106) renders one [TimelineItem] per annotated item, marked
    [isSelected] when the page's [selectedItem] is the item's id; the bar
    of a selected item gets the ring classes and opacity 1, the others 0.9,
    and a click on a bar calls [onItemClick(item.id)]
    (timeline-item.jsx lines 39-57).

    [Timeline] (src/src/pages/timeline/timeline.jsx lines 103-179) renders,
    from the builder's result: nothing but the empty-state card when there
    are no items; otherwise the controls and the visual in the timeline
    view, the lane panel in the panel view, and the dialog in both.  When
    [assignLanes] throws its [ValidationError] inside [useMemo], the render
    throws ([RenderThrows]): no fallback is rendered.

    [timelineVisualView] is the whole of [TimelineVisual] (lines 6-137):
    the canvas size, the month labels, one day tick and one grid line per
    day, and the bars.  [App] (src/src/index.js lines 5-7) is the first
    render: [Timeline] in its initial state over the data file's items.

    The theorems compose the components: the render's cases, with the view
    shown by the state's invariant, the first screen, the selected bar
    against the dialog, and a click on a bar followed by the new render. *)

From S2P Require Import Prelude Items LaneAssigner TimelineData PageState Geometry.
From S2P Require Import Panels Ruler Controls.
From Stdlib Require QArith.

(** ** TimelineItem's selection and click *)

Record BarView := mkBarView {
  bar_item : ItemWithLane;
  bar_geometry : BarGeometry;
  bar_isSelected : bool;
  bar_opacity : QArith_base.Q;
  bar_onClick : Event
}.

(** [<TimelineItem ... isSelected={...} onItemClick={onItemClick} />]: the
    ring classes are present exactly when [isSelected];
    [opacity: isSelected ? 1 : 0.9]; [onClick={() => onItemClick(item.id)}]. *)
Definition timelineItemView (item : ItemWithLane) (startDate : date)
    (baseWidth zoomLevel : QArith_base.Q) (laneHeight : Z) (isSelected : bool) : BarView :=
  mkBarView item (timelineItem item startDate baseWidth zoomLevel laneHeight) isSelected
    (if isSelected then QArith_base.inject_Z 1 else QArith_base.Qmake 9 10)
    (ClickItem (id (base item))).

(** [itemsWithLanes.map((item) => <TimelineItem ... isSelected={selectedItem
    === item.id} />)]; [null === id] is false. *)
Definition timelineVisual (td : TimelineData) (zoomLevel : QArith_base.Q)
    (selectedItem : option Z) : list BarView :=
  (λ item, timelineItemView item (td_startDate td) (baseWidth (totalDays td) zoomLevel)
             zoomLevel laneHeight (bool_decide (selectedItem = Some (id (base item)))))
    <$> td_items td.

(** The whole of [TimelineVisual] (lines 6-137): from [timelineData] its
    [startDate], [totalDays], [items] and [maxLane]; the canvas of
    [baseWidth] by [timelineHeight] pixels; the month blocks of the ruler,
    one day tick per day ([Array.from({ length: totalDays })]), the item
    layer, and one grid line per day. *)
Record VisualView := mkVisualView {
  vis_width : QArith_base.Q;
  vis_height : Z;
  vis_monthLabels : list (Z * Z);
  vis_ticks : list DayTick;
  vis_bars : list BarView;
  vis_grid : list (option GridClass)
}.

Definition timelineVisualView (td : TimelineData) (zoomLevel : QArith_base.Q)
    (selectedItem : option Z) : VisualView :=
  let W := baseWidth (totalDays td) zoomLevel in
  let days := seq 0 (Z.to_nat (totalDays td)) in
  mkVisualView W (timelineHeight (maxLane td))
    (monthLabels (td_startDate td) (totalDays td))
    ((λ dayIndex, dayTick (td_startDate td) (Z.of_nat dayIndex) zoomLevel W) <$> days)
    (timelineVisual td zoomLevel selectedItem)
    ((λ dayIndex, gridLine (td_startDate td) (Z.of_nat dayIndex) zoomLevel) <$> days).

(** ** Timeline's render *)

Record PageView := mkPageView {
  view_controls : option ControlsView;
  view_visual : option VisualView;
  view_panel : option PanelView;
  view_dialog : DialogView
}.

(** The bars of the rendered visual. *)
Definition view_bars (v : PageView) : option (list BarView) := vis_bars <$> view_visual v.

Inductive Rendered :=
| RenderThrows
| EmptyState
| RenderedPage (v : PageView).

(** [if (!timelineData) return <Card>No timeline items to display</Card>],
    then [{optionShow === "timeline" && (...)}],
    [{optionShow === "laneInfoPanel" && (...)}] and the dialog. *)
Definition timelinePage (items : list Item) (s : PageState) : Rendered :=
  match timelineData assignLanes items with
  | Err _ => RenderThrows
  | Ok None => EmptyState
  | Ok (Some td) =>
      RenderedPage
        (mkPageView (pageControls s items td)
           (if timelineShown s then Some (timelineVisualView td (zoomLevel s) (selectedItem s))
            else None)
           (if String.eqb (optionShow s) "laneInfoPanel"
            then Some (laneInfoPanel (td_lanes td) (td_items td)) else None)
           (pageDialog s items))
  end.
(** ** The entry point *)

(** index.js: [function App() { return <Timeline />; }], rendered once into
    the root: the first render of the page, in the state of its [useState]
    initialisers ([page_init]), over the data file's [items]. *)
Definition App (items : list Item) : Rendered := timelinePage items page_init.

(** ** Helper lemmas *)

Lemma timelineVisual_elem td z sel b :
  b ∈ timelineVisual td z sel ↔
  ∃ iw, iw ∈ td_items td ∧
    b = timelineItemView iw (td_startDate td) (baseWidth (totalDays td) z) z laneHeight
          (bool_decide (sel = Some (id (base iw)))).
Proof. unfold timelineVisual. rewrite list_elem_of_fmap. naive_solver. Qed.

Lemma rendered_base_in items td iw :
  timelineData assignLanes items = Ok (Some td) → iw ∈ td_items td → base iw ∈ items.
Proof.
  intros Hrun Hiw. destruct (page_run items td Hrun) as (Ha & Hitems & _).
  rewrite Hitems in Hiw. apply (list_elem_of_fmap_2 base) in Hiw.
  unfold itemsWithLanes in Hiw. rewrite base_push_lanes in Hiw. cbn in Hiw.
  by rewrite (contract_perm _ _ Ha) in Hiw.
Qed.

Lemma rendered_id_inj items td iw1 iw2 :
  timelineData assignLanes items = Ok (Some td) → ids_unique items →
  iw1 ∈ td_items td → iw2 ∈ td_items td → id (base iw1) = id (base iw2) → iw1 = iw2.
Proof.
  intros Hrun Hu. apply (NoDup_fmap_inj (λ i, id (base i))).
  by apply (rendered_ids_unique items).
Qed.

Lemma timelinePage_rendered items s v :
  timelinePage items s = RenderedPage v →
  ∃ td, timelineData assignLanes items = Ok (Some td) ∧
    v = mkPageView (pageControls s items td)
          (if timelineShown s then Some (timelineVisualView td (zoomLevel s) (selectedItem s))
           else None)
          (if String.eqb (optionShow s) "laneInfoPanel"
           then Some (laneInfoPanel (td_lanes td) (td_items td)) else None)
          (pageDialog s items).
Proof.
  unfold timelinePage. destruct (timelineData assignLanes items) as [[td|]|]; [|done..].
  intros [= <-]. by exists td.
Qed.

Lemma page_inv_views s :
  page_inv s →
  (timelineShown s = true ∧ String.eqb (optionShow s) "laneInfoPanel" = false) ∨
  (timelineShown s = false ∧ String.eqb (optionShow s) "laneInfoPanel" = true).
Proof. intros [_ [Ho|Ho]]; unfold timelineShown; rewrite Ho; [left|right]; split; reflexivity. Qed.

(** ** The page's render *)

(** C11. The page's render cases: the render throws exactly when an item
    is invalid (no fallback view), the empty-state card is rendered
    exactly when there are no items, and a rendered page of a reachable
    state shows exactly one of the visual and the lane panel, the controls
    exactly with the visual, one bar per item, the dialog of the state, a
    controls bar whose item count is the panel's and whose percentage lies
    in [30, 300], and a panel that counts every item. *)
Theorem page_render_cases items s :
  reachable s →
  (timelinePage items s = RenderThrows ↔ ¬ Forall valid items) ∧
  (timelinePage items s = EmptyState ↔ items = []) ∧
  (∀ v, timelinePage items s = RenderedPage v →
     (is_Some (view_bars v) ↔ view_panel v = None) ∧
     (is_Some (view_controls v) ↔ is_Some (view_bars v)) ∧
     view_dialog v = pageDialog s items ∧
     (∀ bars, view_bars v = Some bars → length bars = length items) ∧
     (∀ c, view_controls v = Some c →
        ctl_itemCount c = length items ∧ (30 <= ctl_zoomPercent c <= 300)%Z) ∧
     (∀ p, view_panel v = Some p → panel_itemCount p = length items)).
Proof.
  intros Hr. destruct (timelineData_null_or_error assignLanes items) as [Hnone Herr].
  unfold timelinePage.
  destruct (timelineData assignLanes items) as [[td|]|e] eqn:Hrun.
  - split_and!.
    + split; [done|]. intros Hv. by apply Herr in Hv as [? ?].
    + split; [done|]. intros ->. by destruct Hnone as [_ ?].
    + intros v [= <-]. unfold view_bars. cbn.
      destruct (controls_agree items td s Hrun Hr) as [Hoff Hon].
      pose proof (rendered_items_length items td Hrun) as Hlen.
      destruct (page_inv_views s (reachable_inv s Hr)) as [[Ht Hp]|[Ht Hp]];
        rewrite Ht, Hp; cbn.
      * destruct (Hon Ht) as (c & Hc & Hn & _ & _ & _ & Hz). rewrite Hc.
        split_and!; try done.
        all: first [intros bars [= <-]; cbn; unfold timelineVisual; by rewrite length_fmap
                   |intros c' [= <-]; split; [rewrite Hn; exact Hlen|done]].
      * rewrite (Hoff Ht). split_and!; try done; try (split; by intros []).
        intros p [= <-]. exact Hlen.
  - pose proof (proj1 Hnone eq_refl) as ->. split_and!; [split; [done|]|done|done].
    intros Hv. exfalso. apply Hv. constructor.
  - split_and!; [split; [intros _; apply Herr; by exists e|done]| |done].
    split; [done|]. intros Hi. by apply Hnone in Hi.
Qed.

(** C32. The selected bar against the dialog: on a rendered page with
    unique ids, at most one bar is selected; a bar is selected exactly when
    the state's [selectedItem] is its item's id; every bar's click selects
    its own item; and for a selected item of the data, its bar is rendered
    selected at opacity 1 while the dialog shows that item's content, the
    dialog being open exactly when the id is not 0. *)
Theorem selected_bar_matches_dialog items td s :
  timelineData assignLanes items = Ok (Some td) → ids_unique items →
  let bars := timelineVisual td (zoomLevel s) (selectedItem s) in
  (∀ b1 b2, b1 ∈ bars → b2 ∈ bars →
     bar_isSelected b1 = true → bar_isSelected b2 = true → b1 = b2) ∧
  (∀ b, b ∈ bars →
     (bar_isSelected b = true ↔ selectedItem s = Some (id (base (bar_item b)))) ∧
     bar_onClick b = ClickItem (id (base (bar_item b)))) ∧
  (∀ x, x ∈ items → selectedItem s = Some (id x) →
     ∃ b, b ∈ bars ∧ base (bar_item b) = x ∧ bar_isSelected b = true ∧
       bar_opacity b = QArith_base.inject_Z 1 ∧
       dlg_content (pageDialog s items) =
         Some (mkDialogContent (name x) (start x) (end_ x) (end_ x - start x + 1)
                 (pluralSuffix (end_ x - start x + 1)) (shownDescription (description x))) ∧
       dlg_open (pageDialog s items) = negb (Z.eqb (id x) 0)).
Proof.
  intros Hrun Hu bars. subst bars. split_and!.
  - intros b1 b2 (i1 & Hi1 & ->)%timelineVisual_elem (i2 & Hi2 & ->)%timelineVisual_elem.
    cbn. rewrite !bool_decide_eq_true. intros H1 H2. rewrite H1 in H2. simplify_eq.
    by rewrite (rendered_id_inj items td i1 i2).
  - intros b (iw & _ & ->)%timelineVisual_elem. cbn. by rewrite bool_decide_eq_true.
  - intros x Hx Hsel.
    destruct (rendered_item_of items td x Hrun Hx) as (iw & j & l & Hiw & _ & _ & ->).
    eexists. rewrite timelineVisual_elem. split_and!; [by eexists|done|..]; cbn.
    + by rewrite bool_decide_eq_true.
    + by rewrite bool_decide_eq_true_2.
    + unfold pageDialog, timelineItemDialog. by rewrite Hsel, (findItem_unique items x Hu Hx).
    + unfold pageDialog, modalOpen. by rewrite Hsel.
Qed.

(** C33. A click on a bar of the rendered page, whose item is not the
    selected one, selects that item: the page renders again with that bar
    the only selected one, the dialog shows the clicked item, open unless
    its id is 0, and a second click on the same bar clears the selection. *)
Theorem bar_click_roundtrip items s v bars b :
  ids_unique items → timelinePage items s = RenderedPage v → view_bars v = Some bars →
  b ∈ bars → selectedItem s ≠ Some (id (base (bar_item b))) →
  (∃ v' bars', timelinePage items (handle s (bar_onClick b)) = RenderedPage v' ∧
     view_bars v' = Some bars' ∧
     (∀ b', b' ∈ bars' → bar_isSelected b' = true ↔ bar_item b' = bar_item b) ∧
     dlg_open (view_dialog v') = negb (Z.eqb (id (base (bar_item b))) 0) ∧
     dlg_content (view_dialog v') =
       Some (mkDialogContent (name (base (bar_item b))) (start (base (bar_item b)))
               (end_ (base (bar_item b)))
               (end_ (base (bar_item b)) - start (base (bar_item b)) + 1)
               (pluralSuffix (end_ (base (bar_item b)) - start (base (bar_item b)) + 1))
               (shownDescription (description (base (bar_item b)))))) ∧
  selectedItem (handle (handle s (bar_onClick b)) (bar_onClick b)) = None.
Proof.
  intros Hu (td & Hrun & ->)%timelinePage_rendered Hbars Hb Hne. cbn in Hbars.
  destruct (timelineShown s) eqn:Ht; [|done]. injection Hbars as <-.
  apply timelineVisual_elem in Hb as (iw & Hiw & ->). cbn in Hne |- *.
  assert (handleItemClick (id (base iw)) (selectedItem s) = Some (id (base iw))) as Hsel
    by (unfold handleItemClick; by rewrite decide_False).
  split; [|cbn; rewrite Hsel; unfold handleItemClick; by rewrite decide_True].
  eexists _, _. unfold timelinePage. rewrite Hrun. split; [reflexivity|]. cbn.
  unfold timelineShown in Ht |- *. cbn. rewrite Ht. split; [reflexivity|]. split_and!.
  - intros b' (iw' & Hiw' & ->)%timelineVisual_elem. cbn. rewrite bool_decide_eq_true, Hsel.
    split; [intros [= ?]; by apply (rendered_id_inj items td)|by intros ->].
  - unfold modalOpen. cbn. by rewrite Hsel.
  - unfold timelineItemDialog. cbn. rewrite Hsel.
    by rewrite (findItem_unique items (base iw) Hu (rendered_base_in items td iw Hrun Hiw)).
Qed.

(** C12. The application's first screen: over valid items, at least one,
    [App] renders the timeline view with the controls at 100%, both zoom
    buttons enabled and the count of the items, one bar per item, none of
    them selected and all at opacity 0.9, no lane panel and the dialog
    closed and empty. *)
Theorem app_first_screen items :
  Forall valid items → items ≠ [] →
  ∃ v, App items = RenderedPage v ∧
    (∃ c, view_controls v = Some c ∧ ctl_zoomPercent c = 100%Z ∧
       ctl_zoomInDisabled c = false ∧ ctl_zoomOutDisabled c = false ∧
       ctl_itemCount c = length items) ∧
    (∃ bars, view_bars v = Some bars ∧ length bars = length items ∧
       Forall (λ b, bar_isSelected b = false ∧ bar_opacity b = QArith_base.Qmake 9 10) bars) ∧
    view_panel v = None ∧ view_dialog v = mkDialogView false None.
Proof.
  intros Hv Hne. destruct (timelineData_null_or_error assignLanes items) as [Hnone Herr].
  unfold App, timelinePage.
  destruct (timelineData assignLanes items) as [[td|]|e] eqn:Hrun.
  - eexists. split; [reflexivity|]. split_and!.
    + eexists. split; [reflexivity|]. split_and!; reflexivity.
    + eexists. split; [reflexivity|]. unfold timelineVisualView; cbn [vis_bars]. unfold timelineVisual. rewrite length_fmap.
      split; [by apply rendered_items_length|]. apply Forall_fmap, Forall_true. by split.
    + reflexivity.
    + reflexivity.
  - exfalso. by apply Hne, Hnone.
  - exfalso. apply Herr; [by exists e|done].
Qed.

(** ** Witnesses *)

Lemma page_render_cases_witness :
  reachable b_selected ∧
  (timelinePage sample_items b_selected = RenderThrows ↔ ¬ Forall valid sample_items) ∧
  (timelinePage sample_items b_selected = EmptyState ↔ sample_items = []) ∧
  (∀ v, timelinePage sample_items b_selected = RenderedPage v →
     (is_Some (view_bars v) ↔ view_panel v = None) ∧
     (is_Some (view_controls v) ↔ is_Some (view_bars v)) ∧
     view_dialog v = pageDialog b_selected sample_items ∧
     (∀ bars, view_bars v = Some bars → length bars = length sample_items) ∧
     (∀ c, view_controls v = Some c →
        ctl_itemCount c = length sample_items ∧ (30 <= ctl_zoomPercent c <= 300)%Z) ∧
     (∀ p, view_panel v = Some p → panel_itemCount p = length sample_items)).
Proof.
  assert (reachable b_selected) as Hr by (apply reachable_handle; constructor).
  split; [exact Hr|]. exact (page_render_cases sample_items b_selected Hr).
Defined.

Lemma selected_bar_matches_dialog_witness :
  timelineData assignLanes sample_items = Ok (Some sample_td) ∧ ids_unique sample_items ∧
  let bars := timelineVisual sample_td (zoomLevel b_selected) (selectedItem b_selected) in
  (∀ b1 b2, b1 ∈ bars → b2 ∈ bars →
     bar_isSelected b1 = true → bar_isSelected b2 = true → b1 = b2) ∧
  (∀ b, b ∈ bars →
     (bar_isSelected b = true ↔ selectedItem b_selected = Some (id (base (bar_item b)))) ∧
     bar_onClick b = ClickItem (id (base (bar_item b)))) ∧
  (∀ x, x ∈ sample_items → selectedItem b_selected = Some (id x) →
     ∃ b, b ∈ bars ∧ base (bar_item b) = x ∧ bar_isSelected b = true ∧
       bar_opacity b = QArith_base.inject_Z 1 ∧
       dlg_content (pageDialog b_selected sample_items) =
         Some (mkDialogContent (name x) (start x) (end_ x) (end_ x - start x + 1)
                 (pluralSuffix (end_ x - start x + 1)) (shownDescription (description x))) ∧
       dlg_open (pageDialog b_selected sample_items) = negb (Z.eqb (id x) 0)).
Proof.
  assert (timelineData assignLanes sample_items = Ok (Some sample_td)) as Hrun
    by reflexivity.
  assert (ids_unique sample_items) as Hu by (apply (bool_decide_unpack _); by vm_compute).
  split; [exact Hrun|]. split; [exact Hu|].
  exact (selected_bar_matches_dialog sample_items sample_td b_selected Hrun Hu).
Defined.

Lemma bar_click_roundtrip_witness :
  ∃ v bars b, ids_unique sample_items ∧ timelinePage sample_items page_init = RenderedPage v ∧
  view_bars v = Some bars ∧ b ∈ bars ∧ selectedItem page_init ≠ Some (id (base (bar_item b))) ∧
  (∃ v' bars', timelinePage sample_items (handle page_init (bar_onClick b)) = RenderedPage v' ∧
     view_bars v' = Some bars' ∧
     (∀ b', b' ∈ bars' → bar_isSelected b' = true ↔ bar_item b' = bar_item b) ∧
     dlg_open (view_dialog v') = negb (Z.eqb (id (base (bar_item b))) 0) ∧
     dlg_content (view_dialog v') =
       Some (mkDialogContent (name (base (bar_item b))) (start (base (bar_item b)))
               (end_ (base (bar_item b)))
               (end_ (base (bar_item b)) - start (base (bar_item b)) + 1)
               (pluralSuffix (end_ (base (bar_item b)) - start (base (bar_item b)) + 1))
               (shownDescription (description (base (bar_item b)))))) ∧
  selectedItem (handle (handle page_init (bar_onClick b)) (bar_onClick b)) = None.
Proof.
  assert (ids_unique sample_items) as Hu by (apply (bool_decide_unpack _); by vm_compute).
  pose (bars := timelineVisual sample_td (zoomLevel page_init) (selectedItem page_init)).
  assert (∃ b rest, bars = b :: rest) as (b & rest & Eb) by (eexists _, _; reflexivity).
  pose (v := mkPageView (pageControls page_init sample_items sample_td)
               (Some (timelineVisualView sample_td (zoomLevel page_init) (selectedItem page_init)))
               None (pageDialog page_init sample_items)).
  assert (timelinePage sample_items page_init = RenderedPage v) as Hp by reflexivity.
  assert (b ∈ bars) as Hb by (rewrite Eb; left).
  exists v, bars, b. split_and!; [exact Hu|exact Hp|reflexivity|exact Hb|done|..];
    apply (bar_click_roundtrip sample_items page_init v bars b Hu Hp eq_refl Hb); done.
Defined.

Lemma app_first_screen_witness :
  Forall valid sample_items ∧ sample_items ≠ [] ∧
  ∃ v, App sample_items = RenderedPage v ∧
    (∃ c, view_controls v = Some c ∧ ctl_zoomPercent c = 100%Z ∧
       ctl_zoomInDisabled c = false ∧ ctl_zoomOutDisabled c = false ∧
       ctl_itemCount c = length sample_items) ∧
    (∃ bars, view_bars v = Some bars ∧ length bars = length sample_items ∧
       Forall (λ b, bar_isSelected b = false ∧ bar_opacity b = QArith_base.Qmake 9 10) bars) ∧
    view_panel v = None ∧ view_dialog v = mkDialogView false None.
Proof.
  assert (Forall valid sample_items) as Hv by (repeat constructor; unfold valid; cbn; lia).
  assert (sample_items ≠ []) as Hne by done.
  split; [exact Hv|]. split; [exact Hne|]. exact (app_first_screen sample_items Hv Hne).
Defined.
