(* ===== verification/Texts.v ===== *)
(** * The dates the page prints

    Every date the page shows is a [format] of a day number (DateFns):
    - the lines of the lane panel, [format(parseISO(item.start), "MMM dd")
      - format(parseISO(item.end), "MMM dd")]
      (src/src/components/LaneInfoPanel/lane-info-panel.jsx lines 45-46);
    - the bar's second line, [format(item.startDate, "MMM dd") -
      format(item.endDate, "MMM dd")], and the tooltip's dates
      [format(item.startDate, "MMM dd, yyyy") → format(item.endDate, ...)]
      (src/src/components/TimelineItem/timeline-item.jsx lines 62-63,
      76-77; the emoji and arrow around them are not modelled);
    - the dialog's ["Start Date: "] and ["End Date: "] lines
      (src/src/components/TimelineItemDialog/timeline-item-dialog.jsx
      lines 24-31);
    - the ruler's month labels [format(monthStart, "MMM yyyy")] and day
      labels ["MMM dd"], ["dd"] or ["MMM"] by the tick's label
      (src/src/components/TimelineVisual/timeline-visual.jsx lines 34-43,
      74-86).
    The controls' range is printed in [Controls.timelineControls].

    The theorem composes the views with the calendar: the bar and the
    panel print the same dates, the tooltip and the dialog the same long
    dates, and a long date identifies the day it prints. *)

From S2P Require Import Prelude DateFns Items LaneAssigner TimelineData PageState.
From S2P Require Import Geometry Panels Ruler.
From stdpp Require Import sets.
From Stdlib Require QArith.

(** ** The texts *)

Definition panelEntryDates (e : PanelEntry) : string :=
  format (entry_start e) fmt_MMM_dd +:+ " - " +:+ format (entry_end e) fmt_MMM_dd.

Definition barDates (item : ItemWithLane) : string :=
  format (startDate item) fmt_MMM_dd +:+ " - " +:+ format (endDate item) fmt_MMM_dd.

Definition tooltipDates (item : ItemWithLane) : string * string :=
  (format (startDate item) fmt_MMM_dd_yyyy, format (endDate item) fmt_MMM_dd_yyyy).

Definition dialogDates (c : DialogContent) : string * string :=
  ("Start Date: " +:+ format (dlg_start c) fmt_MMM_dd_yyyy,
   "End Date: " +:+ format (dlg_end c) fmt_MMM_dd_yyyy).

(** [const monthStart = addDays(startDate, monthIndex * 30)] and its
    [format(monthStart, "MMM yyyy")]. *)
Definition monthLabelText (startDate monthIndex : Z) : string :=
  format (addDays startDate (monthIndex * 30)) fmt_MMM_yyyy.

(** The text of the span the tick shows, if any: [isMonthStart ?
    format(currentDay, "MMM dd") : format(currentDay, "dd")] from zoom 0.6,
    [isMonthStart ? format(currentDay, "MMM") : format(currentDay, "dd")]
    below it. *)
Definition dayLabelText (startDate dayIndex : Z) (zoomLevel baseWidth : QArith_base.Q)
    : option string :=
  let currentDay := addDays startDate dayIndex in
  (λ f, format currentDay
          (match f with Fmt_MMM_dd => fmt_MMM_dd | Fmt_dd => fmt_dd | Fmt_MMM => fmt_MMM end))
    <$> tick_label (dayTick startDate dayIndex zoomLevel baseWidth).

(** ** The dates of an item across the views *)

(** C34. The printed dates of an item agree across the views and identify
    its days: on a rendered page with unique ids, an item's bar prints the
    same ["MMM dd - MMM dd"] as its line in the lane panel, its tooltip
    prints its start and end as ["MMM dd, yyyy"], the dialog of the item
    prints the same two long dates after ["Start Date: "] and
    ["End Date: "], and (in the years 1-9999) another item whose start or
    end prints as this item's starts or ends on the same day. *)
Theorem printed_dates_agree items td s x :
  timelineData assignLanes items = Ok (Some td) → ids_unique items → x ∈ items →
  (1 <= (civil_from_days (start x)).1.1 <= 9999)%Z →
  (1 <= (civil_from_days (end_ x)).1.1 <= 9999)%Z →
  ∃ iw, iw ∈ td_items td ∧ base iw = x ∧
    barDates iw = panelEntryDates (panelEntry (td_items td) x) ∧
    tooltipDates iw = (format (start x) fmt_MMM_dd_yyyy, format (end_ x) fmt_MMM_dd_yyyy) ∧
    (selectedItem s = Some (id x) →
       ∃ c, dlg_content (pageDialog s items) = Some c ∧
         dialogDates c = ("Start Date: " +:+ (tooltipDates iw).1,
                          "End Date: " +:+ (tooltipDates iw).2)) ∧
    (∀ x', x' ∈ items → (1 <= (civil_from_days (start x')).1.1 <= 9999)%Z →
       format (start x') fmt_MMM_dd_yyyy = (tooltipDates iw).1 → start x' = start x) ∧
    (∀ x', x' ∈ items → (1 <= (civil_from_days (end_ x')).1.1 <= 9999)%Z →
       format (end_ x') fmt_MMM_dd_yyyy = (tooltipDates iw).2 → end_ x' = end_ x).
Proof.
  intros Hrun Hu Hx Hys Hye.
  destruct (rendered_item_of items td x Hrun Hx) as (iw & j & l & Hiw & _ & _ & ->).
  exists (annotate j x). split; [done|]. split; [done|].
  split; [unfold barDates, panelEntryDates, panelEntry; cbn [entry_start entry_end startDate
    endDate annotate]; eq_syntactic|].
  split; [unfold tooltipDates; cbn [startDate endDate annotate]; eq_syntactic|]. split_and!.
  - intros Hsel. eexists. unfold pageDialog, timelineItemDialog.
    rewrite Hsel, (findItem_unique items x Hu Hx). split; [reflexivity|].
    unfold dialogDates, tooltipDates. cbn [dlg_start dlg_end startDate endDate annotate fst snd].
    eq_syntactic.
  - intros x' _ Hy' E. cbn in E.
    destruct (civil_from_days (start x')) as [[y' m'] d'] eqn:E'.
    destruct (civil_from_days (start x)) as [[y m] d] eqn:Ex.
    exact (format_long_injective _ _ _ _ _ _ _ _ E' Ex Hy' Hys E).
  - intros x' _ Hy' E. cbn in E.
    destruct (civil_from_days (end_ x')) as [[y' m'] d'] eqn:E'.
    destruct (civil_from_days (end_ x)) as [[y m] d] eqn:Ex.
    exact (format_long_injective _ _ _ _ _ _ _ _ E' Ex Hy' Hye E).
Qed.

(** ** Witnesses *)

Lemma printed_dates_agree_witness :
  timelineData assignLanes sample_items = Ok (Some sample_td) ∧ ids_unique sample_items ∧
  itemB ∈ sample_items ∧
  (1 <= (civil_from_days (start itemB)).1.1 <= 9999)%Z ∧
  (1 <= (civil_from_days (end_ itemB)).1.1 <= 9999)%Z ∧
  ∃ iw, iw ∈ td_items sample_td ∧ base iw = itemB ∧
    barDates iw = panelEntryDates (panelEntry (td_items sample_td) itemB) ∧
    tooltipDates iw =
      (format (start itemB) fmt_MMM_dd_yyyy, format (end_ itemB) fmt_MMM_dd_yyyy) ∧
    (selectedItem b_selected = Some (id itemB) →
       ∃ c, dlg_content (pageDialog b_selected sample_items) = Some c ∧
         dialogDates c = ("Start Date: " +:+ (tooltipDates iw).1,
                          "End Date: " +:+ (tooltipDates iw).2)) ∧
    (∀ x', x' ∈ sample_items → (1 <= (civil_from_days (start x')).1.1 <= 9999)%Z →
       format (start x') fmt_MMM_dd_yyyy = (tooltipDates iw).1 → start x' = start itemB) ∧
    (∀ x', x' ∈ sample_items → (1 <= (civil_from_days (end_ x')).1.1 <= 9999)%Z →
       format (end_ x') fmt_MMM_dd_yyyy = (tooltipDates iw).2 → end_ x' = end_ itemB).
Proof.
  assert (timelineData assignLanes sample_items = Ok (Some sample_td)) as Hrun by reflexivity.
  assert (ids_unique sample_items) as Hu by (apply (bool_decide_unpack _); by vm_compute).
  assert (itemB ∈ sample_items) as Hx by (unfold sample_items; set_solver).
  assert (1 <= (civil_from_days (start itemB)).1.1 <= 9999)%Z as Hs by (vm_compute; split; discriminate).
  assert (1 <= (civil_from_days (end_ itemB)).1.1 <= 9999)%Z as He by (vm_compute; split; discriminate).
  split; [exact Hrun|]. split; [exact Hu|]. split; [exact Hx|]. split; [exact Hs|].
  split; [exact He|].
  exact (printed_dates_agree sample_items sample_td b_selected itemB Hrun Hu Hx Hs He).
Defined.
